(** * The streaming response normaliser of [src/agent/app.py]

    A shallow embedding of [get_tool_status] and of the asynchronous generator
    [generate_stream] (both local to [chat_endpoint]), with the parts of the
    Python library they rely on ([str] methods and [json.loads]), followed by
    the properties of the output stream.

    Python [str] values are modelled as [string], the UTF-8 encoding of the
    text.  Every separator and keyword the program searches for is ASCII, so
    searching, splitting and prefix tests on the encoding agree with the same
    operations on code points. *)

From Stdlib Require Import String Ascii List ZArith Bool Lia.
Import ListNotations.
Open Scope string_scope.

(** ** Python [str] operations used by the program *)

Module PyStr.

(** [bool(s)]: a string is truthy when it is not empty. *)
Definition truthy (s : string) : bool :=
  match s with EmptyString => false | String _ _ => true end.

(** [s.startswith(p)]. *)
Fixpoint is_prefix (p s : string) : bool :=
  match p with
  | EmptyString => true
  | String a p' =>
      match s with
      | EmptyString => false
      | String b s' => Ascii.eqb a b && is_prefix p' s'
      end
  end.

Definition startswith (s p : string) : bool := is_prefix p s.

(** [sub in s]. *)
Fixpoint contains (sub s : string) : bool :=
  is_prefix sub s ||
  match s with
  | EmptyString => false
  | String _ r => contains sub r
  end.

(** One character of [str.lower()].  Only ASCII letters are folded: the two
    non-ASCII characters whose lower case contains an ASCII letter (U+0130
    and U+212A) cannot complete any keyword tested by [get_tool_status]. *)
Definition lower_ascii (c : ascii) : ascii :=
  let n := nat_of_ascii c in
  if (65 <=? n)%nat && (n <=? 90)%nat then ascii_of_nat (n + 32) else c.

Fixpoint lower (s : string) : string :=
  match s with
  | EmptyString => EmptyString
  | String c r => String (lower_ascii c) (lower r)
  end.

(** [s.split(sep)] for a non-empty [sep]: the pieces between successive,
    non-overlapping occurrences of [sep], scanning from the left.  [skip]
    counts the characters of an occurrence still to be consumed and [cur]
    holds the current piece, reversed. *)
Fixpoint rev_string (acc s : string) : string :=
  match s with
  | EmptyString => acc
  | String c r => rev_string (String c acc) r
  end.

Fixpoint split_go (sep s : string) (skip : nat) (cur : string) : list string :=
  match s with
  | EmptyString => [rev_string "" cur]
  | String c r =>
      match skip with
      | S k => split_go sep r k cur
      | O =>
          if is_prefix sep s
          then rev_string "" cur :: split_go sep r (String.length sep - 1) ""
          else split_go sep r 0 (String c cur)
      end
  end.

Definition split (s sep : string) : list string := split_go sep s 0 "".

(** [s.split(sep, 1)] for a one-character [sep]: [None] stands for the
    one-element list [[s]], [Some (a, b)] for the two-element list
    [[a, b]]. *)
Fixpoint split1 (s : string) (sep : ascii) : option (string * string) :=
  match s with
  | EmptyString => None
  | String c r =>
      if Ascii.eqb c sep then Some ("", r)
      else match split1 r sep with
           | Some (a, b) => Some (String c a, b)
           | None => None
           end
  end.

(** [s] without the prefix [p], when it has it. *)
Fixpoint strip_prefix (p s : string) : option string :=
  match p with
  | EmptyString => Some s
  | String a p' =>
      match s with
      | String b s' => if Ascii.eqb a b then strip_prefix p' s' else None
      | EmptyString => None
      end
  end.

(** The text of [s] before the first occurrence of [sep] (all of [s] when
    there is none), and the text after it (nothing when there is none). *)
Fixpoint before (sep s : string) : string :=
  if is_prefix sep s then ""
  else match s with
       | EmptyString => ""
       | String c r => String c (before sep r)
       end.

Fixpoint after (sep s : string) : string :=
  match strip_prefix sep s with
  | Some r => r
  | None =>
      match s with
      | EmptyString => ""
      | String _ r => after sep r
      end
  end.

End PyStr.

(** ** [get_tool_status]

    A tool name is [Optional[str]]: streamed tool-call chunks carry [None]
    names, which is why the source guards [name.lower()] with [if name]. *)

Definition pyname := option string.

(** [str(name)] as an f-string formats it. *)
Definition pyname_str (n : pyname) : string :=
  match n with Some s => s | None => "None" end.

Definition db_terms : list string :=
  ["query"; "sql"; "database"; "db"; "sales"; "customer"; "order"; "product"].

(** The [if]/[elif] chain of the loop body; [None] when no branch returns. *)
Definition status_of_name (name : pyname) : option string :=
  let name_lower :=
    match name with
    | Some s => if PyStr.truthy s then PyStr.lower s else ""
    | None => ""
    end in
  if PyStr.contains "semantic_search" name_lower then
    Some "🔍 Searching products..."
  else if PyStr.contains "execute_sales_query" name_lower
          || PyStr.contains "get_table_schemas" name_lower then
    Some "🔍 Querying database..."
  else if PyStr.contains "get_current_utc_date" name_lower then
    Some "⏰ Getting current time..."
  else if PyStr.contains "image" name_lower
          || PyStr.contains "generate_image" name_lower then
    Some "🎨 Generating image..."
  else if PyStr.contains "web_search" name_lower then
    Some "🔎 Searching the web..."
  else if PyStr.contains "code_interpreter" name_lower
          || PyStr.contains "code" name_lower then
    Some "💻 Running code..."
  else if existsb (fun db_term => PyStr.contains db_term name_lower) db_terms then
    Some "🔍 Querying database..."
  else None.

Fixpoint first_status (names : list pyname) : option string :=
  match names with
  | [] => None
  | name :: rest =>
      match status_of_name name with
      | Some label => Some label
      | None => first_status rest
      end
  end.

Definition get_tool_status (tool_names : list pyname) : string :=
  match first_status tool_names with
  | Some label => label
  | None =>
      "⚙️ Using "
      ++ match tool_names with
         | n :: _ => pyname_str n
         | [] => "tool"
         end
      ++ "..."
  end.

(** ** JSON values and [json.loads]

    The values [json.loads] builds.  A float keeps the text it was read from;
    Python integers are unbounded, as [Z] is.  A [dict] keeps its keys in
    order of first insertion, each with the value assigned last. *)

#[warnings="-register-all"]
Inductive json : Type :=
| JNull
| JBool (b : bool)
| JInt (z : Z)
| JFloat (lexeme : string)
| JStr (s : string)
| JList (items : list json)
| JDict (pairs : list (string * json)).

Module PyDict.

(** [d[k] = v]. *)
Fixpoint set {A} (d : list (string * A)) (k : string) (v : A) : list (string * A) :=
  match d with
  | [] => [(k, v)]
  | (k', v') :: r => if String.eqb k' k then (k', v) :: r else (k', v') :: set r k v
  end.

(** [d.get(k)], [None] when the key is absent. *)
Fixpoint get {A} (d : list (string * A)) (k : string) : option A :=
  match d with
  | [] => None
  | (k', v) :: r => if String.eqb k' k then Some v else get r k
  end.

(** [d.get(k, default)]. *)
Definition get_default {A} (d : list (string * A)) (k : string) (default : A) : A :=
  match get d k with Some v => v | None => default end.

End PyDict.

(** [o.get(k, default)] and [getattr(o, k, default)] on a typed optional
    field: [None] is an absent key or attribute. *)
Definition get_or {A} (field : option A) (default : A) : A :=
  match field with Some v => v | None => default end.

(** ** Exceptions and the limits of the interpreter

    The exceptions that can leave [json.loads], [json.dumps] and the
    generator.  [JSONDecodeError] is the only one the generator catches; the
    [ValueError] of an integer with too many digits and [RecursionError] are
    not subclasses of it. *)

Inductive PyExn : Type :=
| JSONDecodeError
| IntValueError                   (* [ValueError]: more than 4300 digits *)
| RecursionError
| AttributeError
| UpstreamError (msg : string).   (* raised by [agent.astream] *)

(** What a call gives: the value it returns or the exception it raises. *)
Inductive PyResult (A : Type) : Type :=
| Returns (v : A)
| Raises (e : PyExn).
Arguments Returns {A} v.
Arguments Raises {A} e.

(** [sys.get_int_max_str_digits()], which the program leaves at its
    default: converting between [int] and [str] raises [ValueError] beyond
    that many digits. *)
Definition int_max_str_digits : nat := 4300.

(** What the program takes from the interpreter that runs it.  The C scanner
    and the C encoder of [json] enter a recursive call for every list and
    dictionary they open, and raise [RecursionError] when the interpreter
    allows no further one: [loads_depth] and [dumps_depth] are the numbers
    of nested lists and dictionaries that [json.loads] and [json.dumps] can
    open where the generator calls them.  They depend on the version of the
    interpreter and on the stack in use, and are the same at every call of
    one run.  The final record nests three deep (a dictionary, the list of
    images, an image), and an interpreter that cannot write it is not
    considered.  [float_repr] is [float.__repr__] of the float a lexeme
    denotes ([NaN], [Infinity] and [-Infinity] for the values that are not
    finite). *)
Class Interp : Type := {
  loads_depth : nat;
  dumps_depth : nat;
  float_repr : string -> string;
  dumps_depth_min : (3 <=? dumps_depth)%nat = true
}.

Module Json.

Inductive presult (A : Type) : Type :=
| POk (v : A) (rest : string)   (* a value and the unread input *)
| PErr                          (* [JSONDecodeError] *)
| PRaise (e : PyExn)            (* [ValueError] or [RecursionError] *)
| PFuel.                        (* recursion budget of the model exhausted *)
Arguments POk {A} v rest.
Arguments PErr {A}.
Arguments PRaise {A} e.
Arguments PFuel {A}.

Definition is_ws (c : ascii) : bool :=
  Ascii.eqb c " " || Ascii.eqb c "009" || Ascii.eqb c "010" || Ascii.eqb c "013".

Fixpoint skip_ws (s : string) : string :=
  match s with
  | String c r => if is_ws c then skip_ws r else s
  | EmptyString => s
  end.

Definition is_digit (c : ascii) : bool :=
  let n := nat_of_ascii c in (48 <=? n)%nat && (n <=? 57)%nat.

Definition hex_val (c : ascii) : option N :=
  let n := N_of_ascii c in
  if (48 <=? n)%N && (n <=? 57)%N then Some (n - 48)%N
  else if (65 <=? n)%N && (n <=? 70)%N then Some (n - 55)%N
  else if (97 <=? n)%N && (n <=? 102)%N then Some (n - 87)%N
  else None.

Definition hex4 (a b c d : ascii) : option N :=
  match hex_val a, hex_val b, hex_val c, hex_val d with
  | Some x, Some y, Some z, Some w => Some (((x * 16 + y) * 16 + z) * 16 + w)%N
  | _, _, _, _ => None
  end.

(** The character a backslash escape other than [\u] stands for. *)
Definition backslash (e : ascii) : option ascii :=
  if Ascii.eqb e "034" then Some "034"%char
  else if Ascii.eqb e "\" then Some "\"%char
  else if Ascii.eqb e "/" then Some "/"%char
  else if Ascii.eqb e "b" then Some "008"%char
  else if Ascii.eqb e "f" then Some "012"%char
  else if Ascii.eqb e "n" then Some "010"%char
  else if Ascii.eqb e "r" then Some "013"%char
  else if Ascii.eqb e "t" then Some "009"%char
  else None.

(** A string literal is read into literal characters and [\uXXXX] code
    units; surrogate pairs are joined afterwards, as [scanstring] joins a
    high surrogate escape with a low surrogate escape that follows it. *)
Inductive sitem : Type :=
| Lit (c : ascii)
| Esc (u : N).

Definition cons_item (i : sitem) (r : option (list sitem * string))
  : option (list sitem * string) :=
  match r with
  | Some (l, rest) => Some (i :: l, rest)
  | None => None
  end.

(** The input after an opening quote, up to and including the closing one
    (strict mode: a raw control character is an error). *)
Fixpoint scan_items (s : string) : option (list sitem * string) :=
  match s with
  | EmptyString => None
  | String c r =>
      if Ascii.eqb c "034" then Some ([], r)
      else if Ascii.eqb c "\" then
        match r with
        | EmptyString => None
        | String e r1 =>
            if Ascii.eqb e "u" then
              match r1 with
              | String h1 (String h2 (String h3 (String h4 r5))) =>
                  match hex4 h1 h2 h3 h4 with
                  | Some u => cons_item (Esc u) (scan_items r5)
                  | None => None
                  end
              | _ => None
              end
            else
              match backslash e with
              | Some ch => cons_item (Lit ch) (scan_items r1)
              | None => None
              end
        end
      else if (nat_of_ascii c <? 32)%nat then None
      else cons_item (Lit c) (scan_items r)
  end.

Definition byte (n : N) : ascii := ascii_of_N n.

(** [chr(u)] in UTF-8 (a lone surrogate in the generalised three-byte
    form). *)
Definition utf8 (u : N) : string :=
  if (u <? 128)%N then String (byte u) ""
  else if (u <? 2048)%N then
    String (byte (192 + u / 64)) (String (byte (128 + u mod 64)) "")
  else if (u <? 65536)%N then
    String (byte (224 + u / 4096))
      (String (byte (128 + (u / 64) mod 64)) (String (byte (128 + u mod 64)) ""))
  else
    String (byte (240 + u / 262144))
      (String (byte (128 + (u / 4096) mod 64))
         (String (byte (128 + (u / 64) mod 64)) (String (byte (128 + u mod 64)) ""))).

Definition is_high (u : N) : bool := (55296 <=? u)%N && (u <=? 56319)%N.
Definition is_low (u : N) : bool := (56320 <=? u)%N && (u <=? 57343)%N.

Fixpoint decode_items (l : list sitem) : string :=
  match l with
  | [] => ""
  | Lit c :: r => String c (decode_items r)
  | Esc u :: r =>
      match r with
      | Esc v :: r' =>
          if is_high u && is_low v
          then utf8 (65536 + ((u - 55296) * 1024 + (v - 56320))) ++ decode_items r'
          else utf8 u ++ decode_items r
      | _ => utf8 u ++ decode_items r
      end
  end.

(** [scanstring(s, end)] with [end] just after the opening quote. *)
Definition scanstring (s : string) : option (string * string) :=
  match scan_items s with
  | Some (l, rest) => Some (decode_items l, rest)
  | None => None
  end.

Fixpoint span_digits (s : string) : string * string :=
  match s with
  | String c r =>
      if is_digit c then let (d, rest) := span_digits r in (String c d, rest)
      else ("", s)
  | EmptyString => ("", "")
  end.

Fixpoint digits_value (acc : Z) (d : string) : Z :=
  match d with
  | EmptyString => acc
  | String c r => digits_value (acc * 10 + Z.of_nat (nat_of_ascii c - 48)) r
  end.

(** The integer part of [NUMBER_RE]: an optional minus sign, then either a
    single zero or a non-zero digit followed by any digits. *)
Definition match_int (s : string) : option (string * string) :=
  let '(sign, s1) :=
    match s with
    | String c r => if Ascii.eqb c "-" then ("-", r) else ("", s)
    | EmptyString => ("", s)
    end in
  match s1 with
  | String c r =>
      if Ascii.eqb c "0" then Some (sign ++ "0", r)
      else if is_digit c then
        let (d, rest) := span_digits r in Some (sign ++ String c d, rest)
      else None
  | EmptyString => None
  end.

(** The optional fraction: a dot and at least one digit. *)
Definition match_frac (s : string) : string * string :=
  match s with
  | String c r =>
      if Ascii.eqb c "." then
        match span_digits r with
        | (String d ds, rest) => (String c (String d ds), rest)
        | (EmptyString, _) => ("", s)
        end
      else ("", s)
  | EmptyString => ("", s)
  end.

(** The optional exponent: [e] or [E], an optional sign and at least one
    digit. *)
Definition match_exp (s : string) : string * string :=
  match s with
  | String c r =>
      if Ascii.eqb c "e" || Ascii.eqb c "E" then
        let '(sign, r1) :=
          match r with
          | String g r' =>
              if Ascii.eqb g "-" || Ascii.eqb g "+" then (String g "", r') else ("", r)
          | EmptyString => ("", r)
          end in
        match span_digits r1 with
        | (String d ds, rest) => (String c (sign ++ String d ds), rest)
        | (EmptyString, _) => ("", s)
        end
      else ("", s)
  | EmptyString => ("", s)
  end.

Definition int_value (lexeme : string) : Z :=
  match lexeme with
  | String c r => if Ascii.eqb c "-" then (- digits_value 0 r)%Z else digits_value 0 lexeme
  | EmptyString => 0%Z
  end.

(** The digits of an integer lexeme, its sign left out. *)
Definition digit_count (lexeme : string) : nat :=
  match lexeme with
  | String c r => if Ascii.eqb c "-" then String.length r else String.length lexeme
  | EmptyString => 0
  end.

(** [int(lexeme)]: beyond [int_max_str_digits] digits the conversion raises
    [ValueError]. *)
Definition int_of_lexeme (lexeme : string) : PyResult json :=
  if (int_max_str_digits <? digit_count lexeme)%nat then Raises IntValueError
  else Returns (JInt (int_value lexeme)).

(** A number is converted as soon as it is matched: a lexeme with a
    fraction or an exponent by [float], which takes any number of digits,
    any other by [int]. *)
Definition match_number (s : string) : option (PyResult json * string) :=
  match match_int s with
  | None => None
  | Some (i, r1) =>
      let (f, r2) := match_frac r1 in
      let (e, r3) := match_exp r2 in
      match f, e with
      | EmptyString, EmptyString => Some (int_of_lexeme i, r3)
      | _, _ => Some (Returns (JFloat (i ++ f ++ e)), r3)
      end
  end.

(** The literals tried before and after a number, in the scanner's order. *)
Definition scan_atom (s : string) : presult json :=
  match PyStr.strip_prefix "null" s with Some r => POk JNull r | None =>
  match PyStr.strip_prefix "true" s with Some r => POk (JBool true) r | None =>
  match PyStr.strip_prefix "false" s with Some r => POk (JBool false) r | None =>
  match match_number s with
  | Some (Returns v, r) => POk v r
  | Some (Raises e, _) => PRaise e
  | None =>
  match PyStr.strip_prefix "NaN" s with Some r => POk (JFloat "NaN") r | None =>
  match PyStr.strip_prefix "Infinity" s with Some r => POk (JFloat "Infinity") r | None =>
  match PyStr.strip_prefix "-Infinity" s with Some r => POk (JFloat "-Infinity") r | None =>
  PErr
  end end end end end end end.

(** [scan_once], [JSONObject] and [JSONArray].  [object_members] starts just
    after the opening quote of a key, [array_items] at a value.  [depth] is
    the number of lists and dictionaries that can still be opened: the
    scanner enters a recursive call at every opening brace and bracket,
    before it reads what follows. *)
Fixpoint scan_once (fuel depth : nat) (s : string) : presult json :=
  match fuel with
  | O => PFuel
  | S fuel' =>
      match s with
      | EmptyString => PErr
      | String c r =>
          if Ascii.eqb c "034" then
            match scanstring r with
            | Some (str, rest) => POk (JStr str) rest
            | None => PErr
            end
          else if Ascii.eqb c "{" then
            match depth with
            | O => PRaise RecursionError
            | S depth' =>
                match skip_ws r with
                | String c1 r1 =>
                    if Ascii.eqb c1 "}" then POk (JDict []) r1
                    else if Ascii.eqb c1 "034" then
                      match object_members fuel' depth' r1 [] with
                      | POk pairs rest => POk (JDict pairs) rest
                      | PErr => PErr
                      | PRaise e => PRaise e
                      | PFuel => PFuel
                      end
                    else PErr
                | EmptyString => PErr
                end
            end
          else if Ascii.eqb c "[" then
            match depth with
            | O => PRaise RecursionError
            | S depth' =>
                match skip_ws r with
                | String c1 r1 =>
                    if Ascii.eqb c1 "]" then POk (JList []) r1
                    else
                      match array_items fuel' depth' (String c1 r1) with
                      | POk items rest => POk (JList items) rest
                      | PErr => PErr
                      | PRaise e => PRaise e
                      | PFuel => PFuel
                      end
                | EmptyString => PErr
                end
            end
          else scan_atom s
      end
  end

with object_members (fuel depth : nat) (s : string) (acc : list (string * json))
  : presult (list (string * json)) :=
  match fuel with
  | O => PFuel
  | S fuel' =>
      match scanstring s with
      | None => PErr
      | Some (key, r) =>
          match skip_ws r with
          | String c r1 =>
              if Ascii.eqb c ":" then
                match scan_once fuel' depth (skip_ws r1) with
                | POk v r2 =>
                    match skip_ws r2 with
                    | String c2 r3 =>
                        if Ascii.eqb c2 "}" then POk (PyDict.set acc key v) r3
                        else if Ascii.eqb c2 "," then
                          match skip_ws r3 with
                          | String c3 r4 =>
                              if Ascii.eqb c3 "034"
                              then object_members fuel' depth r4 (PyDict.set acc key v)
                              else PErr
                          | EmptyString => PErr
                          end
                        else PErr
                    | EmptyString => PErr
                    end
                | PErr => PErr
                | PRaise e => PRaise e
                | PFuel => PFuel
                end
              else PErr
          | EmptyString => PErr
          end
      end
  end

with array_items (fuel depth : nat) (s : string) : presult (list json) :=
  match fuel with
  | O => PFuel
  | S fuel' =>
      match scan_once fuel' depth s with
      | POk v r =>
          match skip_ws r with
          | String c r1 =>
              if Ascii.eqb c "]" then POk [v] r1
              else if Ascii.eqb c "," then
                match array_items fuel' depth (skip_ws r1) with
                | POk items rest => POk (v :: items) rest
                | PErr => PErr
                | PRaise e => PRaise e
                | PFuel => PFuel
                end
              else PErr
          | EmptyString => PErr
          end
      | PErr => PErr
      | PRaise e => PRaise e
      | PFuel => PFuel
      end
  end.

(** [json.loads(s)]: one value between optional whitespace, and nothing
    else; a leading byte-order mark is refused. *)
Definition bom : string := String "239" (String "187" (String "191" "")).

Definition loads_fuel (fuel depth : nat) (s : string) : presult json :=
  if PyStr.is_prefix bom s then PErr
  else
    match scan_once fuel depth (skip_ws s) with
    | POk v rest =>
        match skip_ws rest with
        | EmptyString => POk v ""
        | String _ _ => PErr
        end
    | PErr => PErr
    | PRaise e => PRaise e
    | PFuel => PFuel
    end.

(** The value returned or the exception raised.  The budget of the model is
    never exhausted ([loads_fuel_enough] below). *)
Definition loads `{interp : Interp} (s : string) : PyResult json :=
  match loads_fuel (2 * String.length s + 1) loads_depth s with
  | POk v _ => Returns v
  | PRaise e => Raises e
  | PErr | PFuel => Raises JSONDecodeError
  end.

(** A successful result leaves less input than it was given. *)
Definition shorter {A : Type} (s : string) (r : presult A) : Prop :=
  match r with
  | POk _ rest => String.length rest < String.length s
  | _ => True
  end.

End Json.

Open Scope list_scope.

(** ** Upstream events

    The items [agent.astream] yields.  Dictionaries read with [.get] and
    objects read with [getattr]/[hasattr] become records of optional fields,
    [None] standing for an absent key or attribute.  A field that is present
    holds a value of the type the data model gives it (a string, a list of
    entries); values of other types, on which the source would raise a
    [TypeError] or an [AttributeError], are outside this model. *)

(** An entry of a [files] list. *)
Record FileInfo : Type := {
  file_data : option string;
  mime_type : option string
}.

(** An entry of an [outputs] list that is a [dict]. *)
Record OutputDict : Type := {
  o_type : option string;
  o_url : option string;
  o_base64 : option string;
  o_data : option string;
  o_format : option string;
  o_files : option (list FileInfo)
}.

Inductive Output : Type :=
| OutDict (o : OutputDict)
| OutOther.                       (* [isinstance(output, dict)] is false *)

(** A content block that is a [dict]. *)
Record BlockDict : Type := {
  b_type : option string;
  b_text : option string;
  b_name : option pyname;
  b_outputs : option (list Output);
  b_url : option string;
  b_base64 : option string;
  b_format : option string
}.

(** A content block that is an object (the older format). *)
Record BlockObj : Type := {
  bo_text : option string;
  bo_type : option string;
  bo_base64 : option string;
  bo_data : option string;
  bo_format : option string
}.

Inductive Block : Type :=
| BDict (b : BlockDict)
| BObj (b : BlockObj).

Inductive Content : Type :=
| ContentStr (s : string)
| ContentList (blocks : list Block).

(** An entry of [token.tool_calls]. *)
Inductive ToolCall : Type :=
| TcDict (name : option pyname)   (* [tc.get("name", "tool")] *)
| TcObj (name : option pyname).   (* [getattr(tc, "name", "tool")] *)

(** An entry of [token.additional_kwargs["tool_calls"]]; a [dict] entry
    holds its name under ["function"]. *)
Inductive KwToolCall : Type :=
| KwDict (function : option (option pyname))
| KwObj (name : option pyname).

Record AdditionalKwargs : Type := {
  kw_tool_calls : option (list KwToolCall)
}.

Inductive ResponseMetadata : Type :=
| MetaDict (code_interpreter_call : option (option (list Output)))
           (outputs : option (list Output))
| MetaOther.                      (* [isinstance(resp_meta, dict)] is false *)

Record Token : Type := {
  msg_type : option string;                       (* [getattr(token, "type", None)] *)
  tool_calls : option (list ToolCall);
  additional_kwargs : option AdditionalKwargs;
  content : option Content;
  response_metadata : option ResponseMetadata
}.

(** An item of the stream: a [(token, metadata)] tuple or a bare token. *)
Inductive StreamItem : Type :=
| ItemTuple (token : Token) (metadata : json)
| ItemBare (token : Token).

Definition token_of (chunk : StreamItem) : Token :=
  match chunk with
  | ItemTuple token _ => token
  | ItemBare token => token
  end.

(** ** Output records

    The dictionaries the generator passes to [json.dumps], one per line of
    the response body. *)

Record image_data : Type := {
  base64 : json;
  format : json
}.

Inductive OutRec : Type :=
| OChunk (chunk : string)                       (* a record with the key [chunk] *)
| OStatus (status : string)                     (* a record with the key [status] *)
| OImage (image : image_data)                   (* a record with the key [image] *)
| OFinal (message role : string) (images : list image_data) (done : bool).

(** ** [json.dumps]

    [json.dumps] with its default arguments: ASCII output, [", "] between
    items and [": "] after a key.  A Python [str] is escaped code point by
    code point, so the UTF-8 text of the model is decoded first. *)

Module Utf8.

(** The code points of a UTF-8 text (in the generalised form [Json.utf8]
    writes, surrogates included).  Bytes that are not such a text are read
    in some way: they stand for no Python [str]. *)
Fixpoint decode (s : string) : list N :=
  match s with
  | EmptyString => []
  | String b0 r =>
      let n0 := N_of_ascii b0 in
      if (n0 <? 128)%N then n0 :: decode r
      else if (n0 <? 224)%N then
        match r with
        | String b1 r1 => ((n0 - 192) * 64 + (N_of_ascii b1 - 128))%N :: decode r1
        | _ => n0 :: decode r
        end
      else if (n0 <? 240)%N then
        match r with
        | String b1 (String b2 r2) =>
            ((n0 - 224) * 4096 + (N_of_ascii b1 - 128) * 64
             + (N_of_ascii b2 - 128))%N :: decode r2
        | _ => n0 :: decode r
        end
      else
        match r with
        | String b1 (String b2 (String b3 r3)) =>
            ((n0 - 240) * 262144 + (N_of_ascii b1 - 128) * 4096
             + (N_of_ascii b2 - 128) * 64 + (N_of_ascii b3 - 128))%N :: decode r3
        | _ => n0 :: decode r
        end
  end.

Fixpoint encode (cps : list N) : string :=
  match cps with
  | [] => ""
  | cp :: rest => (Json.utf8 cp ++ encode rest)%string
  end.

(** A Unicode scalar value: a code point that is not a surrogate. *)
Definition scalar (cp : N) : bool :=
  (cp <? 1114112)%N && negb ((55296 <=? cp)%N && (cp <=? 57343)%N).

(** [s] is the UTF-8 encoding of a sequence of scalar values. *)
Definition valid_text (s : string) : bool :=
  forallb scalar (decode s) && String.eqb (encode (decode s)) s.

End Utf8.

Module Dumps.

Definition hex_digit (d : N) : ascii :=
  if (d <? 10)%N then ascii_of_N (48 + d) else ascii_of_N (87 + d).

(** The four lower-case hexadecimal digits of [u]. *)
Definition hex4_text (u : N) : string :=
  String (hex_digit (u / 4096))
    (String (hex_digit ((u / 256) mod 16))
       (String (hex_digit ((u / 16) mod 16))
          (String (hex_digit (u mod 16)) ""))).

Definition u_escape (u : N) : string := String "\" (String "u" (hex4_text u)).

(** What [encode_basestring_ascii] writes for one code point. *)
Definition escape_cp (n : N) : string :=
  if (n =? 34)%N then String "\" (String "034" "")
  else if (n =? 92)%N then String "\" (String "\" "")
  else if (n =? 8)%N then String "\" "b"
  else if (n =? 12)%N then String "\" "f"
  else if (n =? 10)%N then String "\" "n"
  else if (n =? 13)%N then String "\" "r"
  else if (n =? 9)%N then String "\" "t"
  else if (32 <=? n)%N && (n <=? 126)%N then String (ascii_of_N n) ""
  else if (n <? 65536)%N then u_escape n
  else
    let m := (n - 65536)%N in
    (u_escape (55296 + m / 1024) ++ u_escape (56320 + m mod 1024))%string.

Fixpoint escape (cps : list N) : string :=
  match cps with
  | [] => ""
  | cp :: rest => (escape_cp cp ++ escape rest)%string
  end.

Definition encode_basestring_ascii (s : string) : string :=
  String "034" (escape (Utf8.decode s) ++ String "034" "").

(** The decimal digits of a natural number, most significant first. *)
Fixpoint digits_fuel (fuel : nat) (n : N) : string :=
  match fuel with
  | O => ""
  | S fuel' =>
      ((if (n <? 10)%N then "" else digits_fuel fuel' (n / 10))
       ++ String (ascii_of_N (48 + n mod 10)) "")%string
  end.

Definition digits (n : N) : string := digits_fuel (S (N.to_nat (N.log2 n))) n.

Definition decimal (z : Z) : string :=
  if (z <? 0)%Z then String "-" (digits (Z.to_N (- z))) else digits (Z.to_N z).

(** [int.__repr__]: the decimal text, or [ValueError] when it has more than
    [int_max_str_digits] digits. *)
Definition int_text (z : Z) : PyResult string :=
  if (int_max_str_digits <? Json.digit_count (decimal z))%nat then Raises IntValueError
  else Returns (decimal z).

(** [", ".join(l)]. *)
Fixpoint join_items (l : list string) : string :=
  match l with
  | [] => ""
  | [x] => x
  | x :: rest => (x ++ ", " ++ join_items rest)%string
  end.

(** The texts of the items in order: the first exception ends the
    encoding. *)
Fixpoint collect (l : list (PyResult string)) : PyResult (list string) :=
  match l with
  | [] => Returns []
  | Raises e :: _ => Raises e
  | Returns x :: rest =>
      match collect rest with
      | Returns xs => Returns (x :: xs)
      | Raises e => Raises e
      end
  end.

(** A dictionary member: the key, [": "] and the text of the value. *)
Definition member (key : string) (value : PyResult string) : PyResult string :=
  match value with
  | Returns t => Returns (encode_basestring_ascii key ++ ": " ++ t)%string
  | Raises e => Raises e
  end.

Definition enclose (opening closing : string) (items : PyResult (list string))
  : PyResult string :=
  match items with
  | Returns texts => Returns (opening ++ join_items texts ++ closing)%string
  | Raises e => Raises e
  end.

(** The encoder.  [depth] is the number of lists and dictionaries that can
    still be opened: the encoder enters a recursive call for every list and
    dictionary, before it looks at its items. *)
Fixpoint encode_obj `{interp : Interp} (depth : nat) (v : json) {struct v}
  : PyResult string :=
  match v with
  | JNull => Returns "null"
  | JBool true => Returns "true"
  | JBool false => Returns "false"
  | JInt z => int_text z
  | JFloat lexeme => Returns (float_repr lexeme)
  | JStr s => Returns (encode_basestring_ascii s)
  | JList items =>
      match depth with
      | O => Raises RecursionError
      | S depth' => enclose "[" "]" (collect (map (encode_obj depth') items))
      end
  | JDict pairs =>
      match depth with
      | O => Raises RecursionError
      | S depth' =>
          enclose "{" "}"
            (collect (map (fun kv => member (fst kv) (encode_obj depth' (snd kv))) pairs))
      end
  end.

Definition dumps `{interp : Interp} (v : json) : PyResult string :=
  encode_obj dumps_depth v.

End Dumps.

(** The dictionaries the generator passes to [json.dumps]. *)
Definition image_json (img : image_data) : json :=
  JDict [("base64", base64 img); ("format", format img)].

Definition record_json (r : OutRec) : json :=
  match r with
  | OChunk text => JDict [("chunk", JStr text)]
  | OStatus status_msg => JDict [("status", JStr status_msg)]
  | OImage img => JDict [("image", image_json img)]
  | OFinal message role_ imgs done_ =>
      JDict [("message", JStr message); ("role", JStr role_);
             ("images", JList (map image_json imgs)); ("done", JBool done_)]
  end.

(** [json.dumps(record)]: the line of a record, without its newline. *)
Definition line_text `{interp : Interp} (r : OutRec) : PyResult string :=
  Dumps.dumps (record_json r).

(** ** State of the generator and its statements *)

Record State : Type := {
  full_response : string;
  images : list image_data;
  tool_in_progress : bool
}.

Definition initial : State :=
  {| full_response := ""; images := []; tool_in_progress := false |}.

(** A statement sequence that cannot raise: the new state and the records
    passed to [json.dumps] for its yields.  A yield whose [json.dumps]
    raises ends the generator there; which records that leaves written is
    decided where the generator is put together ([sent] below), so that the
    statements read here as they do in the source. *)
Definition Step : Type := State -> State * list OutRec.

Definition skip : Step := fun st => (st, []).

Definition seq (a b : Step) : Step :=
  fun st =>
    let (st1, out1) := a st in
    let (st2, out2) := b st1 in
    (st2, out1 ++ out2).

Fixpoint for_each {A : Type} (l : list A) (body : A -> Step) : Step :=
  match l with
  | [] => skip
  | x :: rest => seq (body x) (for_each rest body)
  end.

(** [images.append(image_data)] followed by the yield of the image. *)
Definition yield_image (img : image_data) : Step :=
  fun st =>
    ({| full_response := full_response st;
        images := images st ++ [img];
        tool_in_progress := tool_in_progress st |},
     [OImage img]).

(** [full_response += text] followed by the yield of the chunk. *)
Definition yield_chunk (text : string) : Step :=
  fun st =>
    ({| full_response := (full_response st ++ text)%string;
        images := images st;
        tool_in_progress := tool_in_progress st |},
     [OChunk text]).

(** [if not tool_in_progress:] set the flag and yield the status. *)
Definition announce (status_msg : string) : Step :=
  fun st =>
    if tool_in_progress st then (st, [])
    else ({| full_response := full_response st;
             images := images st;
             tool_in_progress := true |},
          [OStatus status_msg]).

(** [if tool_in_progress:] reset the flag and yield the empty status. *)
Definition clear_status : Step :=
  fun st =>
    if tool_in_progress st
    then ({| full_response := full_response st;
             images := images st;
             tool_in_progress := false |},
          [OStatus ""])
    else (st, []).

(** [field == s] for an optional string field. *)
Definition is_str (field : option string) (s : string) : bool :=
  match field with Some t => String.eqb t s | None => false end.

(** [value == s] for the result of [.get] on a parsed object. *)
Definition json_is_str (value : option json) (s : string) : bool :=
  match value with Some (JStr t) => String.eqb t s | _ => false end.

Definition truthy_list {A : Type} (l : option (list A)) : bool :=
  match l with Some (_ :: _) => true | _ => false end.

(** ** Images in the response metadata (lines 338-379) *)

(** The last item of a [split] exists ([split_first] below): the default of
    [last] is never used. *)
Definition metadata_file (file_info : FileInfo) : Step :=
  if PyStr.contains "image" (get_or (mime_type file_info) "") then
    yield_image
      {| base64 := JStr (get_or (file_data file_info) "");
         format := JStr (last (PyStr.split (get_or (mime_type file_info) "image/png") "/") "") |}
  else skip.

Definition metadata_output (output : Output) : Step :=
  match output with
  | OutDict o =>
      if is_str (o_type o) "files" then
        for_each (get_or (o_files o) []) metadata_file
      else if is_str (o_type o) "image" then
        yield_image
          {| base64 := JStr (get_or (o_base64 o) (get_or (o_data o) ""));
             format := JStr (get_or (o_format o) "png") |}
      else skip
  | OutOther => skip
  end.

Definition metadata_outputs (resp_meta : ResponseMetadata) : list Output :=
  match resp_meta with
  | MetaDict cic top =>
      let outputs := get_or (get_or cic None) [] in
      match outputs with
      | [] => get_or top []
      | _ :: _ => outputs
      end
  | MetaOther => []
  end.

Definition metadata_images (token : Token) : Step :=
  match response_metadata token with
  | Some resp_meta => for_each (metadata_outputs resp_meta) metadata_output
  | None => skip
  end.

(** ** Content blocks (lines 383-534) *)

(** The data URI branch: [url.split(",", 1)] and the format named in the
    part before the comma.  The items [[1]] and [[0]] taken from the lists
    exist ([split_second] and [split_first] below), so the defaults of [nth]
    and [hd] are never used. *)
Definition data_uri_image (url : string) : Step :=
  match PyStr.split1 url "," with
  | Some (mime_part, b64_data) =>
      let img_format :=
        if PyStr.contains "image/" mime_part
        then hd "" (PyStr.split (nth 1 (PyStr.split mime_part "image/") "") ";")
        else "png" in
      yield_image {| base64 := JStr b64_data; format := JStr img_format |}
  | None => skip
  end.

(** One entry of the [outputs] of a [code_interpreter_call] block. *)
Definition block_output (output : Output) : Step :=
  match output with
  | OutDict o =>
      if is_str (o_type o) "image" then
        let url := get_or (o_url o) "" in
        if PyStr.startswith url "data:image/" then data_uri_image url
        else
          let b64 := get_or (o_base64 o) (get_or (o_data o) "") in
          if PyStr.truthy b64 then
            yield_image {| base64 := JStr b64; format := JStr (get_or (o_format o) "png") |}
          else skip
      else skip
  | OutOther => skip
  end.

Definition code_interpreter_block (block : BlockDict) : Step :=
  let outputs := get_or (b_outputs block) [] in
  seq (match outputs with
       | [] => announce "💻 Running code..."
       | _ :: _ => skip
       end)
      (seq (match outputs with
            | [] => skip
            | _ :: _ => clear_status
            end)
           (for_each outputs block_output)).

Definition image_block (block : BlockDict) : Step :=
  let url := get_or (b_url block) "" in
  if PyStr.startswith url "data:image/" then data_uri_image url
  else
    let b64 := get_or (b_base64 block) "" in
    if PyStr.truthy b64 then
      yield_image {| base64 := JStr b64; format := JStr (get_or (b_format block) "png") |}
    else skip.

Definition process_block (block : Block) : Step :=
  match block with
  | BDict b =>
      let block_type := b_type b in
      if is_str block_type "text" then
        let text := get_or (b_text b) "" in
        if PyStr.truthy text then yield_chunk text else skip
      else if is_str block_type "reasoning" then skip
      else if is_str block_type "server_tool_call" then
        let tool_name := get_or (b_name b) (Some "tool") in
        announce (get_tool_status [tool_name])
      else if is_str block_type "server_tool_result" then clear_status
      else if is_str block_type "code_interpreter_call" then code_interpreter_block b
      else if is_str block_type "image" then image_block b
      else skip
  | BObj b =>
      match bo_text b with
      | Some text => if PyStr.truthy text then yield_chunk text else skip
      | None =>
          if is_str (bo_type b) "image" then
            let b64 := get_or (bo_base64 b) (get_or (bo_data b) "") in
            if PyStr.truthy b64 then
              yield_image {| base64 := JStr b64; format := JStr (get_or (bo_format b) "png") |}
            else skip
          else skip
      end
  end.

(** ** One iteration of the loop, and the generator *)

(** The loop body either ends (also by [continue]) or raises, in both cases
    after yielding some records. *)
Inductive Outcome : Type :=
| Continue (st : State) (out : list OutRec)
| Raise (e : PyExn) (out : list OutRec).

Definition finish (r : State * list OutRec) : Outcome :=
  let (st, out) := r in Continue st out.

(** The records [out] were yielded before [o] was reached. *)
Definition prepend (out : list OutRec) (o : Outcome) : Outcome :=
  match o with
  | Continue st out' => Continue st (out ++ out')
  | Raise e out' => Raise e (out ++ out')
  end.

(** The text [type_image_marker] is the Python literal written with single
    quotes at line 537: the key [type], a colon, a space and the value
    [image], both in double quotes (character 34). *)
Definition dq (s : string) : string := String "034" (s ++ String "034" "")%string.

Definition type_image_marker : string := (dq "type" ++ ": " ++ dq "image")%string.

(** Images carried by a tool result (lines 270-291).  The [except] clause
    catches [JSONDecodeError] only: any other exception of [json.loads]
    leaves the generator. *)
Definition tool_result `{interp : Interp} (token : Token) (st : State) : Outcome :=
  match content token with
  | Some (ContentStr tool_content) =>
      if PyStr.truthy tool_content
         && PyStr.contains "base64" tool_content
         && (PyStr.contains "image" tool_content || PyStr.contains "png" tool_content)
      then
        match Json.loads tool_content with
        | Returns (JDict tool_data) =>
            if json_is_str (PyDict.get tool_data "type") "image" then
              finish (yield_image
                        {| base64 := PyDict.get_default tool_data "base64" (JStr "");
                           format := PyDict.get_default tool_data "format" (JStr "png") |}
                        st)
            else Continue st []
        | Returns _ => Continue st []
        | Raises JSONDecodeError => Continue st []
        | Raises e => Raise e []
        end
      else Continue st []
  | _ => Continue st []
  end.

(** String content (lines 535-551), with the same [except] clause. *)
Definition str_content `{interp : Interp} (content : string) (st : State) : Outcome :=
  if PyStr.startswith content "{" && PyStr.contains type_image_marker content then
    match Json.loads content with
    | Returns (JDict img_data) =>
        if json_is_str (PyDict.get img_data "type") "image" then
          finish (yield_image
                    {| base64 := PyDict.get_default img_data "base64" (JStr "");
                       format := PyDict.get_default img_data "format" (JStr "png") |} st)
        else finish (yield_chunk content st)
    | Returns _ => Raise AttributeError []   (* [img_data.get] on a value without it *)
    | Raises JSONDecodeError => finish (yield_chunk content st)
    | Raises e => Raise e []
    end
  else finish (yield_chunk content st).

Definition content_truthy (c : Content) : bool :=
  match c with
  | ContentStr s => PyStr.truthy s
  | ContentList blocks => match blocks with [] => false | _ :: _ => true end
  end.

Definition tool_call_name (tc : ToolCall) : pyname :=
  match tc with
  | TcDict name => get_or name (Some "tool")
  | TcObj name => get_or name (Some "tool")
  end.

Definition kw_tool_call_name (tc : KwToolCall) : pyname :=
  match tc with
  | KwDict function => get_or (get_or function None) (Some "tool")
  | KwObj name => get_or name (Some "tool")
  end.

Definition is_tool_message (t : option string) : bool :=
  is_str t "tool" || is_str t "function".

Definition kw_calls (token : Token) : option (list KwToolCall) :=
  match additional_kwargs token with
  | Some kw => kw_tool_calls kw
  | None => None
  end.

Definition process_token `{interp : Interp} (token : Token) (st : State) : Outcome :=
  if is_tool_message (msg_type token) then
    tool_result token st
  else if truthy_list (tool_calls token) then
    finish (announce (get_tool_status (map tool_call_name (get_or (tool_calls token) []))) st)
  else if truthy_list (kw_calls token) then
    finish (announce (get_tool_status (map kw_tool_call_name (get_or (kw_calls token) []))) st)
  else
    let (st1, out1) := clear_status st in
    match content token with
    | None => Continue st1 out1
    | Some c =>
        if negb (content_truthy c) then Continue st1 out1
        else
          let (st2, out2) := metadata_images token st1 in
          match c with
          | ContentList blocks =>
              let (st3, out3) := for_each blocks process_block st2 in
              Continue st3 (out1 ++ out2 ++ out3)
          | ContentStr s => prepend (out1 ++ out2) (str_content s st2)
          end
    end.

Fixpoint stream_loop `{interp : Interp} (chunks : list StreamItem) (st : State)
  : Outcome :=
  match chunks with
  | [] => Continue st []
  | chunk :: rest =>
      match process_token (token_of chunk) st with
      | Continue st1 out1 => prepend out1 (stream_loop rest st1)
      | Raise e out1 => Raise e out1
      end
  end.

(** The upstream source: the items it yields and how it ends, by exhaustion
    or by raising. *)
Record Upstream : Type := {
  chunks : list StreamItem;
  failure : option string
}.

(** What the consumer of the generator observes: the records written to the
    response body and the exception that ended the generator, if any. *)
Record StreamResult : Type := {
  written : list OutRec;
  raised : option PyExn
}.

Definition final_record (st : State) : OutRec :=
  OFinal (full_response st) "assistant" (images st) true.

(** The records the generator passes to [json.dumps], in order, and how its
    statements end, every yield taken to return. *)
Definition stream_records `{interp : Interp} (up : Upstream) : StreamResult :=
  match stream_loop (chunks up) initial with
  | Continue st out =>
      match failure up with
      | None => {| written := out ++ [final_record st]; raised := None |}
      | Some msg => {| written := out; raised := Some (UpstreamError msg) |}
      end
  | Raise e out => {| written := out; raised := Some e |}
  end.

(** The yields in order: each record is given to [json.dumps], and the first
    call that raises ends the generator with its exception, before the
    record is written. *)
Fixpoint sent `{interp : Interp} (out : list OutRec) : list OutRec * option PyExn :=
  match out with
  | [] => ([], None)
  | r :: rest =>
      match line_text r with
      | Raises e => ([], Some e)
      | Returns _ => let (w, e) := sent rest in (r :: w, e)
      end
  end.

Definition generate_stream `{interp : Interp} (up : Upstream) : StreamResult :=
  let r := stream_records up in
  match sent (written r) with
  | (w, Some e) => {| written := w; raised := Some e |}
  | (w, None) => {| written := w; raised := raised r |}
  end.

(** ** Reading the output as protocol events

    A record with the key [status] is a Status when its text is not empty and
    a StatusClear when it is; the Done event is the record with the keys
    [message], [role], [images] and [done] whose [role] is [assistant] and
    whose [done] is true. *)

Definition is_done (r : OutRec) : bool :=
  match r with
  | OFinal _ role _ done => String.eqb role "assistant" && done
  | _ => false
  end.

(** A record with the keys of the final record, whatever it holds. *)
Definition is_final (r : OutRec) : bool :=
  match r with OFinal _ _ _ _ => true | _ => false end.

Definition StatusClear : OutRec := OStatus "".

(** The texts of the chunks of [out], concatenated in order. *)
Fixpoint chunk_text (out : list OutRec) : string :=
  match out with
  | [] => ""
  | OChunk t :: rest => (t ++ chunk_text rest)%string
  | _ :: rest => chunk_text rest
  end.

(** The image records of [out], in order. *)
Fixpoint image_list (out : list OutRec) : list image_data :=
  match out with
  | [] => []
  | OImage img :: rest => img :: image_list rest
  | _ :: rest => image_list rest
  end.

(** Strict alternation of Status and StatusClear: starting with a status
    [active] or not, [track] follows the records and fails at a Status while
    one is active and at a StatusClear while none is. *)
Fixpoint track (active : bool) (out : list OutRec) : option bool :=
  match out with
  | [] => Some active
  | OStatus s :: rest =>
      if PyStr.truthy s
      then if active then None else track true rest
      else if active then track false rest else None
  | _ :: rest => track active rest
  end.

(** ** Invariants of the generator *)

(** No record of [out] has the keys of the final record; none is the Done
    event, then. *)
Definition no_done (out : list OutRec) : Prop :=
  forallb (fun r => negb (is_final r)) out = true.

(** Running from [st] to [st'] while writing [out]: the accumulators grew by
    exactly the chunks and images written, the flag follows the statuses, and
    no final record was written. *)
Record accounted (st : State) (out : list OutRec) (st' : State) : Prop := {
  acc_text : full_response st' = (full_response st ++ chunk_text out)%string;
  acc_images : images st' = images st ++ image_list out;
  acc_track : track (tool_in_progress st) out = Some (tool_in_progress st');
  acc_no_done : no_done out
}.

Definition sound (f : Step) : Prop :=
  forall st, accounted st (snd (f st)) (fst (f st)).

(** The same for an iteration that may raise: the records written before
    the exception are accounted for in the state it was raised in. *)
Definition tidy (st : State) (o : Outcome) : Prop :=
  match o with
  | Continue st' out => accounted st out st'
  | Raise _ out => exists st', accounted st out st'
  end.

(** A record whose image fields are strings, as they are in every record
    that is not built from a parsed text. *)
Definition flat_image (img : image_data) : bool :=
  match base64 img, format img with
  | JStr _, JStr _ => true
  | _, _ => false
  end.

Definition flat (r : OutRec) : bool :=
  match r with
  | OImage img => flat_image img
  | OFinal _ _ imgs _ => forallb flat_image imgs
  | _ => true
  end.

Definition not_a_status (r : OutRec) : Prop :=
  match r with OStatus _ => False | _ => True end.


(** ** What the protocol reads in an output and in a string

    The image records the protocol expects from one entry of the [outputs]
    of a [code_interpreter_call] block, and from a string content, written
    with [before] and [after] rather than with the generator's statements. *)

Module Spec.

(** A data URI: the payload is what follows the first comma; the format is
    what follows the first [image/] of the part before that comma, up to the
    next semicolon (or the next [image/]). *)
Definition data_uri_images (url : string) : list image_data :=
  if PyStr.contains "," url then
    [{| base64 := JStr (PyStr.after "," url);
        format :=
          JStr (PyStr.before ";"
                  (PyStr.before "image/"
                     (PyStr.after "image/" (PyStr.before "," url)))) |}]
  else [].

(** A direct payload, kept when it is not empty; the format defaults to
    [png]. *)
Definition direct_images (b64 : string) (fmt : option string) : list image_data :=
  if PyStr.truthy b64
  then [{| base64 := JStr b64; format := JStr (get_or fmt "png") |}]
  else [].

(** One entry of [outputs]: only an entry of type [image] yields a record. *)
Definition output_images (output : Output) : list image_data :=
  match output with
  | OutDict o =>
      if is_str (o_type o) "image" then
        if PyStr.startswith (get_or (o_url o) "") "data:image/"
        then data_uri_images (get_or (o_url o) "")
        else direct_images (get_or (o_base64 o) (get_or (o_data o) "")) (o_format o)
      else []
  | OutOther => []
  end.

(** A string content is read as an image when it starts with an opening
    brace, contains [type_image_marker], and parses to an object whose
    [type] is [image]. *)
Definition image_json `{interp : Interp} (s : string) : option image_data :=
  if PyStr.startswith s "{" && PyStr.contains type_image_marker s then
    match Json.loads s with
    | Returns (JDict d) =>
        if json_is_str (PyDict.get d "type") "image" then
          Some {| base64 := PyDict.get_default d "base64" (JStr "");
                  format := PyDict.get_default d "format" (JStr "png") |}
        else None
    | _ => None
    end
  else None.

(** The same test for the content of a tool result, which must contain
    [base64] and one of [image] and [png]. *)
Definition tool_image_json `{interp : Interp} (s : string) : option image_data :=
  if PyStr.truthy s
     && PyStr.contains "base64" s
     && (PyStr.contains "image" s || PyStr.contains "png" s) then
    match Json.loads s with
    | Returns (JDict d) =>
        if json_is_str (PyDict.get d "type") "image" then
          Some {| base64 := PyDict.get_default d "base64" (JStr "");
                  format := PyDict.get_default d "format" (JStr "png") |}
        else None
    | _ => None
    end
  else None.

End Spec.

(** [st] after [imgs] were appended to its images. *)
Definition add_images (st : State) (imgs : list image_data) : State :=
  {| full_response := full_response st;
     images := images st ++ imgs;
     tool_in_progress := tool_in_progress st |}.

(** A statement sequence that only appends and writes images. *)
Definition images_only (f : Step) : Prop :=
  forall st, exists imgs, f st = (add_images st imgs, map OImage imgs).

(** ** Sample inputs *)

Module Sample.

(** An interpreter for the examples: nine hundred nested lists and
    dictionaries, and a [float.__repr__] that is right on the floats of the
    examples, which all denote one half. *)
Definition cpython : Interp :=
  {| loads_depth := 900; dumps_depth := 900;
     float_repr := fun _ => "0.5"; dumps_depth_min := eq_refl |}.

(** An assistant message chunk with the given content and nothing else. *)
Definition ai_token (c : Content) : Token :=
  {| msg_type := Some "AIMessageChunk";
     tool_calls := Some [];
     additional_kwargs := Some {| kw_tool_calls := None |};
     content := Some c;
     response_metadata := Some (MetaDict None None) |}.

(** An assistant message chunk that calls the tool [name]. *)
Definition call_token (name : string) : Token :=
  {| msg_type := Some "AIMessageChunk";
     tool_calls := Some [TcDict (Some (Some name))];
     additional_kwargs := Some {| kw_tool_calls := None |};
     content := Some (ContentStr "");
     response_metadata := Some (MetaDict None None) |}.

(** A tool message with the given content. *)
Definition tool_token (s : string) : Token :=
  {| msg_type := Some "tool";
     tool_calls := None;
     additional_kwargs := Some {| kw_tool_calls := None |};
     content := Some (ContentStr s);
     response_metadata := Some (MetaDict None None) |}.

(** An output of type [image] with a data URI. *)
Definition url_output (url : string) : Output :=
  OutDict {| o_type := Some "image"; o_url := Some url; o_base64 := None;
             o_data := None; o_format := None; o_files := None |}.

(** An output of type [files] with one PNG file. *)
Definition files_output : Output :=
  OutDict {| o_type := Some "files"; o_url := None; o_base64 := None;
             o_data := None; o_format := None;
             o_files := Some [{| file_data := Some "QUJD";
                                 mime_type := Some "image/png" |}] |}.

Definition typed_block (t : string) : BlockDict :=
  {| b_type := Some t; b_text := None; b_name := None; b_outputs := None;
     b_url := None; b_base64 := None; b_format := None |}.

(** A [code_interpreter_call] block with the given outputs. *)
Definition code_block (outs : list Output) : BlockDict :=
  {| b_type := Some "code_interpreter_call"; b_text := None; b_name := None;
     b_outputs := Some outs; b_url := None; b_base64 := None; b_format := None |}.

(** An assistant chunk with empty content whose response metadata carries
    an image. *)
Definition metadata_only_token : Token :=
  {| msg_type := Some "AIMessageChunk";
     tool_calls := Some [];
     additional_kwargs := Some {| kw_tool_calls := None |};
     content := Some (ContentStr "");
     response_metadata :=
       Some (MetaDict (Some (Some [files_output])) None) |}.

(** The object with type [image] as [json.dumps] writes it with its default
    separators, and written compactly. *)
Definition image_json_text : string :=
  ("{" ++ dq "type" ++ ": " ++ dq "image" ++ ", "
       ++ dq "base64" ++ ": " ++ dq "QUJD" ++ "}")%string.

Definition compact_image_json_text : string :=
  ("{" ++ dq "type" ++ ":" ++ dq "image" ++ ","
       ++ dq "base64" ++ ":" ++ dq "QUJD" ++ "}")%string.

Definition st_active : State :=
  {| full_response := ""; images := []; tool_in_progress := true |}.

(** [c * n]. *)
Fixpoint replicate (n : nat) (c : ascii) : string :=
  match n with
  | O => ""
  | S n' => String c (replicate n' c)
  end.

(** An image object whose [base64] is an integer of 4301 digits, written
    with the default separators. *)
Definition huge_int_json_text : string :=
  ("{" ++ dq "type" ++ ": " ++ dq "image" ++ ", "
       ++ dq "base64" ++ ": " ++ replicate 4301 "1" ++ "}")%string.

End Sample.

(** ** Further readings of the generator's output *)

(** The records an outcome wrote. *)
Definition outcome_out (o : Outcome) : list OutRec :=
  match o with
  | Continue _ out => out
  | Raise _ out => out
  end.

(** The texts of the chunks of [out], one by one. *)
Fixpoint chunk_list (out : list OutRec) : list string :=
  match out with
  | [] => []
  | OChunk t :: rest => t :: chunk_list rest
  | _ :: rest => chunk_list rest
  end.

(** What one event contributes to the text and to the images, computed on
    its own, from the initial state. *)
Definition event_text `{interp : Interp} (token : Token) : string :=
  chunk_text (outcome_out (process_token token initial)).

Definition event_images `{interp : Interp} (token : Token) : list image_data :=
  image_list (outcome_out (process_token token initial)).

(** A statement sequence whose chunks and images do not depend on the
    state it starts from. *)
Definition stateless (f : Step) : Prop :=
  forall st st',
    chunk_list (snd (f st)) = chunk_list (snd (f st'))
    /\ image_list (snd (f st)) = image_list (snd (f st')).

(** No chunk of [out] is empty. *)
Definition chunks_nonempty (out : list OutRec) : Prop :=
  Forall (fun t => t <> "") (chunk_list out).


(** An event that declares tool calls, in [tool_calls] or in
    [additional_kwargs]. *)
Definition declares_tool_calls (token : Token) : bool :=
  truthy_list (tool_calls token) || truthy_list (kw_calls token).

(** The text of an event that is a plain piece of assistant text: no tool
    message, no tool call, no outputs in the response metadata, and a string
    content that does not start with an opening brace. *)
Definition plain_text (token : Token) : option string :=
  if is_tool_message (msg_type token) || declares_tool_calls token then None
  else
    match response_metadata token, content token with
    | None, Some (ContentStr s) | Some MetaOther, Some (ContentStr s) =>
        if PyStr.startswith s "{" then None else Some s
    | Some (MetaDict cic top), Some (ContentStr s) =>
        match metadata_outputs (MetaDict cic top) with
        | [] => if PyStr.startswith s "{" then None else Some s
        | _ :: _ => None
        end
    | _, _ => None
    end.

(** The data URI of a payload in a format: [data:image/<format>;base64,<payload>]. *)
Definition data_uri (fmt payload : string) : string :=
  ("data:image/" ++ fmt ++ ";base64," ++ payload)%string.

(** [str.join] with the empty separator: the texts of [l], concatenated. *)
Fixpoint join (l : list string) : string :=
  match l with
  | [] => ""
  | s :: rest => (s ++ join rest)%string
  end.

(** Every statement sequence built from [f]-like pieces writes records that
    satisfy [P]. *)
Definition writes (P : list OutRec -> Prop) (f : Step) : Prop :=
  forall st, P (snd (f st)).


(** ** More sample inputs *)

Module Inputs.

(** An assistant chunk that calls [generate_image] and also carries text. *)
Definition chatty_call_token : Token :=
  {| msg_type := Some "AIMessageChunk";
     tool_calls := Some [TcDict (Some (Some "generate_image"))];
     additional_kwargs := None;
     content := Some (ContentStr "dropped text");
     response_metadata := None |}.

End Inputs.

Module Inputs2.

(** A [dict] block of type [image] holding a data URI. *)
Definition image_url_block (url : string) : BlockDict :=
  {| b_type := Some "image"; b_text := None; b_name := None; b_outputs := None;
     b_url := Some url; b_base64 := None; b_format := None |}.

(** An object block of type [image] that holds its payload under [data]. *)
Definition image_data_object (payload : string) : BlockObj :=
  {| bo_text := None; bo_type := Some "image"; bo_base64 := None;
     bo_data := Some payload; bo_format := None |}.

(** A [dict] block of type [text]. *)
Definition text_block (text : string) : Block :=
  BDict {| b_type := Some "text"; b_text := Some text; b_name := None;
           b_outputs := None; b_url := None; b_base64 := None; b_format := None |}.

End Inputs2.

(** ** The labels of [get_tool_status] *)

Definition fixed_labels : list string :=
  ["🔍 Searching products..."; "🔍 Querying database..."; "⏰ Getting current time...";
   "🎨 Generating image..."; "🔎 Searching the web..."; "💻 Running code..."].

(** ** Configuration read from the environment (lines 40-48)

    [os.getenv(name, default)] is an optional string: [None] when the
    variable is not set. *)

Module PyText.

(** [s.rstrip(c)] for one character [c]. *)
Fixpoint rstrip (s : string) (c : ascii) : string :=
  match s with
  | EmptyString => EmptyString
  | String x r =>
      match rstrip r c with
      | EmptyString => if Ascii.eqb x c then EmptyString else String x EmptyString
      | String y r' => String x (String y r')
      end
  end.

(** [s.endswith(suffix)]. *)
Fixpoint endswith (s suffix : string) : bool :=
  String.eqb s suffix ||
  match s with
  | EmptyString => false
  | String _ r => endswith r suffix
  end.

End PyText.

Definition openai_endpoint (env : option string) : string :=
  let endpoint := PyText.rstrip (get_or env "") "/" in
  if PyStr.truthy endpoint && negb (PyText.endswith endpoint "/openai/v1")
  then (endpoint ++ "/openai/v1")%string
  else endpoint.

Definition mcp_server_url (env : option string) : string :=
  let url := PyText.rstrip (get_or env "http://localhost:8000") "/" in
  if negb (PyText.endswith url "/mcp")
  then (url ++ "/mcp")%string
  else url.

(** ** The chat endpoint (lines 85-208 and 566-575)

    The request body has the shape its docstring gives: an optional
    [message] string and an optional [history] list whose entries are
    dictionaries that may lack [role] or [content].  What the endpoint gets
    from outside is given to the model as its inputs: the outcome of
    [request.json()] and the outcome of building the agent (credential,
    tools, model), either of which may raise. *)

Record HistoryEntry : Type := {
  h_role : option string;
  h_content : option string
}.

Record ChatRequest : Type := {
  req_message : option string;          (* [req_body.get("message")] *)
  req_history : option (list HistoryEntry)  (* [None]: the key is absent *)
}.

(** An entry of the [messages] list given to the agent. *)
Record Message : Type := {
  role : string;
  m_content : string
}.

(** The exceptions the [try] of the endpoint can see: a [ValueError] (also
    its subclass [JSONDecodeError]), the [KeyError] of a missing key, and
    any other exception. *)
Inductive Raised : Type :=
| ValueError (text : string)
| KeyError (key : string)
| OtherError (text : string).

(** [str(e)]: a [KeyError] shows the [repr] of its key. *)
Definition exn_str (e : Raised) : string :=
  match e with
  | ValueError text => text
  | KeyError key => ("'" ++ key ++ "'")%string
  | OtherError text => text
  end.

Inductive Response : Type :=
| JSONResponse (error : string) (status_code : nat)
| StreamingResponse (body : StreamResult) (media_type : string).

(** The two [except] clauses. *)
Definition error_response (e : Raised) : Response :=
  match e with
  | ValueError _ => JSONResponse (exn_str e) 400
  | _ => JSONResponse ("Internal server error: " ++ exn_str e)%string 500
  end.

(** The loop over [history] (lines 203-205); [msg["role"]] is read before
    [msg["content"]]. *)
Fixpoint history_messages (history : list HistoryEntry) : Raised + list Message :=
  match history with
  | [] => inr []
  | msg :: rest =>
      match h_role msg with
      | None => inl (KeyError "role")
      | Some r =>
          match h_content msg with
          | None => inl (KeyError "content")
          | Some c =>
              match history_messages rest with
              | inl e => inl e
              | inr messages => inr ({| role := r; m_content := c |} :: messages)
              end
          end
      end
  end.

Definition build_messages (req : ChatRequest) (message : string)
  : Raised + list Message :=
  match history_messages (get_or (req_history req) []) with
  | inl e => inl e
  | inr messages => inr (messages ++ [{| role := "user"; m_content := message |}])
  end.

(** [chat_endpoint]: [body] is the outcome of [await request.json()],
    [setup] the outcome of lines 104-197, which end with the agent; the
    agent maps the messages to the upstream source [agent.astream] gives. *)
Definition chat_endpoint `{interp : Interp}
           (body : Raised + ChatRequest)
           (setup : Raised + (list Message -> Upstream)) : Response :=
  match body with
  | inl e => error_response e
  | inr req =>
      let message := get_or (req_message req) "" in
      if negb (PyStr.truthy message) then JSONResponse "message is required" 400
      else
        match setup with
        | inl e => error_response e
        | inr agent =>
            match build_messages req message with
            | inl e => error_response e
            | inr messages =>
                StreamingResponse (generate_stream (agent messages)) "application/json"
            end
        end
  end.

(** Every entry of the history has both keys. *)
Definition complete_entry (msg : HistoryEntry) : bool :=
  match h_role msg, h_content msg with
  | Some _, Some _ => true
  | _, _ => false
  end.

Definition status_of (r : Response) : option nat :=
  match r with
  | JSONResponse _ code => Some code
  | StreamingResponse _ _ => None
  end.

(** The message a complete history entry becomes. *)
Definition entry_message (msg : HistoryEntry) : Message :=
  {| role := get_or (h_role msg) ""; m_content := get_or (h_content msg) "" |}.

(** ** The image tool of local mode (lines 132-159)

    What [generate_image] returns for the content of the last message of
    the image agent: the dictionary of type [image] built from the first
    image block, or the dictionary of type [text] around [str(content)]. *)

Inductive ImageToolResult : Type :=
| ToolImage (base64 format : string)
| ToolText (content : Content).

Definition is_image_block (block : Block) : bool :=
  match block with
  | BDict b => is_str (b_type b) "image"
  | BObj o => is_str (bo_type o) "image"
  end.

(** The dictionary returned for an image block: [base64] and [format] with
    their defaults. *)
Definition image_block_result (block : Block) : ImageToolResult :=
  match block with
  | BDict b => ToolImage (get_or (b_base64 b) "") (get_or (b_format b) "png")
  | BObj o => ToolImage (get_or (bo_base64 o) "") (get_or (bo_format o) "png")
  end.

(** The loop of lines 144-156: the first image block returns. *)
Fixpoint first_image (blocks : list Block) : option ImageToolResult :=
  match blocks with
  | [] => None
  | block :: rest =>
      if is_image_block block then Some (image_block_result block)
      else first_image rest
  end.

Definition generate_image (content : Content) : ImageToolResult :=
  match content with
  | ContentList blocks =>
      match first_image blocks with
      | Some result => result
      | None => ToolText content
      end
  | ContentStr _ => ToolText content
  end.

(** Every character of [s] satisfies [p]. *)
Fixpoint all_chars (p : ascii -> bool) (s : string) : bool :=
  match s with
  | EmptyString => true
  | String c r => p c && all_chars p r
  end.

(** A printable ASCII character: space to tilde. *)
Definition printable (c : ascii) : bool :=
  (32 <=? N_of_ascii c)%N && (N_of_ascii c <=? 126)%N.

(** What may follow a value inside a document: nothing, or the separator or
    closing bracket of the enclosing list or dictionary. *)
Definition delimited (rest : string) : bool :=
  match rest with
  | EmptyString => true
  | String c _ => Ascii.eqb c "," || Ascii.eqb c "]" || Ascii.eqb c "}"
  end.

Fixpoint distinct (keys : list string) : bool :=
  match keys with
  | [] => true
  | k :: rest => negb (existsb (String.eqb k) rest) && distinct rest
  end.

(** A value without floats whose strings are texts of Unicode scalar
    values and whose integers have no more than [int_max_str_digits]
    digits; the keys of a dictionary are distinct, as they are in a Python
    [dict]. *)
Fixpoint plain (v : json) : bool :=
  match v with
  | JNull | JBool _ => true
  | JInt z => (Json.digit_count (Dumps.decimal z) <=? int_max_str_digits)%nat
  | JFloat _ => false
  | JStr s => Utf8.valid_text s
  | JList items => forallb plain items
  | JDict pairs =>
      forallb (fun kv => Utf8.valid_text (fst kv) && plain (snd kv)) pairs
      && distinct (map fst pairs)
  end.

(** The body of the response: the lines of the records written, each with
    its newline. *)
Fixpoint response_body `{interp : Interp} (out : list OutRec) : string :=
  match out with
  | [] => ""
  | r :: rest =>
      match line_text r with
      | Returns text => (text ++ String "010" "" ++ response_body rest)%string
      | Raises _ => ""
      end
  end.

(** The documents of the records of [out], up to the first that
    [json.dumps] does not write. *)
Fixpoint documents `{interp : Interp} (out : list OutRec) : list string :=
  match out with
  | [] => []
  | r :: rest =>
      match line_text r with
      | Returns text => text :: documents rest
      | Raises _ => []
      end
  end.

(** The number of lists and dictionaries nested in a value. *)
Fixpoint nesting (v : json) : nat :=
  match v with
  | JList items => S (fold_right Nat.max 0 (map nesting items))
  | JDict pairs => S (fold_right Nat.max 0 (map (fun kv => nesting (snd kv)) pairs))
  | _ => 0
  end.

Definition plain_image (img : image_data) : bool :=
  plain (base64 img) && plain (format img).

(** A record whose texts are texts of Unicode scalar values and whose image
    fields are plain values. *)
Definition plain_record (r : OutRec) : bool :=
  match r with
  | OChunk text => Utf8.valid_text text
  | OStatus status_msg => Utf8.valid_text status_msg
  | OImage img => plain_image img
  | OFinal message role_ imgs _ =>
      Utf8.valid_text message && Utf8.valid_text role_ && forallb plain_image imgs
  end.

(** Induction over values: the items of a list and the values of a
    dictionary satisfy the property. *)
Section JsonInduction.

Variable P : json -> Prop.
Hypothesis Hnull : P JNull.
Hypothesis Hbool : forall b, P (JBool b).
Hypothesis Hint : forall z, P (JInt z).
Hypothesis Hfloat : forall lexeme, P (JFloat lexeme).
Hypothesis Hstr : forall s, P (JStr s).
Hypothesis Hlist : forall items, Forall P items -> P (JList items).
Hypothesis Hdict : forall pairs, Forall (fun kv => P (snd kv)) pairs -> P (JDict pairs).

Fixpoint json_nested_ind (v : json) : P v :=
  match v with
  | JNull => Hnull
  | JBool b => Hbool b
  | JInt z => Hint z
  | JFloat lexeme => Hfloat lexeme
  | JStr s => Hstr s
  | JList items =>
      Hlist items
        ((fix go (l : list json) : Forall P l :=
            match l with
            | [] => Forall_nil P
            | x :: r => Forall_cons x (json_nested_ind x) (go r)
            end) items)
  | JDict pairs =>
      Hdict pairs
        ((fix go (l : list (string * json)) : Forall (fun kv => P (snd kv)) l :=
            match l with
            | [] => Forall_nil _
            | (k, x) :: r =>
                Forall_cons (P := fun kv => P (snd kv)) (k, x) (json_nested_ind x) (go r)
            end) pairs)
  end.

End JsonInduction.

(** The text the encoder writes for [v] when it raises nothing
    ([encode_obj_text] below). *)
Fixpoint value_text `{interp : Interp} (v : json) : string :=
  match v with
  | JNull => "null"
  | JBool true => "true"
  | JBool false => "false"
  | JInt z => Dumps.decimal z
  | JFloat lexeme => float_repr lexeme
  | JStr s => Dumps.encode_basestring_ascii s
  | JList items => ("[" ++ Dumps.join_items (map value_text items) ++ "]")%string
  | JDict pairs =>
      ("{" ++ Dumps.join_items
                (map (fun kv => (Dumps.encode_basestring_ascii (fst kv) ++ ": "
                                 ++ value_text (snd kv))%string) pairs)
           ++ "}")%string
  end.

(** The text of a dictionary member, and the same after the opening quote
    of its key. *)
Definition member_text `{interp : Interp} (kv : string * json) : string :=
  (Dumps.encode_basestring_ascii (fst kv) ++ ": " ++ value_text (snd kv))%string.

Definition member_tail `{interp : Interp} (kv : string * json) : string :=
  (Dumps.escape (Utf8.decode (fst kv))
   ++ String "034" (": " ++ value_text (snd kv)))%string.

(** The scanner reads the text of [v] back as [v], whatever delimiter
    follows it, with the budget [json.loads] gives it and a limit that the
    nesting of [v] does not exceed. *)
Definition reads_back `{interp : Interp} (v : json) : Prop :=
  plain v = true ->
  forall fuel limit rest,
    2 * String.length (value_text v) + 1 <= fuel ->
    nesting v <= limit ->
    delimited rest = true ->
    Json.scan_once fuel limit (value_text v ++ rest) = Json.POk v rest.

Module Inputs3.

(** A nested value and a final record. *)
Definition nested : json :=
  JDict [("n", JList [JInt (-120); JInt 0; JNull; JStr "a/b é 😀"]);
         ("ok", JBool true); ("", JDict [])].

Definition picture : image_data :=
  {| base64 := JStr "aGk="; format := JStr "png" |}.

Definition final : OutRec := OFinal "Done ✅" "assistant" [picture] true.

End Inputs3.

(** * The MCP server: [validate_sql_query]

    The query is a Python [str], here the list of its code points: the
    function strips Unicode white space and compares upper-cased text. *)

Module PyUni.

Definition ustr := list N.

(** The code points of an ASCII literal. *)
Fixpoint text (s : string) : ustr :=
  match s with
  | EmptyString => []
  | String c r => N_of_ascii c :: text r
  end.

Fixpoint untext (u : ustr) : string :=
  match u with
  | [] => ""
  | c :: r => String (ascii_of_N c) (untext r)
  end.

Definition between (lo hi c : N) : bool := (lo <=? c)%N && (c <=? hi)%N.

(** [str.isspace] of one character. *)
Definition isspace (c : N) : bool :=
  between 9 13 c || between 28 32 c || (c =? 133)%N || (c =? 160)%N
  || (c =? 5760)%N || between 8192 8202 c || (c =? 8232)%N || (c =? 8233)%N
  || (c =? 8239)%N || (c =? 8287)%N || (c =? 12288)%N.

Fixpoint lstrip (s : ustr) : ustr :=
  match s with
  | [] => []
  | c :: r => if isspace c then lstrip r else s
  end.

Definition rstrip (s : ustr) : ustr := rev (lstrip (rev s)).

(** [s.strip()]. *)
Definition strip (s : ustr) : ustr := rstrip (lstrip s).

(** [str.upper] of one character.  The characters listed are all those whose
    upper case contains an ASCII character; any other character outside
    ASCII is left as it is, its upper case being again without ASCII
    characters, which is all the tests of [validate_sql_query] look at. *)
Definition upper_cp (c : N) : ustr :=
  if between 97 122 c then [(c - 32)%N]
  else if (c =? 223)%N then [83%N; 83%N]          (* sharp s *)
  else if (c =? 305)%N then [73%N]              (* dotless i *)
  else if (c =? 329)%N then [700%N; 78%N]
  else if (c =? 383)%N then [83%N]              (* long s *)
  else if (c =? 496)%N then [74%N; 780%N]
  else if (c =? 7830)%N then [72%N; 817%N]
  else if (c =? 7831)%N then [84%N; 776%N]
  else if (c =? 7832)%N then [87%N; 778%N]
  else if (c =? 7833)%N then [89%N; 778%N]
  else if (c =? 7834)%N then [65%N; 702%N]
  else if (c =? 64256)%N then [70%N; 70%N]        (* ligatures ff, fi, fl, ffi, ffl, st *)
  else if (c =? 64257)%N then [70%N; 73%N]
  else if (c =? 64258)%N then [70%N; 76%N]
  else if (c =? 64259)%N then [70%N; 70%N; 73%N]
  else if (c =? 64260)%N then [70%N; 70%N; 76%N]
  else if (c =? 64261)%N then [83%N; 84%N]
  else if (c =? 64262)%N then [83%N; 84%N]
  else [c].

Definition upper (s : ustr) : ustr := flat_map upper_cp s.

Fixpoint startswith (s p : ustr) {struct p} : bool :=
  match p with
  | [] => true
  | a :: p' =>
      match s with
      | [] => false
      | b :: s' => (a =? b)%N && startswith s' p'
      end
  end.

(** [p in s]. *)
Fixpoint contains (p s : ustr) : bool :=
  startswith s p ||
  match s with
  | [] => false
  | _ :: r => contains p r
  end.

(** [s.endswith(c)] for a one-character [c]. *)
Definition endswith_char (s : ustr) (c : N) : bool :=
  match rev s with
  | [] => false
  | x :: _ => (x =? c)%N
  end.

End PyUni.

Inductive Validation : Type :=
| Valid                          (* the function returns *)
| ToolError (message : string).  (* it raises [ToolError(message)] *)

Definition dangerous_patterns : list string :=
  ["--"; "/*"; "DROP "; "DELETE "; "INSERT "; "UPDATE "; "ALTER "; "CREATE ";
   "TRUNCATE "; "GRANT "; "REVOKE "; "EXEC "; "EXECUTE "].

(** The first pattern of the list found in the text, as the loop finds it. *)
Fixpoint first_pattern (patterns : list string) (u : PyUni.ustr) : option string :=
  match patterns with
  | [] => None
  | pattern :: rest =>
      if PyUni.contains (PyUni.text pattern) u then Some pattern
      else first_pattern rest u
  end.

Definition semicolon : N := 59%N.

(** The query without outer white space and without one trailing
    semicolon. *)
Definition normalize (query : PyUni.ustr) : PyUni.ustr :=
  let normalized := PyUni.strip query in
  if PyUni.endswith_char normalized semicolon
  then PyUni.strip (removelast normalized)
  else normalized.

Definition validate_sql_query (query : PyUni.ustr) : Validation :=
  let normalized := normalize query in
  let normalized_upper := PyUni.upper normalized in
  if negb (PyUni.startswith normalized_upper (PyUni.text "SELECT"))
  then ToolError "Only SELECT queries are allowed"
  else if PyUni.contains [semicolon] normalized
  then ToolError "Multiple SQL statements are not allowed"
  else
    match first_pattern dangerous_patterns normalized_upper with
    | Some pattern =>
        ToolError ("Query contains forbidden pattern: "
                   ++ PyUni.untext (PyUni.strip (PyUni.text pattern)))
    | None => Valid
    end.

(** A character that does not occur in [p]. *)
Definition foreign (p : PyUni.ustr) (c : N) : bool := negb (existsb (N.eqb c) p).

(** Two characters that differ at most in the case of an ASCII letter. *)
Definition same_letter (c d : N) : Prop :=
  c = d
  \/ (PyUni.between 97 122 c = true /\ d = (c - 32)%N)
  \/ (PyUni.between 97 122 d = true /\ c = (d - 32)%N).

Module Queries.

Definition listing : PyUni.ustr := PyUni.text "select name from retail.products".

Definition shouting : PyUni.ustr := PyUni.text "SELECT NAME FROM RETAIL.PRODUCTS".

Definition padding : PyUni.ustr := [32; 10; 160; 12288]%N.

End Queries.

(** A character that is neither white space nor a semicolon. *)
Definition solid (c : N) : bool := negb (PyUni.isspace c) && negb (c =? semicolon)%N.

(** * Properties *)

(** ** The model on small inputs *)

Example loads_image_object :
  Json.loads (interp := Sample.cpython) Sample.image_json_text
  = Returns (JDict [("type", JStr "image"); ("base64", JStr "QUJD")]).
Proof. vm_compute. reflexivity. Qed.

Example loads_last_value_wins :
  Json.loads (interp := Sample.cpython)
             ("{" ++ dq "a" ++ ": 1, " ++ dq "b" ++ ": [true, null], "
                  ++ dq "a" ++ ": -2.5e3}")%string
  = Returns (JDict [("a", JFloat "-2.5e3"); ("b", JList [JBool true; JNull])]).
Proof. vm_compute. reflexivity. Qed.

Example loads_malformed :
  Json.loads (interp := Sample.cpython) "{not valid" = Raises JSONDecodeError.
Proof. vm_compute. reflexivity. Qed.

Example loads_trailing_comma :
  Json.loads (interp := Sample.cpython) "[1, 2,]" = Raises JSONDecodeError.
Proof. vm_compute. reflexivity. Qed.

(** An integer of 4300 digits is read, one of 4301 digits is a
    [ValueError], also when the text is malformed further on; a float takes
    any number of digits. *)
Example loads_digit_limit :
  Json.loads (interp := Sample.cpython) (Sample.replicate 4300 "1")
  = Returns (JInt (Json.int_value (Sample.replicate 4300 "1")))
  /\ Json.loads (interp := Sample.cpython) (Sample.replicate 4301 "1")
     = Raises IntValueError
  /\ Json.loads (interp := Sample.cpython) ("[-" ++ Sample.replicate 4301 "1" ++ ", }")
     = Raises IntValueError
  /\ Json.loads (interp := Sample.cpython) (Sample.replicate 4301 "1" ++ ".0")
     = Returns (JFloat (Sample.replicate 4301 "1" ++ ".0")).
Proof. vm_compute. repeat split. Qed.

(** Nine hundred nested lists are read by the interpreter of the examples,
    and one more is a [RecursionError], raised at the bracket that is too
    deep. *)
Example loads_depth_limit :
  Json.loads (interp := Sample.cpython)
             (Sample.replicate 900 "[" ++ Sample.replicate 900 "]")
  <> Raises RecursionError
  /\ Json.loads (interp := Sample.cpython) (Sample.replicate 901 "[")
     = Raises RecursionError
  /\ Json.loads (interp := Sample.cpython) (Sample.replicate 900 "[")
     = Raises JSONDecodeError.
Proof. vm_compute. repeat split. discriminate. Qed.

Example split_mime :
  PyStr.split "data:image/jpeg;base64" "image/" = ["data:"; "jpeg;base64"].
Proof. reflexivity. Qed.

Example classify_none_name : get_tool_status [None] = "⚙️ Using None...".
Proof. reflexivity. Qed.

(** A plain string with no tool activity is one chunk and the Done event. *)
Example stream_hello :
  generate_stream (interp := Sample.cpython)
    {| chunks := [ItemBare (Sample.ai_token (ContentStr "hello"))]; failure := None |}
  = {| written := [OChunk "hello"; OFinal "hello" "assistant" [] true];
       raised := None |}.
Proof. reflexivity. Qed.

(** A web search call and its result signal in one content list. *)
Example stream_web_search :
  written
    (generate_stream (interp := Sample.cpython)
       {| chunks :=
            [ItemBare
               (Sample.ai_token
                  (ContentList
                     [BDict {| b_type := Some "server_tool_call"; b_text := None;
                               b_name := Some (Some "web_search"); b_outputs := None;
                               b_url := None; b_base64 := None; b_format := None |};
                      BDict (Sample.typed_block "server_tool_result")]))];
          failure := None |})
  = [OStatus "🔎 Searching the web..."; StatusClear; OFinal "" "assistant" [] true].
Proof. reflexivity. Qed.

(** ** Concatenation of strings *)

Lemma string_app_assoc (a b c : string) : ((a ++ b) ++ c = a ++ (b ++ c))%string.
Proof. induction a as [|x a IH]; simpl; [reflexivity|now rewrite IH]. Qed.

Lemma string_app_nil_r (a : string) : (a ++ "")%string = a.
Proof. induction a as [|x a IH]; simpl; [reflexivity|now rewrite IH]. Qed.

(** ** [str.split] in terms of the text before and after a separator *)

Module PyStrFacts.
Import PyStr.

Lemma prefix_strip (p s : string) :
  is_prefix p s = true ->
  exists t, strip_prefix p s = Some t /\ s = (p ++ t)%string.
Proof.
  revert s; induction p as [|a p IH]; intros s; simpl.
  - intros _. exists s. split; reflexivity.
  - destruct s as [|b s]; [discriminate|].
    destruct (Ascii.eqb a b) eqn:E; [|discriminate].
    apply Ascii.eqb_eq in E. subst. simpl. intros H.
    destruct (IH _ H) as (t & Et & ->). exists t. split; [exact Et|reflexivity].
Qed.

Lemma prefix_strip_none (p s : string) :
  is_prefix p s = false -> strip_prefix p s = None.
Proof.
  revert s; induction p as [|a p IH]; intros s; simpl; [discriminate|].
  destruct s as [|b s]; [reflexivity|].
  destruct (Ascii.eqb a b); simpl; [apply IH|reflexivity].
Qed.

Lemma rev_string_acc (acc s : string) :
  rev_string acc s = (rev_string "" s ++ acc)%string.
Proof.
  revert acc; induction s as [|c r IH]; intros acc; simpl; [reflexivity|].
  rewrite (IH (String c acc)), (IH (String c "")), string_app_assoc. reflexivity.
Qed.

Lemma split_go_skip (sep p t cur : string) :
  split_go sep (p ++ t) (String.length p) cur = split_go sep t 0 cur.
Proof. induction p as [|x p IH]; simpl; [reflexivity|exact IH]. Qed.

Lemma split_go_hd (sep s cur : string) :
  hd "" (split_go sep s 0 cur) = (rev_string "" cur ++ before sep s)%string.
Proof.
  revert cur; induction s as [|c r IH]; intros cur.
  - simpl. destruct sep; simpl; induction (rev_string "" cur); simpl; congruence.
  - cbn [split_go before].
    destruct (is_prefix sep (String c r)); simpl.
    + induction (rev_string "" cur); simpl; congruence.
    + rewrite IH. simpl. rewrite (rev_string_acc (String c "")), string_app_assoc.
      reflexivity.
Qed.

(** [s.split(sep)] is never empty, and has a second item when [sep] occurs
    in [s]. *)
Lemma split_first (s sep : string) : exists a rest, split s sep = a :: rest.
Proof.
  unfold split. generalize 0 at 1. generalize "" at 1.
  induction s as [|c r IH]; intros cur k; simpl; [eauto|].
  destruct k; [|apply IH].
  destruct (is_prefix sep (String c r)); [eauto|apply IH].
Qed.

Lemma split_second (s sep : string) :
  contains sep s = true ->
  sep <> "" ->
  exists a b rest, split s sep = a :: b :: rest.
Proof.
  intros Hc Hs. unfold split. generalize "" at 1.
  induction s as [|c r IH]; intros cur.
  - destruct sep; [congruence|discriminate].
  - cbn [split_go]. simpl in Hc.
    destruct (is_prefix sep (String c r)) eqn:Hp.
    + destruct (split_go sep r (String.length sep - 1) "") as [|b rest] eqn:E; [|eauto].
      exfalso. clear - E. revert E. generalize (String.length sep - 1). generalize "" at 1.
      induction r as [|x r IH]; intros cur k; simpl; [discriminate|].
      destruct k; [|apply IH].
      destruct (is_prefix sep (String x r)); [discriminate|apply IH].
    + apply IH. exact Hc.
Qed.

(** [s.split(sep)[0]] is the text before the first [sep]. *)
Lemma split_hd (s sep : string) : hd "" (split s sep) = before sep s.
Proof. unfold split. rewrite split_go_hd. reflexivity. Qed.

Lemma nth0_hd (l : list string) : nth 0 l "" = hd "" l.
Proof. destruct l; reflexivity. Qed.

Lemma split_go_nth1 (sep s cur : string) :
  sep <> "" ->
  contains sep s = true ->
  nth 1 (split_go sep s 0 cur) "" = before sep (after sep s).
Proof.
  intros Hsep. revert cur; induction s as [|c r IH]; intros cur.
  - simpl. destruct sep; [congruence|discriminate].
  - cbn [split_go contains after].
    destruct (is_prefix sep (String c r)) eqn:Hp.
    + intros _. destruct (prefix_strip _ _ Hp) as (t & Es & Et). rewrite Es.
      destruct sep as [|a sep']; [congruence|].
      simpl in Et. inversion Et; subst.
      cbn [nth String.length].
      replace (S (String.length sep') - 1) with (String.length sep') by lia.
      rewrite nth0_hd.
      rewrite split_go_skip, split_go_hd. reflexivity.
    + rewrite (prefix_strip_none _ _ Hp). simpl. apply IH.
Qed.

(** [s.split(sep)[1]], when [sep] occurs in [s], is the text after its
    first occurrence, up to the next one. *)
Lemma split_nth1 (s sep : string) :
  sep <> "" ->
  contains sep s = true ->
  nth 1 (split s sep) "" = before sep (after sep s).
Proof. intros. unfold split. now apply split_go_nth1. Qed.

Lemma split1_some (s : string) (c : ascii) (a b : string) :
  split1 s c = Some (a, b) ->
  contains (String c "") s = true
  /\ a = before (String c "") s /\ b = after (String c "") s.
Proof.
  revert a b; induction s as [|x r IH]; intros a b; simpl; [discriminate|].
  rewrite (Ascii.eqb_sym c x).
  destruct (Ascii.eqb x c) eqn:E; simpl.
  - intros H; inversion H; subst. auto.
  - destruct (split1 r c) as [[a' b']|]; [|discriminate].
    intros H; inversion H; subst.
    destruct (IH _ _ eq_refl) as (Hc & -> & ->). auto.
Qed.

Lemma split1_none (s : string) (c : ascii) :
  split1 s c = None -> contains (String c "") s = false.
Proof.
  induction s as [|x r IH]; simpl; [reflexivity|].
  rewrite (Ascii.eqb_sym c x).
  destruct (Ascii.eqb x c) eqn:E; [discriminate|].
  destruct (split1 r c) as [[a' b']|]; [discriminate|].
  intros _. simpl. apply IH. reflexivity.
Qed.

End PyStrFacts.

(** ** The parser always has budget enough *)

Module JsonFacts.
Import Json.

Lemma skip_ws_le (s : string) : String.length (skip_ws s) <= String.length s.
Proof.
  induction s as [|c r IH]; simpl; [lia|].
  destruct (is_ws c); simpl; lia.
Qed.

Lemma cons_item_some i r l rest :
  cons_item i r = Some (l, rest) ->
  exists l', r = Some (l', rest) /\ l = i :: l'.
Proof.
  destruct r as [[l' rest']|]; simpl; [|discriminate].
  intros H; inversion H; subst; eauto.
Qed.

Lemma scan_items_lt_aux (n : nat) :
  forall s l rest,
    String.length s <= n ->
    scan_items s = Some (l, rest) ->
    String.length rest < String.length s.
Proof.
  induction n as [|n IH]; intros s l rest Hn H.
  - destruct s; simpl in *; [discriminate|lia].
  - destruct s as [|c r]; simpl in H; [discriminate|].
    simpl in Hn.
    destruct (Ascii.eqb c "034").
    { inversion H; subst; simpl; lia. }
    destruct (Ascii.eqb c "\").
    { destruct r as [|e r1]; [discriminate|].
      destruct (Ascii.eqb e "u").
      - destruct r1 as [|h1 [|h2 [|h3 [|h4 r5]]]]; try discriminate.
        destruct (hex4 h1 h2 h3 h4); [|discriminate].
        apply cons_item_some in H as (l' & H & _).
        apply IH in H; simpl in *; lia.
      - destruct (backslash e); [|discriminate].
        apply cons_item_some in H as (l' & H & _).
        apply IH in H; simpl in *; lia. }
    destruct (nat_of_ascii c <? 32)%nat; [discriminate|].
    apply cons_item_some in H as (l' & H & _).
    apply IH in H; simpl in *; lia.
Qed.

Lemma scanstring_lt s str rest :
  scanstring s = Some (str, rest) -> String.length rest < String.length s.
Proof.
  unfold scanstring.
  destruct (scan_items s) as [[l r]|] eqn:E; [|discriminate].
  intros H; inversion H; subst.
  eapply scan_items_lt_aux; eauto.
Qed.

Lemma span_digits_le s d rest :
  span_digits s = (d, rest) -> String.length rest <= String.length s.
Proof.
  revert d rest; induction s as [|c r IH]; simpl; intros d rest H.
  - inversion H; simpl; lia.
  - destruct (is_digit c).
    + destruct (span_digits r) as [d' rest'] eqn:E.
      inversion H; subst. specialize (IH _ _ eq_refl). lia.
    + inversion H; subst; simpl; lia.
Qed.

Lemma strip_prefix_length p s r :
  PyStr.strip_prefix p s = Some r -> String.length s = String.length p + String.length r.
Proof.
  revert s; induction p as [|a p IH]; simpl; intros s H.
  - inversion H; reflexivity.
  - destruct s as [|b s']; [discriminate|].
    destruct (Ascii.eqb a b); [|discriminate].
    simpl. rewrite (IH _ H). reflexivity.
Qed.

Lemma match_int_lt s i rest :
  match_int s = Some (i, rest) -> String.length rest < String.length s.
Proof.
  unfold match_int.
  destruct s as [|c r]; [discriminate|].
  destruct (Ascii.eqb c "-").
  - destruct r as [|c' r']; [discriminate|].
    destruct (Ascii.eqb c' "0"); [intros H; inversion H; subst; simpl; lia|].
    destruct (is_digit c'); [|discriminate].
    destruct (span_digits r') as [d rest'] eqn:E.
    intros H; inversion H; subst.
    apply span_digits_le in E; simpl; lia.
  - destruct (Ascii.eqb c "0"); [intros H; inversion H; subst; simpl; lia|].
    destruct (is_digit c); [|discriminate].
    destruct (span_digits r) as [d rest'] eqn:E.
    intros H; inversion H; subst.
    apply span_digits_le in E; simpl; lia.
Qed.

Lemma match_frac_le s f rest :
  match_frac s = (f, rest) -> String.length rest <= String.length s.
Proof.
  unfold match_frac.
  destruct s as [|c r]; [intros H; inversion H; simpl; lia|].
  destruct (Ascii.eqb c "."); [|intros H; inversion H; simpl; lia].
  destruct (span_digits r) as [[|d ds] rest'] eqn:E;
    intros H; inversion H; subst; [simpl; lia|].
  apply span_digits_le in E; simpl; lia.
Qed.

Lemma match_exp_le s e rest :
  match_exp s = (e, rest) -> String.length rest <= String.length s.
Proof.
  unfold match_exp.
  destruct s as [|c r]; [intros H; inversion H; simpl; lia|].
  destruct (Ascii.eqb c "e" || Ascii.eqb c "E"); [|intros H; inversion H; simpl; lia].
  destruct r as [|g r'].
  - simpl. intros H; inversion H; simpl; lia.
  - destruct (Ascii.eqb g "-" || Ascii.eqb g "+").
    + destruct (span_digits r') as [[|d ds] rest'] eqn:E;
        intros H; inversion H; subst; [simpl; lia|].
      apply span_digits_le in E; simpl; lia.
    + destruct (span_digits (String g r')) as [[|d ds] rest'] eqn:E;
        intros H; inversion H; subst; [simpl; lia|].
      apply span_digits_le in E; simpl in *; lia.
Qed.

Lemma match_number_lt s v rest :
  match_number s = Some (v, rest) -> String.length rest < String.length s.
Proof.
  unfold match_number.
  destruct (match_int s) as [[i r1]|] eqn:Ei; [|discriminate].
  destruct (match_frac r1) as [f r2] eqn:Ef.
  destruct (match_exp r2) as [e r3] eqn:Ee.
  apply match_int_lt in Ei. apply match_frac_le in Ef. apply match_exp_le in Ee.
  destruct f, e; intros H; inversion H; subst; lia.
Qed.

Lemma scan_atom_lt s v rest :
  scan_atom s = POk v rest -> String.length rest < String.length s.
Proof.
  unfold scan_atom.
  repeat match goal with
         | |- context [PyStr.strip_prefix ?p s] =>
             let E := fresh "E" in
             destruct (PyStr.strip_prefix p s) eqn:E;
             [apply strip_prefix_length in E; simpl in E;
              intros H; inversion H; subst; lia|]
         | |- context [match_number s] =>
             let E := fresh "E" in
             destruct (match_number s) as [[[?|?] ?]|] eqn:E;
             [apply match_number_lt in E; intros H; inversion H; subst; lia
             |discriminate|]
         end.
  discriminate.
Qed.

Lemma scan_atom_fuel s : scan_atom s <> PFuel.
Proof.
  unfold scan_atom.
  repeat match goal with
         | |- context [match ?x with _ => _ end] =>
             destruct x as [[[?|?] ?]|] || destruct x as [[? ?]|] || destruct x
         end; discriminate.
Qed.

Ltac ws_fact r E :=
  let H := fresh "Hws" in
  pose proof (skip_ws_le r) as H; rewrite E in H; simpl in H.

Lemma scan_facts (fuel : nat) :
  (forall depth s,
      Json.shorter s (scan_once fuel depth s)
      /\ (2 * String.length s + 1 <= fuel -> scan_once fuel depth s <> PFuel))
  /\ (forall depth s acc,
         Json.shorter s (object_members fuel depth s acc)
         /\ (2 * String.length s + 2 <= fuel ->
             object_members fuel depth s acc <> PFuel))
  /\ (forall depth s,
         Json.shorter s (array_items fuel depth s)
         /\ (2 * String.length s + 2 <= fuel -> array_items fuel depth s <> PFuel)).
Proof.
  induction fuel as [|f (IHv & IHo & IHa)].
  { repeat split; simpl; trivial; lia. }
  split; [|split].
  - (* scan_once *)
    intros depth s. destruct s as [|c r]; simpl; [split; [trivial|discriminate]|].
    destruct (Ascii.eqb c "034").
    { destruct (scanstring r) as [[str rest]|] eqn:E; simpl;
        [apply scanstring_lt in E|]; split; (lia || discriminate || trivial). }
    destruct (Ascii.eqb c "{").
    { destruct depth as [|depth]; [split; [exact I|discriminate]|].
      destruct (skip_ws r) as [|c1 r1] eqn:E; [split; [exact I|discriminate]|].
      ws_fact r E.
      destruct (Ascii.eqb c1 "}"); [split; simpl; [lia|discriminate]|].
      destruct (Ascii.eqb c1 "034"); [|split; [exact I|discriminate]].
      destruct (IHo depth r1 []) as [Hs Hf].
      destruct (object_members f depth r1 []) as [pairs rest| | |]; simpl in *;
        split; (lia || discriminate || trivial).
      intros Hlen. exfalso. apply Hf; [lia|reflexivity]. }
    destruct (Ascii.eqb c "[").
    { destruct depth as [|depth]; [split; [exact I|discriminate]|].
      destruct (skip_ws r) as [|c1 r1] eqn:E; [split; [exact I|discriminate]|].
      ws_fact r E.
      destruct (Ascii.eqb c1 "]"); [split; simpl; [lia|discriminate]|].
      destruct (IHa depth (String c1 r1)) as [Hs Hf].
      destruct (array_items f depth (String c1 r1)) as [items rest| | |]; simpl in *;
        split; (lia || discriminate || trivial).
      intros Hlen. exfalso. apply Hf; [lia|reflexivity]. }
    split; [|intros _; apply scan_atom_fuel].
    destruct (scan_atom (String c r)) as [v rest| | |] eqn:E; simpl; trivial.
    apply scan_atom_lt in E. exact E.
  - (* object_members *)
    intros depth s acc. simpl.
    destruct (scanstring s) as [[key r]|] eqn:Ek; [|split; [exact I|discriminate]].
    apply scanstring_lt in Ek.
    destruct (skip_ws r) as [|c r1] eqn:E1; [split; [exact I|discriminate]|].
    ws_fact r E1.
    destruct (Ascii.eqb c ":"); [|split; [exact I|discriminate]].
    pose proof (skip_ws_le r1) as Hr1.
    destruct (IHv depth (skip_ws r1)) as [Hs Hf].
    destruct (scan_once f depth (skip_ws r1)) as [v r2| | |]; simpl in Hs;
      [| split; [exact I|discriminate]
       | split; [exact I|discriminate]
       | split; [exact I|intros Hlen; exfalso; apply Hf; [lia|reflexivity]]].
    destruct (skip_ws r2) as [|c2 r3] eqn:E2; [split; [exact I|discriminate]|].
    ws_fact r2 E2.
    destruct (Ascii.eqb c2 "}"); [split; simpl; [lia|discriminate]|].
    destruct (Ascii.eqb c2 ","); [|split; [exact I|discriminate]].
    destruct (skip_ws r3) as [|c3 r4] eqn:E3; [split; [exact I|discriminate]|].
    ws_fact r3 E3.
    destruct (Ascii.eqb c3 "034"); [|split; [exact I|discriminate]].
    destruct (IHo depth r4 (PyDict.set acc key v)) as [Hs' Hf'].
    split.
    + destruct (object_members f depth r4 (PyDict.set acc key v)); simpl in *; trivial; lia.
    + intros Hlen. apply Hf'. lia.
  - (* array_items *)
    intros depth s. simpl.
    destruct (IHv depth s) as [Hs Hf].
    destruct (scan_once f depth s) as [v r| | |]; simpl in Hs;
      [| split; [exact I|discriminate]
       | split; [exact I|discriminate]
       | split; [exact I|intros Hlen; exfalso; apply Hf; [lia|reflexivity]]].
    destruct (skip_ws r) as [|c r1] eqn:E1; [split; [exact I|discriminate]|].
    ws_fact r E1.
    destruct (Ascii.eqb c "]"); [split; simpl; [lia|discriminate]|].
    destruct (Ascii.eqb c ","); [|split; [exact I|discriminate]].
    pose proof (skip_ws_le r1) as Hr1.
    destruct (IHa depth (skip_ws r1)) as [Hs' Hf'].
    destruct (array_items f depth (skip_ws r1)) as [items rest| | |]; simpl in *;
      split; (lia || discriminate || trivial).
    intros Hlen. exfalso. apply Hf'; [lia|reflexivity].
Qed.

(** [json.loads] never stops for lack of budget: it returns a value or
    raises an exception of Python. *)
Lemma loads_fuel_enough (depth : nat) (s : string) :
  loads_fuel (2 * String.length s + 1) depth s <> PFuel.
Proof.
  unfold loads_fuel.
  destruct (PyStr.is_prefix bom s); [discriminate|].
  pose proof (skip_ws_le s) as Hle.
  destruct (scan_facts (2 * String.length s + 1)) as (Hv & _ & _).
  destruct (Hv depth (skip_ws s)) as [_ Hf].
  destruct (scan_once (2 * String.length s + 1) depth (skip_ws s)) as [v rest| | |].
  - destruct (skip_ws rest); discriminate.
  - discriminate.
  - discriminate.
  - exfalso. apply Hf; [lia|reflexivity].
Qed.

Lemma prefix_cons (p : ascii) (s : string) :
  PyStr.is_prefix (String p "") s = true -> exists r, s = String p r.
Proof.
  destruct s as [|c r]; simpl; [discriminate|].
  destruct (Ascii.eqb p c) eqn:E; [|discriminate].
  apply Ascii.eqb_eq in E. subst. eauto.
Qed.

(** A text that starts with an opening brace parses to a [dict] or not at
    all. *)
Lemma scan_once_brace (fuel depth : nat) (r : string) (v : json) (rest : string) :
  scan_once fuel depth (String "{" r) = POk v rest -> exists d, v = JDict d.
Proof.
  destruct fuel as [|f]; [discriminate|].
  cbn [scan_once].
  change (Ascii.eqb "{" "034") with false.
  change (Ascii.eqb "{" "{") with true.
  cbv iota.
  destruct depth as [|depth]; [discriminate|].
  destruct (skip_ws r) as [|c1 r1]; [discriminate|].
  destruct (Ascii.eqb c1 "}"); [intros H; inversion H; eauto|].
  destruct (Ascii.eqb c1 "034"); [|discriminate].
  destruct (object_members f depth r1 []) as [pairs rest'| | |]; try discriminate.
  intros H; inversion H; eauto.
Qed.

(** A text that starts with an opening brace parses to a [dict] or not at
    all. *)
Lemma loads_brace `{interp : Interp} (s : string) (v : json) :
  PyStr.startswith s "{" = true ->
  loads s = Returns v ->
  exists d, v = JDict d.
Proof.
  unfold PyStr.startswith, loads, loads_fuel. intros Hp.
  apply prefix_cons in Hp as [r ->].
  destruct (PyStr.is_prefix bom (String "{" r)); [discriminate|].
  change (skip_ws (String "{" r)) with (String "{"%char r).
  destruct (scan_once _ _ (String "{" r)) as [v' rest| | |] eqn:E; try discriminate.
  apply scan_once_brace in E as [d ->].
  destruct (skip_ws rest); [|discriminate]. intros H; inversion H; eauto.
Qed.

(** [json.loads] raises [JSONDecodeError], the [ValueError] of a long
    integer or [RecursionError], and nothing else. *)
Lemma scan_raises (fuel : nat) :
  (forall depth s e, scan_once fuel depth s = PRaise e ->
                     e = IntValueError \/ e = RecursionError)
  /\ (forall depth s acc e, object_members fuel depth s acc = PRaise e ->
                            e = IntValueError \/ e = RecursionError)
  /\ (forall depth s e, array_items fuel depth s = PRaise e ->
                        e = IntValueError \/ e = RecursionError).
Proof.
  induction fuel as [|f (IHv & IHo & IHa)]; [repeat split; discriminate|].
  split; [|split].
  - intros depth s e. destruct s as [|c r]; cbn [scan_once]; [discriminate|].
    destruct (Ascii.eqb c "034").
    { destruct (scanstring r) as [[str rest]|]; discriminate. }
    destruct (Ascii.eqb c "{").
    { destruct depth as [|depth]; [intros H; inversion H; auto|].
      destruct (skip_ws r) as [|c1 r1]; [discriminate|].
      destruct (Ascii.eqb c1 "}"); [discriminate|].
      destruct (Ascii.eqb c1 "034"); [|discriminate].
      destruct (object_members f depth r1 []) as [pairs rest|  |e'|] eqn:E;
        try discriminate.
      intros H; inversion H; subst. eapply IHo; eauto. }
    destruct (Ascii.eqb c "[").
    { destruct depth as [|depth]; [intros H; inversion H; auto|].
      destruct (skip_ws r) as [|c1 r1]; [discriminate|].
      destruct (Ascii.eqb c1 "]"); [discriminate|].
      destruct (array_items f depth (String c1 r1)) as [items rest| |e'|] eqn:E;
        try discriminate.
      intros H; inversion H; subst. eapply IHa; eauto. }
    unfold scan_atom.
    destruct (PyStr.strip_prefix "null" _); [discriminate|].
    destruct (PyStr.strip_prefix "true" _); [discriminate|].
    destruct (PyStr.strip_prefix "false" _); [discriminate|].
    unfold match_number.
    destruct (match_int (String c r)) as [[i r1]|].
    + destruct (match_frac r1) as [fr r2]. destruct (match_exp r2) as [ex r3].
      unfold int_of_lexeme.
      destruct fr, ex; try discriminate.
      destruct (int_max_str_digits <? digit_count i)%nat; [|discriminate].
      intros H; inversion H; auto.
    + repeat match goal with
             | |- context [PyStr.strip_prefix ?p ?t] =>
                 destruct (PyStr.strip_prefix p t); [discriminate|]
             end.
      discriminate.
  - intros depth s acc e. cbn [object_members].
    destruct (scanstring s) as [[key r]|]; [|discriminate].
    destruct (skip_ws r) as [|c r1]; [discriminate|].
    destruct (Ascii.eqb c ":"); [|discriminate].
    destruct (scan_once f depth (skip_ws r1)) as [v r2| |e'|] eqn:E; try discriminate.
    + destruct (skip_ws r2) as [|c2 r3]; [discriminate|].
      destruct (Ascii.eqb c2 "}"); [discriminate|].
      destruct (Ascii.eqb c2 ","); [|discriminate].
      destruct (skip_ws r3) as [|c3 r4]; [discriminate|].
      destruct (Ascii.eqb c3 "034"); [|discriminate].
      apply IHo.
    + intros H; inversion H; subst. eapply IHv; eauto.
  - intros depth s e. cbn [array_items].
    destruct (scan_once f depth s) as [v r| |e'|] eqn:E; try discriminate.
    + destruct (skip_ws r) as [|c r1]; [discriminate|].
      destruct (Ascii.eqb c "]"); [discriminate|].
      destruct (Ascii.eqb c ","); [|discriminate].
      destruct (array_items f depth (skip_ws r1)) as [items rest| |e'|] eqn:E';
        try discriminate.
      intros H; inversion H; subst. eapply IHa; eauto.
    + intros H; inversion H; subst. eapply IHv; eauto.
Qed.

Lemma loads_raises `{interp : Interp} (s : string) (e : PyExn) :
  loads s = Raises e ->
  e = JSONDecodeError \/ e = IntValueError \/ e = RecursionError.
Proof.
  unfold loads, loads_fuel.
  destruct (PyStr.is_prefix bom s); [intros H; inversion H; auto|].
  destruct (scan_once _ _ (skip_ws s)) as [v rest| |e'|] eqn:E.
  - destruct (skip_ws rest); [discriminate|intros H; inversion H; auto].
  - intros H; inversion H; auto.
  - intros H; inversion H; subst. right.
    destruct (scan_raises (2 * String.length s + 1)) as (Hv & _ & _). eapply Hv; eauto.
  - intros H; inversion H; auto.
Qed.

End JsonFacts.

(** ** What every statement of the generator preserves *)

Lemma chunk_text_app (o1 o2 : list OutRec) :
  chunk_text (o1 ++ o2) = (chunk_text o1 ++ chunk_text o2)%string.
Proof.
  induction o1 as [|r o1 IH]; simpl; [reflexivity|].
  destruct r; simpl; rewrite IH; [now rewrite string_app_assoc|reflexivity..].
Qed.

Lemma image_list_app (o1 o2 : list OutRec) :
  image_list (o1 ++ o2) = image_list o1 ++ image_list o2.
Proof.
  induction o1 as [|r o1 IH]; simpl; [reflexivity|].
  destruct r; simpl; rewrite IH; reflexivity.
Qed.

Lemma track_app (a : bool) (o1 o2 : list OutRec) :
  track a (o1 ++ o2) =
  match track a o1 with Some b => track b o2 | None => None end.
Proof.
  revert a; induction o1 as [|r o1 IH]; intros a; simpl; [reflexivity|].
  destruct r; try apply IH.
  destruct (PyStr.truthy status), a; auto.
Qed.

Lemma accounted_nil (st : State) : accounted st [] st.
Proof.
  split; simpl; try reflexivity.
  - now rewrite string_app_nil_r.
  - now rewrite app_nil_r.
Qed.

Lemma accounted_app st o1 st1 o2 st2 :
  accounted st o1 st1 -> accounted st1 o2 st2 -> accounted st (o1 ++ o2) st2.
Proof.
  intros [T1 I1 K1 D1] [T2 I2 K2 D2]. split.
  - rewrite T2, T1, chunk_text_app, string_app_assoc. reflexivity.
  - rewrite I2, I1, image_list_app, app_assoc. reflexivity.
  - rewrite track_app, K1. exact K2.
  - unfold no_done in *. rewrite forallb_app, D1, D2. reflexivity.
Qed.

Lemma sound_skip : sound skip.
Proof. intros st. apply accounted_nil. Qed.

Lemma sound_seq (a b : Step) : sound a -> sound b -> sound (seq a b).
Proof.
  intros Ha Hb st. unfold seq.
  specialize (Ha st). destruct (a st) as [st1 o1].
  specialize (Hb st1). destruct (b st1) as [st2 o2].
  simpl in *. eapply accounted_app; eauto.
Qed.

Lemma sound_for_each {A : Type} (l : list A) (body : A -> Step) :
  (forall x, sound (body x)) -> sound (for_each l body).
Proof.
  intros Hb. induction l as [|x l IH]; simpl.
  - apply sound_skip.
  - apply sound_seq; auto.
Qed.

Lemma sound_yield_image (img : image_data) : sound (yield_image img).
Proof.
  intros st. split; simpl; try reflexivity.
  now rewrite string_app_nil_r.
Qed.

Lemma sound_yield_chunk (text : string) : sound (yield_chunk text).
Proof.
  intros st. split; simpl; try reflexivity.
  - now rewrite string_app_nil_r.
  - now rewrite app_nil_r.
Qed.

Lemma sound_announce (msg : string) :
  PyStr.truthy msg = true -> sound (announce msg).
Proof.
  intros Hm st. unfold announce.
  destruct (tool_in_progress st) eqn:E; simpl.
  - apply accounted_nil.
  - split; simpl; try reflexivity.
    + now rewrite string_app_nil_r.
    + now rewrite app_nil_r.
    + rewrite Hm, E. reflexivity.
Qed.

Lemma sound_clear_status : sound clear_status.
Proof.
  intros st. unfold clear_status.
  destruct (tool_in_progress st) eqn:E; simpl.
  - split; simpl; try reflexivity.
    + now rewrite string_app_nil_r.
    + now rewrite app_nil_r.
    + rewrite E. reflexivity.
  - apply accounted_nil.
Qed.

Lemma status_of_name_truthy (name : pyname) (label : string) :
  status_of_name name = Some label -> PyStr.truthy label = true.
Proof.
  unfold status_of_name.
  repeat match goal with
         | |- context [if ?c then _ else _] => destruct c
         end;
    intros H; inversion H; reflexivity.
Qed.

Lemma first_status_truthy (names : list pyname) (label : string) :
  first_status names = Some label -> PyStr.truthy label = true.
Proof.
  induction names as [|n names IH]; simpl; [discriminate|].
  destruct (status_of_name n) eqn:E; [|exact IH].
  intros H; inversion H; subst. eapply status_of_name_truthy; eauto.
Qed.

(** The label of a tool is never the empty text that clears the status. *)
Lemma get_tool_status_truthy (names : list pyname) :
  PyStr.truthy (get_tool_status names) = true.
Proof.
  unfold get_tool_status.
  destruct (first_status names) eqn:E.
  - eapply first_status_truthy; eauto.
  - reflexivity.
Qed.

Create HintDb sound discriminated.
#[local] Hint Resolve sound_skip sound_seq sound_for_each sound_yield_image
  sound_yield_chunk sound_announce sound_clear_status get_tool_status_truthy : sound.

Ltac sound_cases :=
  repeat match goal with
         | |- sound (if ?c then _ else _) => destruct c
         | |- sound (match ?x with _ => _ end) => destruct x
         | |- sound (let _ := _ in _) => cbv zeta
         end;
  auto 6 with sound.

Lemma sound_metadata_images (token : Token) : sound (metadata_images token).
Proof.
  unfold metadata_images. destruct (response_metadata token); auto with sound.
  apply sound_for_each. intros output. unfold metadata_output.
  destruct output as [o|]; auto with sound.
  destruct (is_str (o_type o) "files").
  - apply sound_for_each. intros f. unfold metadata_file. sound_cases.
  - sound_cases.
Qed.

Lemma sound_data_uri_image (url : string) : sound (data_uri_image url).
Proof.
  unfold data_uri_image.
  destruct (PyStr.split1 url ",") as [[mime_part b64_data]|]; auto with sound.
Qed.

Lemma sound_block_output (output : Output) : sound (block_output output).
Proof.
  unfold block_output. destruct output as [o|]; auto with sound.
  destruct (is_str (o_type o) "image"); auto with sound.
  cbv zeta. destruct (PyStr.startswith _ _); [apply sound_data_uri_image|].
  sound_cases.
Qed.

Lemma sound_code_interpreter_block (b : BlockDict) : sound (code_interpreter_block b).
Proof.
  unfold code_interpreter_block. cbv zeta.
  apply sound_seq; [|apply sound_seq].
  - destruct (get_or (b_outputs b) []); auto with sound.
  - destruct (get_or (b_outputs b) []); auto with sound.
  - apply sound_for_each, sound_block_output.
Qed.

Lemma sound_image_block (b : BlockDict) : sound (image_block b).
Proof.
  unfold image_block. cbv zeta.
  destruct (PyStr.startswith _ _); [apply sound_data_uri_image|].
  sound_cases.
Qed.

Lemma sound_process_block (block : Block) : sound (process_block block).
Proof.
  unfold process_block. destruct block as [b|b]; cbv zeta.
  - repeat match goal with
           | |- sound (if is_str ?t ?s then _ else _) => destruct (is_str t s)
           end;
      auto using sound_code_interpreter_block, sound_image_block with sound.
    sound_cases.
  - sound_cases.
Qed.

(** ** One iteration, whether it ends or raises *)

Lemma finish_tidy (f : Step) (st : State) : sound f -> tidy st (finish (f st)).
Proof.
  intros Hf. specialize (Hf st). unfold finish.
  destruct (f st) as [st' out]. exact Hf.
Qed.

Lemma tidy_continue (st : State) : tidy st (Continue st []).
Proof. apply accounted_nil. Qed.

Lemma tidy_raise (st : State) (e : PyExn) : tidy st (Raise e []).
Proof. exists st. apply accounted_nil. Qed.

Lemma prepend_tidy (st st1 : State) (out : list OutRec) (o : Outcome) :
  accounted st out st1 -> tidy st1 o -> tidy st (prepend out o).
Proof.
  intros H1 H2. destruct o as [st2 out2|e out2]; cbn [prepend tidy] in *.
  - eapply accounted_app; eauto.
  - destruct H2 as [st2 H2]. exists st2. eapply accounted_app; eauto.
Qed.

Lemma tool_result_tidy `{interp : Interp} (token : Token) (st : State) :
  tidy st (tool_result token st).
Proof.
  unfold tool_result.
  destruct (content token) as [[s|blocks]|]; try apply tidy_continue.
  match goal with |- context [if ?c then _ else _] => destruct c end;
    [|apply tidy_continue].
  destruct (Json.loads s) as [[| | | | |items|d]|e]; try apply tidy_continue.
  - destruct (json_is_str (PyDict.get d "type") "image"); [|apply tidy_continue].
    apply finish_tidy. auto with sound.
  - destruct e; (apply tidy_continue || apply tidy_raise).
Qed.

Lemma str_content_tidy `{interp : Interp} (s : string) (st : State) :
  tidy st (str_content s st).
Proof.
  unfold str_content.
  match goal with |- context [if ?c then _ else _] => destruct c end;
    [|apply finish_tidy; auto with sound].
  destruct (Json.loads s) as [[| | | | |items|d]|e]; try apply tidy_raise.
  - destruct (json_is_str (PyDict.get d "type") "image");
      apply finish_tidy; auto with sound.
  - destruct e; try apply tidy_raise.
    apply finish_tidy. auto with sound.
Qed.

Lemma process_token_tidy `{interp : Interp} (token : Token) (st : State) :
  tidy st (process_token token st).
Proof.
  unfold process_token.
  destruct (is_tool_message _); [apply tool_result_tidy|].
  destruct (truthy_list (tool_calls token)); [apply finish_tidy; auto with sound|].
  destruct (truthy_list (kw_calls token)); [apply finish_tidy; auto with sound|].
  pose proof (sound_clear_status st) as H1.
  destruct (clear_status st) as [st1 out1]; simpl in H1.
  destruct (content token) as [c|]; [|exact H1].
  destruct (content_truthy c); simpl; [|exact H1].
  pose proof (sound_metadata_images token st1) as H2.
  destruct (metadata_images token st1) as [st2 out2]; simpl in H2.
  destruct c as [s|blocks].
  - apply (prepend_tidy st st2); [eapply accounted_app; eauto|apply str_content_tidy].
  - pose proof (sound_for_each blocks process_block sound_process_block st2) as H3.
    destruct (for_each blocks process_block st2) as [st3 out3]; simpl in H3.
    cbn [tidy]. eauto using accounted_app.
Qed.

Lemma stream_loop_tidy `{interp : Interp} (chunks : list StreamItem) (st : State) :
  tidy st (stream_loop chunks st).
Proof.
  revert st; induction chunks as [|chunk rest IH]; intros st; cbn [stream_loop].
  - apply accounted_nil.
  - pose proof (process_token_tidy (token_of chunk) st) as H1.
    destruct (process_token (token_of chunk) st) as [st1 out1|e out1]; cbn [tidy] in H1.
    + apply (prepend_tidy st st1); [exact H1|apply IH].
    + exact H1.
Qed.

(** ** The yields *)

Lemma sent_prefix `{interp : Interp} (out : list OutRec) :
  exists rest, out = fst (sent out) ++ rest.
Proof.
  induction out as [|r out (rest & IH)]; [exists []; reflexivity|].
  cbn [sent]. destruct (line_text r); [|exists (r :: out); reflexivity].
  destruct (sent out) as [w e]. cbn [fst] in *. exists rest. cbn [app]. congruence.
Qed.

Lemma sent_all `{interp : Interp} (out : list OutRec) :
  snd (sent out) = None -> fst (sent out) = out.
Proof.
  induction out as [|r out IH]; [reflexivity|].
  cbn [sent]. destruct (line_text r); [|discriminate].
  destruct (sent out) as [w e]. cbn [fst snd] in *. intros ->. now rewrite IH.
Qed.

Lemma sent_app `{interp : Interp} (a b : list OutRec) :
  sent (a ++ b)
  = match snd (sent a) with
    | Some e => sent a
    | None => (a ++ fst (sent b), snd (sent b))
    end.
Proof.
  induction a as [|r a IH]; cbn [app sent].
  - cbn [snd]. now destruct (sent b).
  - destruct (line_text r); [|reflexivity].
    rewrite IH. destruct (sent a) as [w [e|]]; cbn [snd]; [reflexivity|].
    cbn [fst]. reflexivity.
Qed.

Lemma collect_strings `{interp : Interp} (depth : nat) (kvs : list (string * string)) :
  exists texts,
    Dumps.collect
      (map (fun kv => Dumps.member (fst kv) (Dumps.encode_obj depth (snd kv)))
           (map (fun kv => (fst kv, JStr (snd kv))) kvs))
    = Returns texts.
Proof.
  induction kvs as [|[k v] kvs (texts & IH)]; [exists []; reflexivity|].
  cbn [map fst snd Dumps.collect Dumps.encode_obj Dumps.member]. rewrite IH. eauto.
Qed.

Lemma flat_image_text `{interp : Interp} (depth : nat) (img : image_data) :
  flat_image img = true ->
  exists text, Dumps.encode_obj (S depth) (image_json img) = Returns text.
Proof.
  destruct img as [b f]. unfold flat_image. cbn [base64 format].
  destruct b; try discriminate. destruct f; try discriminate. intros _.
  cbn. eauto.
Qed.

Lemma flat_images_text `{interp : Interp} (depth : nat) (imgs : list image_data) :
  forallb flat_image imgs = true ->
  exists texts,
    Dumps.collect (map (Dumps.encode_obj (S depth)) (map image_json imgs)) = Returns texts.
Proof.
  induction imgs as [|img imgs IH]; [exists []; reflexivity|].
  cbn [forallb]. intros H. apply andb_prop in H as [Hi Hr].
  destruct (IH Hr) as (texts & Et). destruct (flat_image_text depth img Hi) as (t & E).
  cbn [map Dumps.collect]. rewrite E, Et. eauto.
Qed.

(** [json.dumps] writes every record whose image fields are strings. *)
Lemma flat_line_text `{interp : Interp} (r : OutRec) :
  flat r = true -> exists text, line_text r = Returns text.
Proof.
  unfold line_text, Dumps.dumps. pose proof dumps_depth_min as Hd.
  destruct dumps_depth as [|[|[|d]]]; try discriminate Hd. clear Hd.
  destruct r as [t|l|img|m ro imgs dn]; cbn [flat record_json]; intros H.
  - cbn. eauto.
  - cbn. eauto.
  - destruct (flat_image_text (S d) img H) as (t & E).
    cbn [Dumps.encode_obj map fst snd Dumps.collect]. rewrite E. cbn. eauto.
  - destruct (flat_images_text d imgs H) as (texts & E).
    cbn [Dumps.encode_obj map fst snd Dumps.collect Dumps.member]. rewrite E.
    destruct dn; cbn; eauto.
Qed.

Lemma flat_sent `{interp : Interp} (out : list OutRec) :
  forallb flat out = true -> sent out = (out, None).
Proof.
  induction out as [|r out IH]; [reflexivity|].
  cbn [forallb]. intros H. apply andb_prop in H as [Hr Ho].
  destruct (flat_line_text r Hr) as (text & E).
  cbn [sent]. rewrite E, (IH Ho). reflexivity.
Qed.

(** ** The records passed to the yields, and those written *)

(** The loop wrote [body], accounted for in [st]; the final record follows
    it when the loop and the upstream end without an exception. *)
Lemma stream_records_shape `{interp : Interp} (up : Upstream) :
  exists st body,
    accounted initial body st
    /\ ((failure up = None
         /\ stream_loop (chunks up) initial = Continue st body
         /\ stream_records up
            = {| written := body ++ [final_record st]; raised := None |})
        \/ exists e, stream_records up = {| written := body; raised := Some e |}).
Proof.
  unfold stream_records.
  pose proof (stream_loop_tidy (chunks up) initial) as H.
  destruct (stream_loop (chunks up) initial) as [st out|e out]; cbn [tidy] in H.
  - exists st, out. split; [exact H|].
    destruct (failure up); [right; eauto|left; auto].
  - destruct H as [st H]. exists st, out. split; [exact H|]. right. eauto.
Qed.

Lemma generate_stream_prefix `{interp : Interp} (up : Upstream) :
  exists rest, written (stream_records up) = written (generate_stream up) ++ rest.
Proof.
  unfold generate_stream. cbv zeta.
  destruct (sent_prefix (written (stream_records up))) as [rest E].
  destruct (sent (written (stream_records up))) as [w [e|]]; cbn [fst written] in *; eauto.
Qed.

(** A generator that ends without an exception has written every record. *)
Lemma generate_stream_ended `{interp : Interp} (up : Upstream) :
  raised (generate_stream up) = None ->
  generate_stream up = stream_records up /\ raised (stream_records up) = None.
Proof.
  unfold generate_stream. cbv zeta.
  pose proof (sent_all (written (stream_records up))) as Ha.
  destruct (sent (written (stream_records up))) as [w [e|]]; cbn [fst snd raised] in *;
    [discriminate|].
  intros Hr. rewrite (Ha eq_refl). split; [|exact Hr].
  destruct (stream_records up) as [wr ra]. cbn [raised written] in *. now rewrite Hr.
Qed.

Lemma generate_stream_flat `{interp : Interp} (up : Upstream) :
  forallb flat (written (stream_records up)) = true ->
  generate_stream up = stream_records up.
Proof.
  intros H. unfold generate_stream. cbv zeta. rewrite (flat_sent _ H).
  now destruct (stream_records up).
Qed.

Lemma no_done_app (a b : list OutRec) : no_done (a ++ b) <-> no_done a /\ no_done b.
Proof. unfold no_done. rewrite forallb_app. apply andb_true_iff. Qed.

Lemma no_done_filter (out : list OutRec) : no_done out -> filter is_done out = [].
Proof.
  unfold no_done. induction out as [|r out IH]; simpl; [reflexivity|].
  destruct r; simpl; try exact IH. discriminate.
Qed.

(** A generator that ends with an exception has written no final record. *)
Lemma generate_stream_raised `{interp : Interp} (up : Upstream) :
  raised (generate_stream up) <> None -> no_done (written (generate_stream up)).
Proof.
  intros Hr.
  destruct (generate_stream_prefix up) as [rest Ep].
  destruct (stream_records_shape up) as (st & body & Hacc & [(Hf & _ & E)|(e & E)]).
  - rewrite E in Ep. cbn [written] in Ep.
    assert (Hcut : exists e, snd (sent (body ++ [final_record st])) = Some e).
    { unfold generate_stream in Hr. cbv zeta in Hr. rewrite E in Hr. cbn [written raised] in Hr.
      destruct (sent (body ++ [final_record st])) as [w [e|]]; cbn [raised snd] in *;
        [eauto|congruence]. }
    destruct Hcut as [e He].
    assert (Ew : written (generate_stream up) = fst (sent (body ++ [final_record st]))).
    { unfold generate_stream. cbv zeta. rewrite E. cbn [written].
      destruct (sent (body ++ [final_record st])) as [w [e'|]]; reflexivity. }
    rewrite Ew. rewrite sent_app in He |- *.
    pose proof (acc_no_done _ _ _ Hacc) as Hb.
    destruct (sent_prefix body) as [r1 E1].
    destruct (snd (sent body)) eqn:Es.
    + rewrite E1 in Hb. apply no_done_app in Hb. tauto.
    + cbn [fst snd] in *. cbn [sent] in He |- *.
      destruct (line_text (final_record st)); [discriminate He|].
      cbn [fst]. rewrite app_nil_r. exact Hb.
  - rewrite E in Ep. cbn [written] in Ep.
    pose proof (acc_no_done _ _ _ Hacc) as Hb. rewrite Ep in Hb.
    apply no_done_app in Hb. tauto.
Qed.

(** ** The Done event *)

Lemma final_record_done (st : State) : is_done (final_record st) = true.
Proof. reflexivity. Qed.

(** The only record with the keys of the final record is the final record,
    and nothing follows it. *)
Lemma final_is_last (body pre post : list OutRec) (f r : OutRec) :
  no_done body -> is_final r = true ->
  body ++ [f] = pre ++ r :: post -> pre = body /\ r = f /\ post = [].
Proof.
  intros Hb Hr. revert pre; induction body as [|x body IH]; intros pre E.
  - destruct pre as [|y pre]; cbn [app] in E.
    + injection E as <- <-. auto.
    + injection E as _ E. destruct pre; discriminate E.
  - apply no_done_app with (a := [x]) in Hb as [Hx Hb].
    destruct pre as [|y pre]; cbn [app] in E.
    + injection E as -> _. unfold no_done in Hx. cbn in Hx. rewrite Hr in Hx. discriminate.
    + injection E as <- E. destruct (IH Hb pre E) as (-> & -> & ->). auto.
Qed.

Lemma no_done_absent (body pre post : list OutRec) (r : OutRec) :
  no_done body -> is_final r = true -> body <> pre ++ r :: post.
Proof.
  intros Hb Hr E. rewrite E in Hb. apply no_done_app in Hb as [_ Hb].
  unfold no_done in Hb. cbn in Hb. rewrite Hr in Hb. discriminate.
Qed.

(** A run over an upstream that ends: when the generator ends without an
    exception, what it wrote is the body of the loop and the final record. *)
Lemma generate_stream_exhausted `{interp : Interp} (items : list StreamItem) :
  raised (generate_stream {| chunks := items; failure := None |}) = None ->
  exists st body,
    accounted initial body st /\
    stream_loop items initial = Continue st body /\
    generate_stream {| chunks := items; failure := None |}
    = {| written := body ++ [final_record st]; raised := None |}.
Proof.
  intros Hr. destruct (generate_stream_ended _ Hr) as [E Hn]. rewrite E.
  destruct (stream_records_shape {| chunks := items; failure := None |})
    as (st & body & Hacc & [(_ & El & Es)|(e & Es)]).
  - exists st, body. auto.
  - rewrite Es in Hn. discriminate Hn.
Qed.

(** The run of the failing input of C1: a chunk, then a string content that
    holds an integer of 4301 digits. *)
Lemma huge_int_loads `{interp : Interp} :
  Json.loads Sample.huge_int_json_text
  = Raises (if (loads_depth =? 0)%nat then RecursionError else IntValueError).
Proof.
  unfold Json.loads. destruct loads_depth as [|d].
  - vm_compute. reflexivity.
  - vm_compute. reflexivity.
Qed.

Lemma huge_int_probes :
  (PyStr.startswith Sample.huge_int_json_text "{"
   && PyStr.contains type_image_marker Sample.huge_int_json_text) = true
  /\ (PyStr.truthy Sample.huge_int_json_text
      && PyStr.contains "base64" Sample.huge_int_json_text
      && (PyStr.contains "image" Sample.huge_int_json_text
          || PyStr.contains "png" Sample.huge_int_json_text)) = true.
Proof. vm_compute. split; reflexivity. Qed.

Lemma huge_int_content `{interp : Interp} (st : State) :
  str_content Sample.huge_int_json_text st
  = Raise (if (loads_depth =? 0)%nat then RecursionError else IntValueError) [].
Proof.
  unfold str_content. rewrite (proj1 huge_int_probes), huge_int_loads.
  destruct (loads_depth =? 0)%nat; reflexivity.
Qed.

(** C1, on the code: a run over an upstream that ends either ends without
    an exception, and then among the records it wrote exactly one is the
    Done event, the last one, or ends with an exception, and then it wrote
    no Done event.  The second case occurs: after a chunk, a string content
    that holds an integer of 4301 digits makes [json.loads] raise a
    [ValueError] (a [RecursionError] on an interpreter that allows no
    dictionary at all), which the [except] clause of line 548 does not
    catch; the chunk is all that is written. *)
Theorem done_exactly_once_and_last `{interp : Interp} (items : list StreamItem) :
  let r := generate_stream {| chunks := items; failure := None |} in
  (raised r = None ->
   length (filter is_done (written r)) = 1
   /\ exists body d, written r = body ++ [d] /\ is_done d = true)
  /\ (raised r <> None -> filter is_done (written r) = [])
  /\ generate_stream
       {| chunks := [ItemBare (Sample.ai_token (ContentStr "hi"));
                     ItemBare (Sample.ai_token (ContentStr Sample.huge_int_json_text))];
          failure := None |}
     = {| written := [OChunk "hi"];
          raised := Some (if (loads_depth =? 0)%nat
                          then RecursionError else IntValueError) |}.
Proof.
  cbv zeta. split; [|split].
  - intros Hr. destruct (generate_stream_exhausted items Hr) as (st & body & H & _ & E).
    rewrite E. cbn [written]. split.
    + rewrite filter_app, (no_done_filter body (acc_no_done _ _ _ H)). reflexivity.
    + exists body, (final_record st). split; reflexivity.
  - intros Hr. apply no_done_filter, generate_stream_raised, Hr.
  - rewrite generate_stream_flat.
    + unfold stream_records. cbn [chunks stream_loop token_of].
      change (process_token (Sample.ai_token (ContentStr "hi")) initial)
        with (Continue {| full_response := "hi"; images := [];
                          tool_in_progress := false |} [OChunk "hi"]).
      cbv iota.
      change (process_token (Sample.ai_token (ContentStr Sample.huge_int_json_text)) ?st)
        with (prepend ([] ++ []) (str_content Sample.huge_int_json_text st)).
      rewrite huge_int_content. reflexivity.
    + unfold stream_records. cbn [chunks stream_loop token_of].
      change (process_token (Sample.ai_token (ContentStr "hi")) initial)
        with (Continue {| full_response := "hi"; images := [];
                          tool_in_progress := false |} [OChunk "hi"]).
      cbv iota.
      change (process_token (Sample.ai_token (ContentStr Sample.huge_int_json_text)) ?st)
        with (prepend ([] ++ []) (str_content Sample.huge_int_json_text st)).
      rewrite huge_int_content. reflexivity.
Qed.

(** C2.  A record with the keys of the final record is the last record
    written, and it is the Done event of what precedes it: its message is
    the texts of all chunks written before it, concatenated in order, its
    images are the image records written before it, in order, its role is
    [assistant] and its [done] is true.  A run over an upstream that ends
    writes it whenever the generator ends without an exception. *)
Theorem done_carries_chunks_and_images `{interp : Interp} (up : Upstream) :
  (forall pre message role_ imgs done_ post,
      written (generate_stream up) = pre ++ OFinal message role_ imgs done_ :: post ->
      post = []
      /\ OFinal message role_ imgs done_
         = OFinal (chunk_text pre) "assistant" (image_list pre) true)
  /\ (failure up = None -> raised (generate_stream up) = None ->
      exists body,
        written (generate_stream up)
        = body ++ [OFinal (chunk_text body) "assistant" (image_list body) true]).
Proof.
  assert (Hfinal : forall st body, accounted initial body st ->
            final_record st
            = OFinal (chunk_text body) "assistant" (image_list body) true).
  { intros st body H. unfold final_record.
    rewrite (acc_text _ _ _ H), (acc_images _ _ _ H). reflexivity. }
  split.
  - intros pre m ro imgs d post E.
    destruct (generate_stream_prefix up) as [rest Ep]. rewrite E in Ep.
    rewrite <- app_assoc in Ep. cbn [app] in Ep.
    destruct (stream_records_shape up) as (st & body & Hacc & [(_ & _ & Es)|(e & Es)]);
      rewrite Es in Ep; cbn [written] in Ep.
    + destruct (final_is_last body pre (post ++ rest) (final_record st)
                  (OFinal m ro imgs d) (acc_no_done _ _ _ Hacc) eq_refl Ep)
        as (-> & -> & Hp).
      apply app_eq_nil in Hp as [-> _]. split; [reflexivity|]. apply Hfinal, Hacc.
    + exfalso. exact (no_done_absent body pre (post ++ rest) (OFinal m ro imgs d)
                        (acc_no_done _ _ _ Hacc) eq_refl Ep).
  - intros Hf Hr. destruct up as [items f]. cbn [failure] in Hf. subst f.
    destruct (generate_stream_exhausted items Hr) as (st & body & H & _ & E).
    exists body. rewrite E. cbn [written]. now rewrite (Hfinal st body H).
Qed.

(** ** Alternation of Status and StatusClear *)

Lemma truthy_false (s : string) : PyStr.truthy s = false -> s = "".
Proof. destruct s; [reflexivity|discriminate]. Qed.

Lemma truthy_true (s : string) : s <> "" -> PyStr.truthy s = true.
Proof. destruct s; [congruence|reflexivity]. Qed.

Lemma track_clear_between (mid : list OutRec) :
  track true mid = Some false -> In StatusClear mid.
Proof.
  induction mid as [|r mid IH]; simpl; [discriminate|].
  destruct r as [t|s|img|m ro im d]; try (intros H; right; exact (IH H)).
  destruct (PyStr.truthy s) eqn:E; [discriminate|].
  intros _. left. apply truthy_false in E. subst. reflexivity.
Qed.

Lemma track_last_status (pre : list OutRec) (a : bool) :
  track a pre = Some true ->
  (a = true /\ Forall not_a_status pre)
  \/ exists pre1 l pre2,
       pre = pre1 ++ OStatus l :: pre2 /\ l <> "" /\ Forall not_a_status pre2.
Proof.
  revert a; induction pre as [|r pre IH]; intros a; simpl.
  - intros H; inversion H; subst. left. split; [reflexivity|constructor].
  - destruct r as [t|s|img|m ro im d];
      try (intros H; destruct (IH _ H) as [[Ha Hn]|(p1 & l & p2 & -> & Hl & Hn)];
           [left; split; [exact Ha|constructor; [exact I|exact Hn]]
           |right; eexists (_ :: p1), l, p2; split; [reflexivity|split; assumption]]).
    destruct (PyStr.truthy s) eqn:E, a; try discriminate; intros H;
      destruct (IH _ H) as [[Ha Hn]|(p1 & l & p2 & -> & Hl & Hn)];
      try discriminate;
      try (right; eexists (_ :: p1), l, p2; split; [reflexivity|split; assumption]).
    right. exists [], s, pre. split; [reflexivity|]. split; [|exact Hn].
    intros ->. discriminate.
Qed.

Lemma track_prefix (a : bool) (o1 o2 : list OutRec) (b : bool) :
  track a (o1 ++ o2) = Some b -> exists c, track a o1 = Some c.
Proof.
  rewrite track_app. destruct (track a o1) as [c|]; [eauto|discriminate].
Qed.

Lemma generate_stream_track `{interp : Interp} (up : Upstream) :
  exists b, track false (written (generate_stream up)) = Some b.
Proof.
  destruct (generate_stream_prefix up) as [rest Ep].
  assert (H : exists b, track false (written (stream_records up)) = Some b).
  { destruct (stream_records_shape up) as (st & body & Hacc & [(_ & _ & Es)|(e & Es)]);
      rewrite Es; cbn [written]; pose proof (acc_track _ _ _ Hacc) as K; cbn in K.
    - rewrite track_app, K. cbn. eauto.
    - eauto. }
  destruct H as [b Hb]. rewrite Ep in Hb. eapply track_prefix; eauto.
Qed.

(** C3.  In the output of every upstream sequence, whether it ends or
    fails, Status and StatusClear strictly alternate, starting with a Status:
    between two Status records there is a StatusClear, and the last status
    record before a StatusClear is a Status. *)
Theorem status_and_clear_alternate `{interp : Interp} (up : Upstream) :
  let out := written (generate_stream up) in
  (exists b, track false out = Some b)
  /\ (forall pre l1 mid l2 post,
        out = pre ++ OStatus l1 :: mid ++ OStatus l2 :: post ->
        l1 <> "" -> l2 <> "" -> In StatusClear mid)
  /\ (forall pre post,
        out = pre ++ StatusClear :: post ->
        exists pre1 l pre2,
          pre = pre1 ++ OStatus l :: pre2 /\ l <> "" /\ Forall not_a_status pre2).
Proof.
  cbv zeta. destruct (generate_stream_track up) as [b Hb].
  split; [eauto|]. split.
  - intros pre l1 mid l2 post E H1 H2. rewrite E in Hb.
    rewrite track_app in Hb. destruct (track false pre) as [a|]; [|discriminate].
    simpl in Hb. rewrite (truthy_true _ H1) in Hb.
    destruct a; [discriminate|].
    rewrite track_app in Hb. destruct (track true mid) as [c|] eqn:Em; [|discriminate].
    simpl in Hb. rewrite (truthy_true _ H2) in Hb.
    destruct c; [discriminate|]. apply track_clear_between. exact Em.
  - intros pre post E. rewrite E in Hb.
    rewrite track_app in Hb. destruct (track false pre) as [a|] eqn:Ep; [|discriminate].
    simpl in Hb. destruct a; [|discriminate].
    destruct (track_last_status _ _ Ep) as [[Ha _]|H]; [discriminate|exact H].
Qed.

(** ** The tool-status classifier *)

Lemma lower_ascii_idem (c : ascii) :
  PyStr.lower_ascii (PyStr.lower_ascii c) = PyStr.lower_ascii c.
Proof. destruct c as [[] [] [] [] [] [] [] []]; reflexivity. Qed.

Lemma lower_idem (s : string) : PyStr.lower (PyStr.lower s) = PyStr.lower s.
Proof.
  induction s as [|c r IH]; simpl; [reflexivity|].
  rewrite lower_ascii_idem, IH. reflexivity.
Qed.

Lemma lower_truthy (s : string) :
  (if PyStr.truthy s then PyStr.lower s else "") = PyStr.lower s.
Proof. destruct s; reflexivity. Qed.

(** Matching looks at the lower-cased name only. *)
Lemma status_of_name_lower (s : string) :
  status_of_name (Some (PyStr.lower s)) = status_of_name (Some s).
Proof.
  unfold status_of_name. rewrite !lower_truthy, lower_idem. reflexivity.
Qed.

(** C7, as the spec states it, fails: the label of [execute_sales_query] is
    not the bare text [Querying database]. *)
Lemma sales_query_label_is_decorated :
  get_tool_status [Some "execute_sales_query"] <> "Querying database".
Proof. vm_compute. discriminate. Qed.

(** C7, amended.  The classifier returns the spec's label between an icon
    and an ellipsis: [execute_sales_query] gives the database label,
    [generate_image] the image label, an unknown name the default label
    around the name, and no name at all the default label around [tool].
    Names are matched in lower case, and the default label shows the first
    name as it was given. *)
Theorem tool_status_labels :
  get_tool_status [Some "execute_sales_query"] = "🔍 Querying database..."
  /\ get_tool_status [Some "generate_image"] = "🎨 Generating image..."
  /\ get_tool_status [Some "unknown_tool_x"] = "⚙️ Using unknown_tool_x..."
  /\ get_tool_status [] = "⚙️ Using tool..."
  /\ (forall names : list string,
        first_status (map (fun s => Some (PyStr.lower s)) names)
        = first_status (map Some names))
  /\ (forall (name : string) (rest : list pyname),
        first_status (Some name :: rest) = None ->
        get_tool_status (Some name :: rest) = ("⚙️ Using " ++ name ++ "...")%string)
  /\ get_tool_status [Some "Execute_Sales_QUERY"] = "🔍 Querying database..."
  /\ get_tool_status [Some "Unknown_Tool_X"] = "⚙️ Using Unknown_Tool_X...".
Proof.
  repeat split; try reflexivity.
  - intros names. induction names as [|n names IH]; simpl; [reflexivity|].
    rewrite status_of_name_lower, IH. reflexivity.
  - intros name rest H. unfold get_tool_status. rewrite H. reflexivity.
Qed.

(** ** Upstream failure *)

(** When the upstream source raises, the generator ends with an exception,
    that of the upstream or one raised earlier, and what it wrote is the
    beginning of the records of the items it received: no final record and
    no error record. *)
Lemma upstream_failure_truncates `{interp : Interp} (items : list StreamItem) (msg : string) :
  let r := generate_stream {| chunks := items; failure := Some msg |} in
  (exists e, raised r = Some e)
  /\ no_done (written r)
  /\ (exists rest, outcome_out (stream_loop items initial) = written r ++ rest)
  /\ (forall st out,
        stream_loop items initial = Continue st out -> forallb flat out = true ->
        r = {| written := out; raised := Some (UpstreamError msg) |}).
Proof.
  cbv zeta. set (up := {| chunks := items; failure := Some msg |}).
  assert (Hrec : exists e, stream_records up
                           = {| written := outcome_out (stream_loop items initial);
                                raised := Some e |}).
  { unfold stream_records, up. cbn [chunks failure].
    destruct (stream_loop items initial) as [st out|e out]; cbn [outcome_out]; eauto. }
  destruct Hrec as [e0 Hrec].
  assert (He : exists e, raised (generate_stream up) = Some e).
  { unfold generate_stream. cbv zeta. rewrite Hrec. cbn [written raised].
    destruct (sent _) as [w [e|]]; cbn [raised]; eauto. }
  split; [exact He|]. split; [|split].
  - apply generate_stream_raised. destruct He as [e ->]. discriminate.
  - destruct (generate_stream_prefix up) as [rest Ep]. rewrite Hrec in Ep.
    cbn [written] in Ep. eauto.
  - intros st out El Hflat. rewrite generate_stream_flat.
    + unfold stream_records, up. cbn [chunks failure]. rewrite El. reflexivity.
    + unfold stream_records, up. cbn [chunks failure]. rewrite El. exact Hflat.
Qed.

(** C8, on the code: after one chunk was written, an upstream failure ends
    the stream there; the chunk is the last record, and the exception leaves
    the generator.  Whatever was received before the failure, neither a final
    record nor an error record is written. *)
Theorem upstream_failure_after_chunk `{interp : Interp} :
  generate_stream
    {| chunks := [ItemBare (Sample.ai_token (ContentStr "hello"))];
       failure := Some "boom" |}
  = {| written := [OChunk "hello"]; raised := Some (UpstreamError "boom") |}
  /\ forall (items : list StreamItem) (msg : string),
       let r := generate_stream {| chunks := items; failure := Some msg |} in
       (exists e, raised r = Some e)
       /\ no_done (written r)
       /\ (exists rest, outcome_out (stream_loop items initial) = written r ++ rest)
       /\ (forall st out,
             stream_loop items initial = Continue st out -> forallb flat out = true ->
             r = {| written := out; raised := Some (UpstreamError msg) |}).
Proof.
  split; [rewrite generate_stream_flat; reflexivity|].
  intros items msg. apply upstream_failure_truncates.
Qed.

(** ** Clearing the status *)

(** What the code does in general: an event that is neither a tool result
    nor a tool call starts by clearing an active status, whatever its
    content and whether or not it goes on to raise. *)
Lemma status_cleared_first `{interp : Interp} (token : Token) (st : State) :
  is_tool_message (msg_type token) = false ->
  truthy_list (tool_calls token) = false ->
  truthy_list (kw_calls token) = false ->
  exists rest,
    outcome_out (process_token token st)
    = (if tool_in_progress st then [StatusClear] else []) ++ rest.
Proof.
  intros H1 H2 H3.
  unfold process_token. rewrite H1, H2, H3.
  unfold clear_status.
  set (pre := if tool_in_progress st then [StatusClear] else []).
  set (st1 := if tool_in_progress st
              then {| full_response := full_response st; images := images st;
                      tool_in_progress := false |}
              else st).
  replace (if tool_in_progress st then _ else _) with (st1, pre)
    by (unfold st1, pre; destruct (tool_in_progress st); reflexivity).
  destruct (content token) as [c|]; [|exists []; now rewrite app_nil_r].
  destruct (content_truthy c); simpl; [|exists []; now rewrite app_nil_r].
  destruct (metadata_images token st1) as [st2 out2].
  destruct c as [s|blocks].
  - destruct (str_content s st2) as [st3 out3|e out3]; simpl;
      exists (out2 ++ out3); now rewrite app_assoc.
  - destruct (for_each blocks process_block st2) as [st3 out3].
    exists (out2 ++ out3). reflexivity.
Qed.

(** C5, on the code: after a tool call was announced, an event with empty
    content and no tool call clears the status; in general such an event
    starts with the StatusClear whenever a status is active, whatever its
    content. *)
Theorem status_cleared_by_empty_content `{interp : Interp} :
  process_token (Sample.ai_token (ContentStr "")) Sample.st_active
  = Continue initial [StatusClear]
  /\ written (generate_stream
                {| chunks := [ItemBare (Sample.call_token "web_search");
                              ItemBare (Sample.ai_token (ContentStr ""))];
                   failure := None |})
     = [OStatus "🔎 Searching the web..."; StatusClear;
        OFinal "" "assistant" [] true]
  /\ forall (token : Token) (st : State),
       is_tool_message (msg_type token) = false ->
       truthy_list (tool_calls token) = false ->
       truthy_list (kw_calls token) = false ->
       tool_in_progress st = true ->
       exists rest, outcome_out (process_token token st) = StatusClear :: rest.
Proof.
  split; [reflexivity|]. split; [rewrite generate_stream_flat; reflexivity|].
  intros token st H1 H2 H3 Ht.
  destruct (status_cleared_first token st H1 H2 H3) as (rest & E).
  rewrite Ht in E. eauto.
Qed.

(** ** Empty content *)

(** C10.  An event that is neither a tool result nor a tool call, and whose
    content is absent or empty, yields no chunk and no image, whatever its
    response metadata holds: at most the StatusClear is written, and the
    accumulators are unchanged. *)
Theorem empty_content_yields_nothing `{interp : Interp} (token : Token) (st : State) :
  is_tool_message (msg_type token) = false ->
  truthy_list (tool_calls token) = false ->
  truthy_list (kw_calls token) = false ->
  match content token with
  | Some c => content_truthy c = false
  | None => True
  end ->
  exists st',
    process_token token st
    = Continue st' (if tool_in_progress st then [StatusClear] else [])
    /\ full_response st' = full_response st
    /\ images st' = images st.
Proof.
  intros H1 H2 H3 Hc. unfold process_token. rewrite H1, H2, H3.
  unfold clear_status.
  destruct (tool_in_progress st), (content token) as [c|];
    try rewrite Hc; simpl; eauto.
Qed.

Lemma empty_content_witness :
  exists st',
    process_token (interp := Sample.cpython) Sample.metadata_only_token Sample.st_active
    = Continue st' [StatusClear]
    /\ full_response st' = ""
    /\ images st' = [].
Proof.
  apply (empty_content_yields_nothing (interp := Sample.cpython)
           Sample.metadata_only_token Sample.st_active);
    reflexivity.
Defined.

(** ** Reasoning blocks, tool-result signals and tool results *)

(** What a tool result gives, read off the text of its content. *)
Lemma tool_result_spec `{interp : Interp} (token : Token) (st : State) :
  tool_result token st =
  match content token with
  | Some (ContentStr s) =>
      if PyStr.truthy s && PyStr.contains "base64" s
         && (PyStr.contains "image" s || PyStr.contains "png" s)
      then
        match Json.loads s with
        | Returns _ | Raises JSONDecodeError =>
            match Spec.tool_image_json s with
            | Some img => Continue (add_images st [img]) [OImage img]
            | None => Continue st []
            end
        | Raises e => Raise e []
        end
      else Continue st []
  | _ => Continue st []
  end.
Proof.
  unfold tool_result, Spec.tool_image_json.
  destruct (content token) as [[s|blocks]|]; try reflexivity.
  destruct (_ && _ && _); [|reflexivity].
  destruct (Json.loads s) as [[| | | | | |d]|e]; try reflexivity.
  destruct (json_is_str (PyDict.get d "type") "image"); reflexivity.
Qed.






(** ** Statements that only write images *)

Lemma add_images_nil (st : State) : add_images st [] = st.
Proof. destruct st; unfold add_images; simpl. now rewrite app_nil_r. Qed.

Lemma add_images_app (st : State) (a b : list image_data) :
  add_images (add_images st a) b = add_images st (a ++ b).
Proof. unfold add_images; simpl. now rewrite app_assoc. Qed.

Lemma images_only_skip : images_only skip.
Proof. intros st. exists []. unfold skip. now rewrite add_images_nil. Qed.

Lemma images_only_yield (img : image_data) : images_only (yield_image img).
Proof. intros st. exists [img]. reflexivity. Qed.

Lemma images_only_for_each {A : Type} (l : list A) (body : A -> Step) :
  (forall x, images_only (body x)) -> images_only (for_each l body).
Proof.
  intros Hb. induction l as [|x l IH]; simpl; [apply images_only_skip|].
  intros st. unfold seq.
  destruct (Hb x st) as [i1 ->]. destruct (IH (add_images st i1)) as [i2 ->].
  exists (i1 ++ i2). now rewrite add_images_app, map_app.
Qed.

Lemma images_only_metadata (token : Token) : images_only (metadata_images token).
Proof.
  unfold metadata_images.
  destruct (response_metadata token); [|apply images_only_skip].
  apply images_only_for_each. intros [o|]; simpl; [|apply images_only_skip].
  destruct (is_str (o_type o) "files").
  - apply images_only_for_each. intros f. unfold metadata_file.
    destruct (PyStr.contains _ _); [apply images_only_yield|apply images_only_skip].
  - destruct (is_str (o_type o) "image");
      [apply images_only_yield|apply images_only_skip].
Qed.

(** ** The outputs of a [code_interpreter_call] block *)

Lemma uri_mime_has_image (url : string) :
  PyStr.startswith url "data:image/" = true ->
  PyStr.contains "image/" (PyStr.before "," url) = true.
Proof.
  unfold PyStr.startswith. intros H.
  destruct (PyStrFacts.prefix_strip _ _ H) as (t & _ & ->).
  simpl. reflexivity.
Qed.

Lemma data_uri_image_spec (url : string) (st : State) :
  PyStr.startswith url "data:image/" = true ->
  data_uri_image url st
  = (add_images st (Spec.data_uri_images url), map OImage (Spec.data_uri_images url)).
Proof.
  intros Hu. unfold data_uri_image, Spec.data_uri_images.
  destruct (PyStr.split1 url ",") as [[mime b64]|] eqn:E.
  - apply PyStrFacts.split1_some in E as (Hc & -> & ->). rewrite Hc.
    pose proof (uri_mime_has_image url Hu) as Hi. rewrite Hi.
    rewrite PyStrFacts.split_hd, PyStrFacts.split_nth1 by (discriminate || exact Hi).
    reflexivity.
  - apply PyStrFacts.split1_none in E. rewrite E.
    simpl. now rewrite add_images_nil.
Qed.

Lemma block_output_spec (output : Output) (st : State) :
  block_output output st
  = (add_images st (Spec.output_images output),
     map OImage (Spec.output_images output)).
Proof.
  unfold block_output, Spec.output_images.
  destruct output as [o|]; [|simpl; unfold skip; now rewrite add_images_nil].
  destruct (is_str (o_type o) "image");
    [|simpl; unfold skip; now rewrite add_images_nil].
  cbv zeta. destruct (PyStr.startswith _ _) eqn:Hu; [now apply data_uri_image_spec|].
  unfold Spec.direct_images. destruct (PyStr.truthy _); [reflexivity|].
  simpl; unfold skip; now rewrite add_images_nil.
Qed.

Lemma for_each_block_output (outs : list Output) (st : State) :
  for_each outs block_output st
  = (add_images st (flat_map Spec.output_images outs),
     map OImage (flat_map Spec.output_images outs)).
Proof.
  revert st; induction outs as [|o outs IH]; intros st; simpl.
  - unfold skip. now rewrite add_images_nil.
  - unfold seq. rewrite block_output_spec, IH, add_images_app, map_app. reflexivity.
Qed.

(** C4, as the spec states it, fails: an output of the files form, with a
    file whose [mime_type] contains [image], yields no image in a
    [code_interpreter_call] block; the same output in the response metadata
    does. *)
Lemma code_block_ignores_files :
  process_block (BDict (Sample.code_block [Sample.files_output])) initial
  = (initial, [])
  /\ snd (metadata_images Sample.metadata_only_token initial)
     = [OImage {| base64 := JStr "QUJD"; format := JStr "png" |}].
Proof. split; reflexivity. Qed.

(** C4, amended.  A [code_interpreter_call] block with no outputs announces
    the running code, once, when no status is active.  With outputs it first
    clears an active status and then writes one image for every output of
    type [image] that holds a data URI with a comma or a direct payload that
    is not empty; an output of the files form yields nothing. *)
Theorem code_interpreter_call_block (b : BlockDict) (st : State) :
  b_type b = Some "code_interpreter_call" ->
  let outs := get_or (b_outputs b) [] in
  let imgs := flat_map Spec.output_images outs in
  (outs = [] ->
   process_block (BDict b) st
   = if tool_in_progress st then (st, [])
     else ({| full_response := full_response st; images := images st;
              tool_in_progress := true |}, [OStatus "💻 Running code..."]))
  /\ (outs <> [] ->
      process_block (BDict b) st
      = ({| full_response := full_response st; images := images st ++ imgs;
            tool_in_progress := false |},
         (if tool_in_progress st then [StatusClear] else []) ++ map OImage imgs))
  /\ Spec.output_images (Sample.url_output "data:image/jpeg;base64,QUJD")
     = [{| base64 := JStr "QUJD"; format := JStr "jpeg" |}]
  /\ (forall o, is_str (o_type o) "files" = true -> Spec.output_images (OutDict o) = []).
Proof.
  intros Hb. cbv zeta.
  assert (E : process_block (BDict b) = code_interpreter_block b).
  { unfold process_block. rewrite Hb. reflexivity. }
  rewrite E. unfold code_interpreter_block. cbv zeta.
  split; [|split; [|split]].
  - intros ->. unfold seq, announce, skip; simpl.
    destruct (tool_in_progress st); reflexivity.
  - intros Hne. destruct (get_or (b_outputs b) []) as [|o outs] eqn:Eo; [congruence|].
    unfold seq at 1. unfold skip at 1. unfold seq. unfold clear_status.
    destruct (tool_in_progress st) eqn:Et; rewrite for_each_block_output;
      unfold add_images; simpl; [reflexivity|].
    rewrite Et. reflexivity.
  - reflexivity.
  - intros o Ho. unfold Spec.output_images.
    destruct (o_type o) as [t|]; [|discriminate]. simpl in Ho.
    apply String.eqb_eq in Ho. subst. reflexivity.
Qed.

Lemma code_block_witness :
  process_block
    (BDict (Sample.code_block [Sample.url_output "data:image/jpeg;base64,QUJD"]))
    Sample.st_active
  = ({| full_response := "";
        images := [{| base64 := JStr "QUJD"; format := JStr "jpeg" |}];
        tool_in_progress := false |},
     [StatusClear; OImage {| base64 := JStr "QUJD"; format := JStr "jpeg" |}]).
Proof.
  destruct (code_interpreter_call_block
              (Sample.code_block [Sample.url_output "data:image/jpeg;base64,QUJD"])
              Sample.st_active eq_refl) as (_ & H & _).
  rewrite H; [reflexivity|discriminate].
Defined.

(** ** String content *)

Lemma str_content_spec `{interp : Interp} (s : string) (st : State) :
  str_content s st =
  match Spec.image_json s with
  | Some img => Continue (add_images st [img]) [OImage img]
  | None =>
      let chunk :=
        Continue {| full_response := (full_response st ++ s)%string;
                    images := images st;
                    tool_in_progress := tool_in_progress st |} [OChunk s] in
      if PyStr.startswith s "{" && PyStr.contains type_image_marker s then
        match Json.loads s with
        | Returns _ | Raises JSONDecodeError => chunk
        | Raises e => Raise e []
        end
      else chunk
  end.
Proof.
  unfold str_content, Spec.image_json.
  destruct (PyStr.startswith s "{") eqn:Hb; cbn [andb]; [|reflexivity].
  destruct (PyStr.contains type_image_marker s); [|reflexivity].
  destruct (Json.loads s) as [v|e] eqn:E; [|destruct e; reflexivity].
  destruct (JsonFacts.loads_brace _ _ Hb E) as [d ->].
  destruct (json_is_str (PyDict.get d "type") "image"); reflexivity.
Qed.

(** C6, on the code: for an event that is neither a tool result nor a tool
    call and whose content is a string that is not empty, the generator
    first writes the StatusClear of an active status and the images of the
    response metadata.  Then it writes the image, when the string starts with an
    opening brace, contains [type_image_marker] and parses to an object of
    type [image]; it ends with the exception of [json.loads], when that is
    not a [JSONDecodeError]; and otherwise, in particular when the string
    does not parse, it writes one chunk with the string itself, which is
    appended to the text.  The compact encoding of an object of type [image]
    lacks the marker and is written as a chunk, although it parses to that
    object and the test made on a tool result (line 274) lets it through to
    [json.loads], which yields the image. *)
Theorem string_content_token `{interp : Interp}
        (token : Token) (st : State) (s : string) :
  is_tool_message (msg_type token) = false ->
  truthy_list (tool_calls token) = false ->
  truthy_list (kw_calls token) = false ->
  content token = Some (ContentStr s) ->
  s <> "" ->
  (exists meta,
     let before :=
       (if tool_in_progress st then [StatusClear] else []) ++ map OImage meta in
     let probe := PyStr.startswith s "{" && PyStr.contains type_image_marker s in
     let chunked :=
       exists st',
         process_token token st = Continue st' (before ++ [OChunk s])
         /\ full_response st' = (full_response st ++ s)%string in
     (response_metadata token = None -> meta = [])
     /\ (forall img,
           Spec.image_json s = Some img ->
           exists st',
             process_token token st = Continue st' (before ++ [OImage img])
             /\ full_response st' = full_response st)
     /\ (forall e,
           probe = true -> Json.loads s = Raises e -> e <> JSONDecodeError ->
           process_token token st = Raise e before)
     /\ (Spec.image_json s = None ->
         (forall e, probe = true -> Json.loads s = Raises e -> e = JSONDecodeError) ->
         chunked)
     /\ (Json.loads s = Raises JSONDecodeError -> chunked)
     /\ (probe = false -> chunked))
  /\ process_token (Sample.ai_token (ContentStr Sample.compact_image_json_text)) initial
     = Continue {| full_response := Sample.compact_image_json_text;
                   images := [];
                   tool_in_progress := false |}
                [OChunk Sample.compact_image_json_text]
  /\ (loads_depth <> 0%nat ->
      Json.loads Sample.compact_image_json_text
      = Returns (JDict [("type", JStr "image"); ("base64", JStr "QUJD")])
      /\ process_token (Sample.tool_token Sample.compact_image_json_text) initial
         = Continue
             (add_images initial [{| base64 := JStr "QUJD"; format := JStr "png" |}])
             [OImage {| base64 := JStr "QUJD"; format := JStr "png" |}]).
Proof.
  intros H1 H2 H3 Hc Hs.
  split; [|split; [reflexivity|]].
  2:{ unfold process_token, tool_result, Json.loads.
      destruct loads_depth as [|d]; [intros Hd; congruence|].
      intros _. split; vm_compute; reflexivity. }
  unfold process_token. rewrite H1, H2, H3, Hc.
  cbn [content_truthy]. rewrite (truthy_true s Hs). cbn [negb].
  set (pre := if tool_in_progress st then [StatusClear] else []).
  set (st1 := if tool_in_progress st
              then {| full_response := full_response st; images := images st;
                      tool_in_progress := false |}
              else st).
  replace (clear_status st) with (st1, pre)
    by (unfold clear_status, st1, pre; destruct (tool_in_progress st); reflexivity).
  assert (Hf : full_response st1 = full_response st)
    by (unfold st1; destruct (tool_in_progress st); reflexivity).
  destruct (images_only_metadata token st1) as [meta Em].
  assert (Hn : response_metadata token = None -> meta = []).
  { intros Hr. unfold metadata_images in Em. rewrite Hr in Em. unfold skip in Em.
    inversion Em as [[Ha Hb]]. destruct meta; [reflexivity|discriminate]. }
  rewrite Em, str_content_spec. exists meta. cbv zeta.
  assert (Hchunk :
            exists st',
              prepend (pre ++ map OImage meta)
                (Continue {| full_response := (full_response (add_images st1 meta) ++ s)%string;
                             images := images (add_images st1 meta);
                             tool_in_progress := tool_in_progress (add_images st1 meta) |}
                          [OChunk s])
              = Continue st' ((pre ++ map OImage meta) ++ [OChunk s])
              /\ full_response st' = (full_response st ++ s)%string).
  { eexists. split; [reflexivity|].
    change ((full_response st1 ++ s)%string = (full_response st ++ s)%string).
    now rewrite Hf. }
  split; [exact Hn|]. split; [|split; [|split; [|split]]].
  - intros img Ei. rewrite Ei. eexists. split; [reflexivity|].
    change (full_response st1 = full_response st). exact Hf.
  - intros e Hp El He. unfold Spec.image_json. rewrite Hp, El.
    destruct e; try congruence;
      cbv beta iota delta [prepend]; now rewrite app_nil_r.
  - intros Ei Hall. rewrite Ei.
    destruct (PyStr.startswith s "{" && PyStr.contains type_image_marker s) eqn:Hp;
      [|exact Hchunk].
    destruct (Json.loads s) as [v|e] eqn:El; [exact Hchunk|].
    rewrite (Hall e eq_refl eq_refl). exact Hchunk.
  - intros El. unfold Spec.image_json. rewrite El.
    destruct (PyStr.startswith s "{" && PyStr.contains type_image_marker s);
      exact Hchunk.
  - intros Hp. unfold Spec.image_json. rewrite Hp. exact Hchunk.
Qed.

Lemma malformed_json_witness :
  exists st' meta,
    process_token (interp := Sample.cpython)
      (Sample.ai_token (ContentStr "{not valid")) initial
    = Continue st' (map OImage meta ++ [OChunk "{not valid"])
    /\ full_response st' = "{not valid".
Proof.
  destruct (string_content_token (interp := Sample.cpython)
              (Sample.ai_token (ContentStr "{not valid"))
              initial "{not valid" eq_refl eq_refl eq_refl eq_refl)
    as ((meta & _ & _ & _ & _ & H & _) & _); [discriminate|].
  destruct (H eq_refl) as (st' & E & Hf).
  exists st', meta. split; [exact E|exact Hf].
Defined.

(** * Further properties of the generator *)

(** ** Occurrences of a text in another *)

Lemma is_prefix_app (a q : string) : PyStr.is_prefix a (a ++ q) = true.
Proof.
  induction a as [|x a IH]; simpl; [reflexivity|].
  rewrite Ascii.eqb_refl. exact IH.
Qed.

Lemma contains_intro (a p q : string) : PyStr.contains a (p ++ a ++ q) = true.
Proof.
  induction p as [|x p IH].
  - simpl. destruct (a ++ q)%string eqn:E; simpl.
    + destruct a; [reflexivity|discriminate].
    + rewrite <- E, is_prefix_app. reflexivity.
  - cbn [append PyStr.contains]. rewrite IH. apply orb_true_r.
Qed.

Lemma contains_elim (a s : string) :
  PyStr.contains a s = true -> exists p q, s = (p ++ a ++ q)%string.
Proof.
  induction s as [|x r IH]; cbn [PyStr.contains].
  - rewrite orb_false_r. intros H.
    destruct (PyStrFacts.prefix_strip _ _ H) as (t & _ & E). exists "", t. exact E.
  - destruct (PyStr.is_prefix a (String x r)) eqn:Hp.
    + intros _. destruct (PyStrFacts.prefix_strip _ _ Hp) as (t & _ & E).
      exists "", t. exact E.
    + simpl. intros H. destruct (IH H) as (p & q & ->).
      exists (String x p), q. reflexivity.
Qed.

(** A text that occurs in [b] occurs wherever [b] occurs. *)
Lemma contains_trans (a b c : string) :
  PyStr.contains a b = true -> PyStr.contains b c = true -> PyStr.contains a c = true.
Proof.
  intros Hab Hbc.
  destruct (contains_elim _ _ Hab) as (p & q & ->).
  destruct (contains_elim _ _ Hbc) as (p' & q' & ->).
  replace (p' ++ (p ++ a ++ q) ++ q')%string with ((p' ++ p) ++ a ++ (q ++ q'))%string
    by (rewrite !string_app_assoc; reflexivity).
  apply contains_intro.
Qed.

Lemma contains_app_false (a s t : string) :
  PyStr.contains a (s ++ t) = false -> PyStr.contains a s = false /\ PyStr.contains a t = false.
Proof.
  intros H. split.
  - destruct (PyStr.contains a s) eqn:E; [|reflexivity].
    destruct (contains_elim _ _ E) as (p & q & ->).
    rewrite !string_app_assoc, contains_intro in H. discriminate.
  - destruct (PyStr.contains a t) eqn:E; [|reflexivity].
    destruct (contains_elim _ _ E) as (p & q & ->).
    rewrite <- string_app_assoc, contains_intro in H. discriminate.
Qed.

Lemma contains_char_cons (c x : ascii) (r : string) :
  PyStr.contains (String c "") (String x r)
  = Ascii.eqb c x || PyStr.contains (String c "") r.
Proof. simpl. rewrite andb_true_r. reflexivity. Qed.

Lemma contains_char_app (c : ascii) (s t : string) :
  PyStr.contains (String c "") (s ++ t)
  = PyStr.contains (String c "") s || PyStr.contains (String c "") t.
Proof.
  induction s as [|x s IH].
  - simpl. reflexivity.
  - cbn [append]. rewrite !contains_char_cons, IH, orb_assoc. reflexivity.
Qed.

Lemma before_absent (sep s : string) :
  PyStr.contains sep s = false -> PyStr.before sep s = s.
Proof.
  induction s as [|x r IH]; cbn [PyStr.contains PyStr.before].
  - rewrite orb_false_r. intros ->. reflexivity.
  - destruct (PyStr.is_prefix sep (String x r)); [discriminate|].
    simpl. intros H. rewrite (IH H). reflexivity.
Qed.

Lemma before_char_app (c : ascii) (a b : string) :
  PyStr.contains (String c "") a = false ->
  PyStr.before (String c "") (a ++ String c b) = a.
Proof.
  induction a as [|x a IH].
  - intros _. simpl. rewrite Ascii.eqb_refl. reflexivity.
  - rewrite contains_char_cons. intros H. apply orb_false_elim in H as [Hx Ha].
    cbn [append PyStr.before PyStr.is_prefix]. rewrite Hx. simpl.
    rewrite (IH Ha). reflexivity.
Qed.

Lemma split1_char_app (c : ascii) (a b : string) :
  PyStr.contains (String c "") a = false ->
  PyStr.split1 (a ++ String c b) c = Some (a, b).
Proof.
  induction a as [|x a IH].
  - intros _. simpl. rewrite Ascii.eqb_refl. reflexivity.
  - rewrite contains_char_cons. intros H. apply orb_false_elim in H as [Hx Ha].
    cbn [append PyStr.split1]. rewrite Ascii.eqb_sym, Hx, (IH Ha). reflexivity.
Qed.

(** ** The loop over a sequence of items *)

Lemma prepend_prepend (o1 o2 : list OutRec) (x : Outcome) :
  prepend o1 (prepend o2 x) = prepend (o1 ++ o2) x.
Proof. destruct x; simpl; rewrite app_assoc; reflexivity. Qed.

Lemma stream_loop_app `{interp : Interp} (a b : list StreamItem) (st : State) :
  stream_loop (a ++ b) st =
  match stream_loop a st with
  | Continue st1 out1 => prepend out1 (stream_loop b st1)
  | Raise e out1 => Raise e out1
  end.
Proof.
  revert st; induction a as [|x a IH]; intros st; simpl.
  - destruct (stream_loop b st); reflexivity.
  - destruct (process_token (token_of x) st) as [st1 o1|e o1]; [|reflexivity].
    rewrite IH. destruct (stream_loop a st1) as [st2 o2|e o2]; simpl; [|reflexivity].
    apply prepend_prepend.
Qed.

Lemma generate_stream_written `{interp : Interp} (up : Upstream) :
  written (generate_stream up) = fst (sent (written (stream_records up))).
Proof.
  unfold generate_stream.
  destruct (sent (written (stream_records up))) as [w [e|]]; reflexivity.
Qed.

Lemma sent_extend `{interp : Interp} (a b : list OutRec) :
  exists rest, fst (sent (a ++ b)) = fst (sent a) ++ rest.
Proof.
  rewrite sent_app. destruct (snd (sent a)) as [e|] eqn:E.
  - exists []. now rewrite app_nil_r.
  - exists (fst (sent b)). simpl. now rewrite (sent_all a E).
Qed.

Lemma stream_records_extend `{interp : Interp}
      (a b : list StreamItem) (fail : option string) (msg : string) :
  exists more,
    written (stream_records {| chunks := a ++ b; failure := fail |})
    = written (stream_records {| chunks := a; failure := Some msg |}) ++ more.
Proof.
  unfold stream_records; simpl. rewrite stream_loop_app.
  destruct (stream_loop a initial) as [st out|e out]; simpl.
  - destruct (stream_loop b st) as [st2 out2|e2 out2]; simpl.
    + destruct fail; simpl; [exists out2; reflexivity|].
      exists (out2 ++ [final_record st2]). now rewrite app_assoc.
    + exists out2. reflexivity.
  - exists []. now rewrite app_nil_r.
Qed.

(** X1.  The records written for the items received so far are a prefix of
    the records written for any longer upstream sequence, however that one
    ends: what was sent to the client is never revised. *)
Theorem output_is_incremental `{interp : Interp}
        (a b : list StreamItem) (fail : option string) (msg : string) :
  exists rest,
    written (generate_stream {| chunks := a ++ b; failure := fail |})
    = written (generate_stream {| chunks := a; failure := Some msg |}) ++ rest.
Proof.
  rewrite !generate_stream_written.
  destruct (stream_records_extend a b fail msg) as [more ->].
  apply sent_extend.
Qed.

(** ** Tool calls announced while a status is active *)

Lemma active_tool_call_is_silent `{interp : Interp} (token : Token) (st : State) :
  is_tool_message (msg_type token) = false ->
  declares_tool_calls token = true ->
  tool_in_progress st = true ->
  process_token token st = Continue st [].
Proof.
  unfold declares_tool_calls, process_token, announce, finish. intros -> Hd Ht.
  destruct (truthy_list (tool_calls token)); [rewrite Ht; reflexivity|].
  simpl in Hd. rewrite Hd, Ht. reflexivity.
Qed.

(** X2.  An event that declares tool calls while a status is active is
    dropped whole, with its content and its response metadata: removing it
    from the upstream sequence changes nothing in what the generator writes
    or returns. *)
Theorem repeated_tool_call_is_dropped `{interp : Interp}
        (a b : list StreamItem) (item : StreamItem) (st : State) (out : list OutRec)
        (fail : option string) :
  stream_loop a initial = Continue st out ->
  tool_in_progress st = true ->
  is_tool_message (msg_type (token_of item)) = false ->
  declares_tool_calls (token_of item) = true ->
  generate_stream {| chunks := a ++ item :: b; failure := fail |}
  = generate_stream {| chunks := a ++ b; failure := fail |}.
Proof.
  intros Ha Ht Hm Hd. unfold generate_stream, stream_records; simpl.
  rewrite !stream_loop_app, Ha. simpl.
  rewrite (active_tool_call_is_silent _ _ Hm Hd Ht).
  destruct (stream_loop b st); reflexivity.
Qed.

Lemma repeated_tool_call_witness :
  generate_stream (interp := Sample.cpython)
    {| chunks :=
         [ItemBare (Sample.call_token "web_search")]
         ++ ItemBare Inputs.chatty_call_token
         :: [ItemBare (Sample.ai_token (ContentStr "hello"))];
       failure := None |}
  = {| written := [OStatus "🔎 Searching the web..."; StatusClear; OChunk "hello";
                   OFinal "hello" "assistant" [] true];
       raised := None |}.
Proof.
  rewrite (repeated_tool_call_is_dropped (interp := Sample.cpython)
             [ItemBare (Sample.call_token "web_search")]
             [ItemBare (Sample.ai_token (ContentStr "hello"))]
             (ItemBare Inputs.chatty_call_token)
             Sample.st_active [OStatus "🔎 Searching the web..."] None
             eq_refl eq_refl eq_refl eq_refl).
  reflexivity.
Defined.

(** ** Records with a property closed under concatenation *)

Section Writes.

Context `{interp : Interp}.
Variable P : list OutRec -> Prop.
Hypothesis P_nil : P [].
Hypothesis P_app : forall a b, P a -> P b -> P (a ++ b).

Lemma writes_skip : writes P skip.
Proof. intros st. exact P_nil. Qed.

Lemma writes_seq (a b : Step) : writes P a -> writes P b -> writes P (seq a b).
Proof.
  intros Ha Hb st. unfold seq.
  specialize (Ha st). destruct (a st) as [st1 o1].
  specialize (Hb st1). destruct (b st1) as [st2 o2]. simpl in *. auto.
Qed.

Lemma writes_for_each {A : Type} (l : list A) (body : A -> Step) :
  (forall x, writes P (body x)) -> writes P (for_each l body).
Proof.
  intros Hb. induction l as [|x l IH]; simpl;
    [apply writes_skip|apply writes_seq; auto].
Qed.

Hypothesis P_image : forall img, P [OImage img].
Hypothesis P_status : forall s, P [OStatus s].

Lemma writes_yield_image (img : image_data) : writes P (yield_image img).
Proof. intros st. apply P_image. Qed.

Lemma writes_announce (msg : string) : writes P (announce msg).
Proof.
  intros st. unfold announce. destruct (tool_in_progress st); simpl; auto.
Qed.

Lemma writes_clear_status : writes P clear_status.
Proof.
  intros st. unfold clear_status. destruct (tool_in_progress st); simpl; auto.
Qed.

Lemma writes_tool_result (token : Token) (st : State) :
  P (outcome_out (tool_result token st)).
Proof.
  rewrite tool_result_spec.
  destruct (content token) as [[s|blocks]|]; simpl; auto.
  destruct (_ && _ && _); simpl; auto.
  destruct (Json.loads s) as [v|e]; [|destruct e]; simpl; auto;
    destruct (Spec.tool_image_json s); simpl; auto.
Qed.

Lemma writes_images_only (f : Step) : images_only f -> writes P f.
Proof.
  intros Hf st. destruct (Hf st) as [imgs ->]. simpl.
  induction imgs as [|i imgs IH]; simpl; [exact P_nil|].
  change (OImage i :: map OImage imgs) with ([OImage i] ++ map OImage imgs). auto.
Qed.

Lemma writes_data_uri_image (url : string) : writes P (data_uri_image url).
Proof.
  intros st. unfold data_uri_image.
  destruct (PyStr.split1 url ",") as [[m b]|]; simpl; auto.
Qed.

Lemma writes_block_output (output : Output) : writes P (block_output output).
Proof.
  intros st. rewrite block_output_spec. simpl.
  induction (Spec.output_images output) as [|i imgs IH]; simpl; [exact P_nil|].
  change (OImage i :: map OImage imgs) with ([OImage i] ++ map OImage imgs). auto.
Qed.

Lemma writes_code_interpreter_block (b : BlockDict) :
  writes P (code_interpreter_block b).
Proof.
  unfold code_interpreter_block. cbv zeta.
  apply writes_seq; [|apply writes_seq].
  - destruct (get_or (b_outputs b) []); [apply writes_announce|apply writes_skip].
  - destruct (get_or (b_outputs b) []); [apply writes_skip|apply writes_clear_status].
  - apply writes_for_each, writes_block_output.
Qed.

Lemma writes_image_block (b : BlockDict) : writes P (image_block b).
Proof.
  unfold image_block. cbv zeta.
  destruct (PyStr.startswith _ _); [apply writes_data_uri_image|].
  destruct (PyStr.truthy _); [apply writes_yield_image|apply writes_skip].
Qed.

(** Chunks are written under a guard only: the text is not empty. *)
Hypothesis P_chunk : forall t, PyStr.truthy t = true -> P [OChunk t].

Lemma writes_guarded_chunk (text : string) :
  writes P (if PyStr.truthy text then yield_chunk text else skip).
Proof.
  destruct (PyStr.truthy text) eqn:E; [|apply writes_skip].
  intros st. simpl. auto.
Qed.

Lemma writes_process_block (block : Block) : writes P (process_block block).
Proof.
  unfold process_block. destruct block as [b|b]; cbv zeta.
  - destruct (is_str (b_type b) "text"); [apply writes_guarded_chunk|].
    destruct (is_str (b_type b) "reasoning"); [apply writes_skip|].
    destruct (is_str (b_type b) "server_tool_call"); [apply writes_announce|].
    destruct (is_str (b_type b) "server_tool_result"); [apply writes_clear_status|].
    destruct (is_str (b_type b) "code_interpreter_call");
      [apply writes_code_interpreter_block|].
    destruct (is_str (b_type b) "image"); [apply writes_image_block|apply writes_skip].
  - destruct (bo_text b) as [text|]; [apply writes_guarded_chunk|].
    destruct (is_str (bo_type b) "image"); [|apply writes_skip].
    destruct (PyStr.truthy _); [apply writes_yield_image|apply writes_skip].
Qed.

Lemma writes_process_token (token : Token) (st : State) :
  P (outcome_out (process_token token st)).
Proof.
  unfold process_token.
  destruct (is_tool_message _).
  { apply writes_tool_result. }
  destruct (truthy_list (tool_calls token)).
  { pose proof (writes_announce
                  (get_tool_status (map tool_call_name (get_or (tool_calls token) []))) st) as H.
    unfold finish. destruct (announce _ st); exact H. }
  destruct (truthy_list (kw_calls token)).
  { pose proof (writes_announce
                  (get_tool_status (map kw_tool_call_name (get_or (kw_calls token) []))) st) as H.
    unfold finish. destruct (announce _ st); exact H. }
  pose proof (writes_clear_status st) as H1.
  destruct (clear_status st) as [st1 out1]; simpl in H1.
  destruct (content token) as [c|]; [|exact H1].
  destruct (content_truthy c) eqn:Ec; simpl; [|exact H1].
  pose proof (writes_images_only _ (images_only_metadata token) st1) as H2.
  destruct (metadata_images token st1) as [st2 out2]; simpl in H2.
  destruct c as [s|blocks].
  - rewrite str_content_spec. cbv zeta.
    assert (H12 : P (out1 ++ out2)) by auto.
    destruct (Spec.image_json s); [simpl; auto|].
    destruct (_ && _); [|simpl; auto].
    destruct (Json.loads s) as [v|e]; [simpl; auto|].
    destruct e; simpl; rewrite ?app_nil_r; auto.
  - pose proof (writes_for_each blocks process_block writes_process_block st2) as H3.
    destruct (for_each blocks process_block st2) as [st3 out3]; simpl in *. auto.
Qed.

Lemma writes_stream_loop (items : list StreamItem) (st : State) :
  P (outcome_out (stream_loop items st)).
Proof.
  revert st; induction items as [|x items IH]; intros st; simpl; [exact P_nil|].
  pose proof (writes_process_token (token_of x) st) as H1.
  destruct (process_token (token_of x) st) as [st1 o1|e o1]; simpl in *; [|exact H1].
  specialize (IH st1). destruct (stream_loop items st1); simpl in *; auto.
Qed.

End Writes.

(** ** Chunks are never empty *)

Lemma chunk_list_app (o1 o2 : list OutRec) :
  chunk_list (o1 ++ o2) = chunk_list o1 ++ chunk_list o2.
Proof.
  induction o1 as [|r o1 IH]; simpl; [reflexivity|].
  destruct r; simpl; rewrite IH; reflexivity.
Qed.

Lemma chunk_text_join (out : list OutRec) : chunk_text out = join (chunk_list out).
Proof.
  induction out as [|r out IH]; simpl; [reflexivity|].
  destruct r; simpl; rewrite IH; reflexivity.
Qed.

Lemma chunks_nonempty_app (a b : list OutRec) :
  chunks_nonempty a -> chunks_nonempty b -> chunks_nonempty (a ++ b).
Proof.
  unfold chunks_nonempty. intros Ha Hb. rewrite chunk_list_app.
  apply Forall_app. split; assumption.
Qed.

Lemma chunks_nonempty_prefix (a b : list OutRec) :
  chunks_nonempty (a ++ b) -> chunks_nonempty a.
Proof.
  unfold chunks_nonempty. rewrite chunk_list_app. intros H.
  apply Forall_app in H. exact (proj1 H).
Qed.

Lemma chunks_nonempty_chunk (t : string) :
  PyStr.truthy t = true -> chunks_nonempty [OChunk t].
Proof.
  intros Ht. unfold chunks_nonempty. simpl. constructor; [|constructor].
  intros ->. discriminate.
Qed.

(** X3.  No chunk the generator writes is empty, whatever the upstream
    sequence holds and however it ends: empty strings and text blocks
    without text are skipped, never sent. *)
Theorem chunks_are_never_empty `{interp : Interp} (up : Upstream) :
  chunks_nonempty (written (generate_stream up)).
Proof.
  assert (H : chunks_nonempty (outcome_out (stream_loop (chunks up) initial))).
  { apply writes_stream_loop.
    - constructor.
    - apply chunks_nonempty_app.
    - intros img. constructor.
    - intros s. constructor.
    - apply chunks_nonempty_chunk. }
  assert (Hr : chunks_nonempty (written (stream_records up))).
  { unfold stream_records.
    destruct (stream_loop (chunks up) initial) as [st out|e out]; simpl in H; [|exact H].
    destruct (failure up); simpl; [exact H|].
    apply chunks_nonempty_app; [exact H|constructor]. }
  destruct (generate_stream_prefix up) as [rest E]. rewrite E in Hr.
  exact (chunks_nonempty_prefix _ _ Hr).
Qed.

(** ** The text and the images of an event do not depend on the state *)

Lemma seq_snd (a b : Step) (st : State) :
  snd (seq a b st) = snd (a st) ++ snd (b (fst (a st))).
Proof.
  unfold seq. destruct (a st) as [st1 o1]. simpl.
  destruct (b st1) as [st2 o2]. reflexivity.
Qed.

Lemma stateless_skip : stateless skip.
Proof. intros st st'. split; reflexivity. Qed.

Lemma stateless_seq (a b : Step) : stateless a -> stateless b -> stateless (seq a b).
Proof.
  intros Ha Hb st st'. rewrite !seq_snd, !chunk_list_app, !image_list_app.
  destruct (Ha st st') as [-> ->].
  destruct (Hb (fst (a st)) (fst (a st'))) as [-> ->]. split; reflexivity.
Qed.

Lemma stateless_for_each {A : Type} (l : list A) (body : A -> Step) :
  (forall x, stateless (body x)) -> stateless (for_each l body).
Proof.
  intros Hb. induction l as [|x l IH]; simpl;
    [apply stateless_skip|apply stateless_seq; auto].
Qed.

Lemma stateless_yield_image (img : image_data) : stateless (yield_image img).
Proof. intros st st'. split; reflexivity. Qed.

Lemma stateless_yield_chunk (text : string) : stateless (yield_chunk text).
Proof. intros st st'. split; reflexivity. Qed.

Lemma stateless_announce (msg : string) : stateless (announce msg).
Proof.
  intros st st'. unfold announce.
  destruct (tool_in_progress st), (tool_in_progress st'); split; reflexivity.
Qed.

Lemma stateless_clear_status : stateless clear_status.
Proof.
  intros st st'. unfold clear_status.
  destruct (tool_in_progress st), (tool_in_progress st'); split; reflexivity.
Qed.

Create HintDb stateless discriminated.
#[local] Hint Resolve stateless_skip stateless_seq stateless_for_each
  stateless_yield_image stateless_yield_chunk stateless_announce
  stateless_clear_status : stateless.

Ltac stateless_cases :=
  repeat match goal with
         | |- stateless (if ?c then _ else _) => destruct c
         | |- stateless (match ?x with _ => _ end) => destruct x
         | |- stateless (let _ := _ in _) => cbv zeta
         end;
  auto 6 with stateless.

Lemma stateless_tool_result `{interp : Interp} (token : Token) (st st' : State) :
  chunk_list (outcome_out (tool_result token st))
  = chunk_list (outcome_out (tool_result token st'))
  /\ image_list (outcome_out (tool_result token st))
     = image_list (outcome_out (tool_result token st')).
Proof.
  rewrite !tool_result_spec.
  destruct (content token) as [[s|blocks]|]; try (split; reflexivity).
  destruct (_ && _ && _); [|split; reflexivity].
  destruct (Json.loads s) as [v|e]; [|destruct e];
    try (split; reflexivity);
    destruct (Spec.tool_image_json s); split; reflexivity.
Qed.

Lemma stateless_str_content `{interp : Interp} (s : string) (st st' : State) :
  chunk_list (outcome_out (str_content s st))
  = chunk_list (outcome_out (str_content s st'))
  /\ image_list (outcome_out (str_content s st))
     = image_list (outcome_out (str_content s st')).
Proof.
  rewrite !str_content_spec. cbv zeta.
  destruct (Spec.image_json s); [split; reflexivity|].
  destruct (_ && _); [|split; reflexivity].
  destruct (Json.loads s) as [v|e]; [|destruct e]; split; reflexivity.
Qed.

Lemma stateless_metadata_images (token : Token) : stateless (metadata_images token).
Proof.
  unfold metadata_images. destruct (response_metadata token); auto with stateless.
  apply stateless_for_each. intros [o|]; simpl; auto with stateless.
  destruct (is_str (o_type o) "files").
  - apply stateless_for_each. intros f. unfold metadata_file. stateless_cases.
  - stateless_cases.
Qed.

Lemma stateless_data_uri_image (url : string) : stateless (data_uri_image url).
Proof.
  unfold data_uri_image.
  destruct (PyStr.split1 url ",") as [[m b]|]; auto with stateless.
Qed.

Lemma stateless_block_output (output : Output) : stateless (block_output output).
Proof.
  unfold block_output. destruct output as [o|]; auto with stateless.
  destruct (is_str (o_type o) "image"); auto with stateless.
  cbv zeta. destruct (PyStr.startswith _ _); [apply stateless_data_uri_image|].
  stateless_cases.
Qed.

Lemma stateless_process_block (block : Block) : stateless (process_block block).
Proof.
  unfold process_block. destruct block as [b|b]; cbv zeta.
  - destruct (is_str (b_type b) "text"); [stateless_cases|].
    destruct (is_str (b_type b) "reasoning"); [auto with stateless|].
    destruct (is_str (b_type b) "server_tool_call"); [auto with stateless|].
    destruct (is_str (b_type b) "server_tool_result"); [auto with stateless|].
    destruct (is_str (b_type b) "code_interpreter_call").
    { unfold code_interpreter_block. cbv zeta.
      apply stateless_seq; [|apply stateless_seq].
      - destruct (get_or (b_outputs b) []); auto with stateless.
      - destruct (get_or (b_outputs b) []); auto with stateless.
      - apply stateless_for_each, stateless_block_output. }
    destruct (is_str (b_type b) "image"); [|auto with stateless].
    unfold image_block. cbv zeta.
    destruct (PyStr.startswith _ _); [apply stateless_data_uri_image|].
    stateless_cases.
  - stateless_cases.
Qed.

Lemma finish_out (r : State * list OutRec) : outcome_out (finish r) = snd r.
Proof. destruct r; reflexivity. Qed.

Lemma prepend_out (o : list OutRec) (x : Outcome) :
  outcome_out (prepend o x) = o ++ outcome_out x.
Proof. destruct x; reflexivity. Qed.

Lemma process_token_out `{interp : Interp} (token : Token) (st : State) :
  outcome_out (process_token token st) =
  if is_tool_message (msg_type token) then outcome_out (tool_result token st)
  else if truthy_list (tool_calls token) then
    snd (announce (get_tool_status (map tool_call_name (get_or (tool_calls token) []))) st)
  else if truthy_list (kw_calls token) then
    snd (announce (get_tool_status (map kw_tool_call_name (get_or (kw_calls token) []))) st)
  else
    snd (clear_status st)
    ++ match content token with
       | None => []
       | Some c =>
           if content_truthy c then
             snd (metadata_images token (fst (clear_status st)))
             ++ match c with
                | ContentList blocks =>
                    snd (for_each blocks process_block
                           (fst (metadata_images token (fst (clear_status st)))))
                | ContentStr s =>
                    outcome_out
                      (str_content s (fst (metadata_images token (fst (clear_status st)))))
                end
           else []
       end.
Proof.
  unfold process_token.
  destruct (is_tool_message _); [reflexivity|].
  destruct (truthy_list (tool_calls token)); [apply finish_out|].
  destruct (truthy_list (kw_calls token)); [apply finish_out|].
  destruct (clear_status st) as [st1 out1]; simpl.
  destruct (content token) as [c|]; simpl; [|now rewrite app_nil_r].
  destruct (content_truthy c); simpl; [|now rewrite app_nil_r].
  destruct (metadata_images token st1) as [st2 out2]; simpl.
  destruct c as [s|blocks].
  - now rewrite prepend_out, <- app_assoc.
  - destruct (for_each blocks process_block st2) as [st3 out3]. reflexivity.
Qed.

Lemma process_token_stateless `{interp : Interp} (token : Token) (st st' : State) :
  chunk_list (outcome_out (process_token token st))
  = chunk_list (outcome_out (process_token token st'))
  /\ image_list (outcome_out (process_token token st))
     = image_list (outcome_out (process_token token st')).
Proof.
  rewrite !process_token_out.
  destruct (is_tool_message _); [apply stateless_tool_result|].
  destruct (truthy_list (tool_calls token)); [apply stateless_announce|].
  destruct (truthy_list (kw_calls token)); [apply stateless_announce|].
  rewrite !chunk_list_app, !image_list_app.
  destruct (stateless_clear_status st st') as [-> ->].
  destruct (content token) as [c|]; [|split; reflexivity].
  destruct (content_truthy c); [|split; reflexivity].
  rewrite !chunk_list_app, !image_list_app.
  destruct (stateless_metadata_images token (fst (clear_status st))
              (fst (clear_status st'))) as [-> ->].
  destruct c as [s|blocks].
  { destruct (stateless_str_content s
                (fst (metadata_images token (fst (clear_status st))))
                (fst (metadata_images token (fst (clear_status st'))))) as [-> ->].
    split; reflexivity. }
  destruct (stateless_for_each blocks process_block stateless_process_block
              (fst (metadata_images token (fst (clear_status st))))
              (fst (metadata_images token (fst (clear_status st'))))) as [-> ->].
  split; reflexivity.
Qed.

Lemma stream_loop_contributions `{interp : Interp}
      (items : list StreamItem) (st st' : State) (out : list OutRec) :
  stream_loop items st = Continue st' out ->
  chunk_text out = join (map (fun item => event_text (token_of item)) items)
  /\ image_list out = flat_map (fun item => event_images (token_of item)) items.
Proof.
  revert st out; induction items as [|x items IH]; intros st out; simpl.
  - intros E. injection E as _ <-. split; reflexivity.
  - destruct (process_token_stateless (token_of x) st initial) as [Hc Hi].
    destruct (process_token (token_of x) st) as [st1 o1|e o1]; [|discriminate].
    destruct (stream_loop items st1) as [st2 o2|e o2] eqn:E2; [|discriminate].
    simpl. intros E. injection E as <- <-.
    rewrite chunk_text_app, image_list_app.
    destruct (IH st1 o2 E2) as [-> ->].
    unfold event_text, event_images. simpl in Hc, Hi.
    rewrite !chunk_text_join, Hc, Hi. split; reflexivity.
Qed.

(** X4.  The chunks and images written for an event do not depend on the
    events before it nor on the status; and when the generator ends without
    an exception, the text and the images of the Done event are the
    concatenation, in upstream order, of what each event contributes on its
    own. *)
Theorem done_sums_event_contributions `{interp : Interp} (items : list StreamItem) :
  (forall (token : Token) (st : State),
      chunk_text (outcome_out (process_token token st)) = event_text token
      /\ image_list (outcome_out (process_token token st)) = event_images token)
  /\ (raised (generate_stream {| chunks := items; failure := None |}) = None ->
      exists body,
        written (generate_stream {| chunks := items; failure := None |})
        = body ++ [OFinal (join (map (fun item => event_text (token_of item)) items))
                          "assistant"
                          (flat_map (fun item => event_images (token_of item)) items)
                          true]).
Proof.
  split.
  - intros token st. unfold event_text, event_images.
    destruct (process_token_stateless token st initial) as [Hc Hi].
    rewrite !chunk_text_join, Hc, Hi. split; reflexivity.
  - intros Hr.
    destruct (generate_stream_exhausted items Hr) as (st & out & H & E & ->).
    destruct (stream_loop_contributions items initial st out E) as [Hc Hi].
    exists out. simpl. unfold final_record.
    rewrite (acc_text _ _ _ H), (acc_images _ _ _ H), Hc, Hi. reflexivity.
Qed.

(** ** A stream of plain text *)

Lemma plain_text_inv (token : Token) (s : string) :
  plain_text token = Some s ->
  is_tool_message (msg_type token) = false
  /\ truthy_list (tool_calls token) = false
  /\ truthy_list (kw_calls token) = false
  /\ content token = Some (ContentStr s)
  /\ PyStr.startswith s "{" = false
  /\ forall st, metadata_images token st = (st, []).
Proof.
  unfold plain_text, declares_tool_calls, metadata_images.
  destruct (is_tool_message _); [discriminate|].
  destruct (truthy_list (tool_calls token)); [discriminate|].
  destruct (truthy_list (kw_calls token)); [discriminate|].
  cbv beta iota delta [orb].
  destruct (response_metadata token) as [[cic top|]|];
    destruct (content token) as [[s'|blocks]|]; try discriminate.
  - destruct (metadata_outputs (MetaDict cic top)); [|discriminate].
    destruct (PyStr.startswith s' "{") eqn:Eb; [discriminate|].
    intros H; inversion H; subst. repeat split; reflexivity || assumption.
  - destruct (PyStr.startswith s' "{") eqn:Eb; [discriminate|].
    intros H; inversion H; subst. repeat split; reflexivity || assumption.
  - destruct (PyStr.startswith s' "{") eqn:Eb; [discriminate|].
    intros H; inversion H; subst. repeat split; reflexivity || assumption.
Qed.

Lemma plain_token_step `{interp : Interp} (token : Token) (st : State) (s : string) :
  plain_text token = Some s ->
  tool_in_progress st = false ->
  process_token token st =
  if PyStr.truthy s
  then Continue {| full_response := (full_response st ++ s)%string;
                   images := images st;
                   tool_in_progress := false |} [OChunk s]
  else Continue st [].
Proof.
  intros Hp Ht.
  destruct (plain_text_inv _ _ Hp) as (H1 & H2 & H3 & Hc & Hb & Hm).
  unfold process_token. rewrite H1, H2, H3, Hc. unfold clear_status. rewrite Ht.
  cbn [content_truthy]. destruct (PyStr.truthy s); [|reflexivity]. cbn [negb].
  rewrite Hm. unfold str_content. rewrite Hb. cbn [andb].
  unfold finish, yield_chunk. rewrite Ht. reflexivity.
Qed.

Lemma plain_text_loop `{interp : Interp}
      (items : list StreamItem) (texts : list string) (st : State) :
  tool_in_progress st = false ->
  map (fun item => plain_text (token_of item)) items = map Some texts ->
  stream_loop items st
  = Continue {| full_response := (full_response st ++ join texts)%string;
                images := images st;
                tool_in_progress := false |}
             (map OChunk (filter PyStr.truthy texts)).
Proof.
  revert texts st; induction items as [|x items IH]; intros texts st Ht Hm.
  - destruct texts; [|discriminate]. simpl.
    destruct st as [fr im tip]; simpl in *; subst tip.
    rewrite string_app_nil_r. reflexivity.
  - destruct texts as [|s texts]; [discriminate|]. simpl in Hm.
    inversion Hm as [[Hx Hrest]]. simpl.
    rewrite (plain_token_step _ _ _ Hx Ht).
    destruct (PyStr.truthy s) eqn:Es.
    + rewrite (IH texts {| full_response := (full_response st ++ s)%string;
                           images := images st;
                           tool_in_progress := false |} eq_refl Hrest). simpl.
      rewrite string_app_assoc. reflexivity.
    + rewrite (IH texts _ Ht Hrest). simpl.
      apply truthy_false in Es. subst s. reflexivity.
Qed.

(** X5.  When every event is a plain piece of assistant text, the generator
    writes one chunk for each text that is not empty, in order, then the
    Done event with all the texts concatenated and no image; it writes no
    status and does not raise. *)
Theorem plain_text_stream `{interp : Interp}
        (items : list StreamItem) (texts : list string) :
  map (fun item => plain_text (token_of item)) items = map Some texts ->
  generate_stream {| chunks := items; failure := None |}
  = {| written := map OChunk (filter PyStr.truthy texts)
                  ++ [OFinal (join texts) "assistant" [] true];
       raised := None |}.
Proof.
  intros Hm.
  assert (E : stream_records {| chunks := items; failure := None |}
              = {| written := map OChunk (filter PyStr.truthy texts)
                              ++ [OFinal (join texts) "assistant" [] true];
                   raised := None |}).
  { unfold stream_records; simpl.
    rewrite (plain_text_loop items texts initial eq_refl Hm). reflexivity. }
  rewrite generate_stream_flat; [exact E|]. rewrite E. simpl.
  rewrite forallb_app. simpl. rewrite andb_true_r.
  apply forallb_forall. intros r Hr.
  apply in_map_iff in Hr as (t & <- & _). reflexivity.
Qed.

Lemma plain_text_stream_witness :
  generate_stream (interp := Sample.cpython)
    {| chunks := [ItemBare (Sample.ai_token (ContentStr "Hel"));
                  ItemBare (Sample.ai_token (ContentStr ""));
                  ItemTuple (Sample.ai_token (ContentStr "lo")) JNull];
       failure := None |}
  = {| written := [OChunk "Hel"; OChunk "lo"; OFinal "Hello" "assistant" [] true];
       raised := None |}.
Proof.
  exact (plain_text_stream (interp := Sample.cpython)
           [ItemBare (Sample.ai_token (ContentStr "Hel"));
            ItemBare (Sample.ai_token (ContentStr ""));
            ItemTuple (Sample.ai_token (ContentStr "lo")) JNull]
           ["Hel"; ""; "lo"] eq_refl).
Defined.

(** ** The chunks of a list of content blocks *)







(** ** Image blocks *)

Lemma direct_image_step (b64 : string) (fmt : option string) (st : State) :
  (if PyStr.truthy b64
   then yield_image {| base64 := JStr b64; format := JStr (get_or fmt "png") |}
   else skip) st
  = (add_images st (Spec.direct_images b64 fmt),
     map OImage (Spec.direct_images b64 fmt)).
Proof.
  unfold Spec.direct_images. destruct (PyStr.truthy b64); [reflexivity|].
  unfold skip. simpl. now rewrite add_images_nil.
Qed.

(** X7.  A block of type [image] yields at most one image and touches
    neither the text nor the status.  A [dict] block gives the payload of
    its data URI, when [url] starts with [data:image/] and has a comma, and
    otherwise its [base64] when that is not empty; an object block, which
    has no [text] attribute, gives its [base64], or else its [data], when
    not empty.  The format defaults to [png]. *)
Theorem image_block_extraction (b : BlockDict) (o : BlockObj) (st : State) :
  b_type b = Some "image" ->
  bo_text o = None ->
  bo_type o = Some "image" ->
  let url := get_or (b_url b) "" in
  let imgs :=
    if PyStr.startswith url "data:image/"
    then Spec.data_uri_images url
    else Spec.direct_images (get_or (b_base64 b) "") (b_format b) in
  let imgs' :=
    Spec.direct_images (get_or (bo_base64 o) (get_or (bo_data o) "")) (bo_format o) in
  process_block (BDict b) st = (add_images st imgs, map OImage imgs)
  /\ process_block (BObj o) st = (add_images st imgs', map OImage imgs')
  /\ length imgs <= 1 /\ length imgs' <= 1.
Proof.
  intros Hb Ht Ho. cbv zeta. split; [|split; [|split]].
  - unfold process_block. rewrite Hb. cbn [is_str String.eqb Ascii.eqb Bool.eqb].
    unfold image_block. cbv zeta.
    destruct (PyStr.startswith _ _) eqn:Eu; [now apply data_uri_image_spec|].
    apply direct_image_step.
  - unfold process_block. rewrite Ht, Ho. cbn [is_str String.eqb Ascii.eqb Bool.eqb].
    cbv zeta. apply direct_image_step.
  - destruct (PyStr.startswith _ _).
    + unfold Spec.data_uri_images. destruct (PyStr.contains _ _); simpl; lia.
    + unfold Spec.direct_images. destruct (PyStr.truthy _); simpl; lia.
  - unfold Spec.direct_images. destruct (PyStr.truthy _); simpl; lia.
Qed.

Lemma image_block_witness :
  process_block (BDict (Inputs2.image_url_block "data:image/gif;base64,R0lG"))
                Sample.st_active
  = (add_images Sample.st_active [{| base64 := JStr "R0lG"; format := JStr "gif" |}],
     [OImage {| base64 := JStr "R0lG"; format := JStr "gif" |}])
  /\ process_block (BObj (Inputs2.image_data_object "QUJD")) Sample.st_active
     = (add_images Sample.st_active [{| base64 := JStr "QUJD"; format := JStr "png" |}],
        [OImage {| base64 := JStr "QUJD"; format := JStr "png" |}]).
Proof.
  destruct (image_block_extraction
              (Inputs2.image_url_block "data:image/gif;base64,R0lG")
              (Inputs2.image_data_object "QUJD") Sample.st_active
              eq_refl eq_refl eq_refl) as (H1 & H2 & _).
  split; [exact H1|exact H2].
Defined.

(** ** Data URIs *)

Lemma contains_slash_of_image (s : string) :
  PyStr.contains "/" s = false -> PyStr.contains "image/" s = false.
Proof.
  intros H. destruct (PyStr.contains "image/" s) eqn:E; [|reflexivity].
  rewrite (contains_trans "/" "image/" s eq_refl E) in H. discriminate.
Qed.

Lemma data_uri_images_of_data_uri (fmt payload : string) :
  PyStr.contains "," fmt = false ->
  PyStr.contains ";" fmt = false ->
  PyStr.contains "/" fmt = false ->
  PyStr.startswith (data_uri fmt payload) "data:image/" = true
  /\ Spec.data_uri_images (data_uri fmt payload)
     = [{| base64 := JStr payload; format := JStr fmt |}].
Proof.
  intros Hc Hs Hl. split; [reflexivity|].
  assert (Eu : data_uri fmt payload
               = (("data:image/" ++ fmt ++ ";base64") ++ String "," payload)%string).
  { unfold data_uri. rewrite !string_app_assoc. reflexivity. }
  assert (Hm : PyStr.contains "," ("data:image/" ++ fmt ++ ";base64") = false).
  { change "data:image/"%string with ("data:image/" ++ "")%string.
    rewrite !contains_char_app, Hc. reflexivity. }
  pose proof (split1_char_app "," _ payload Hm) as Es. rewrite <- Eu in Es.
  apply PyStrFacts.split1_some in Es as (Hin & Hb & Ha).
  unfold Spec.data_uri_images. rewrite Hin, <- Hb, <- Ha.
  assert (Ef : PyStr.after "image/" ("data:image/" ++ fmt ++ ";base64")
               = (fmt ++ ";base64")%string) by reflexivity.
  rewrite Ef.
  rewrite (before_absent "image/" (fmt ++ ";base64")).
  - change (fmt ++ ";base64")%string with (fmt ++ String ";" "base64")%string.
    rewrite (before_char_app ";" fmt "base64" Hs). reflexivity.
  - apply contains_slash_of_image. rewrite contains_char_app, Hl. reflexivity.
Qed.

(** X8.  Reading a data URI gives back what it was built from: for a
    format without comma, semicolon or slash, the URI
    [data:image/<format>;base64,<payload>] yields exactly one image with
    that payload, commas included, and that format, in an output of a
    [code_interpreter_call] block as in a block of type [image]. *)
Theorem data_uri_round_trip (fmt payload : string) (st : State) :
  PyStr.contains "," fmt = false ->
  PyStr.contains ";" fmt = false ->
  PyStr.contains "/" fmt = false ->
  let img := {| base64 := JStr payload; format := JStr fmt |} in
  block_output (Sample.url_output (data_uri fmt payload)) st
  = (add_images st [img], [OImage img])
  /\ process_block (BDict (Inputs2.image_url_block (data_uri fmt payload))) st
     = (add_images st [img], [OImage img]).
Proof.
  intros Hc Hs Hl. cbv zeta.
  destruct (data_uri_images_of_data_uri fmt payload Hc Hs Hl) as [Hu Hi].
  split.
  - rewrite block_output_spec. unfold Spec.output_images, Sample.url_output.
    cbn [o_type o_url is_str get_or String.eqb Ascii.eqb Bool.eqb].
    rewrite Hu, Hi. reflexivity.
  - unfold process_block, Inputs2.image_url_block.
    cbn [b_type is_str String.eqb Ascii.eqb Bool.eqb].
    unfold image_block. cbn [b_url get_or]. rewrite Hu.
    rewrite (data_uri_image_spec _ st Hu), Hi. reflexivity.
Qed.

Lemma data_uri_round_trip_witness :
  block_output (Sample.url_output "data:image/svg+xml;base64,PHN2,Zz4=") initial
  = (add_images initial [{| base64 := JStr "PHN2,Zz4="; format := JStr "svg+xml" |}],
     [OImage {| base64 := JStr "PHN2,Zz4="; format := JStr "svg+xml" |}]).
Proof.
  exact (proj1 (data_uri_round_trip "svg+xml" "PHN2,Zz4=" initial
                  eq_refl eq_refl eq_refl)).
Defined.

(** ** Files of the response metadata *)

Lemma split_go_some (sep s : string) (k : nat) (cur : string) :
  exists y ys, PyStr.split_go sep s k cur = y :: ys.
Proof.
  revert k cur; induction s as [|x s IH]; intros k cur; simpl; [eauto|].
  destruct k; [|apply IH].
  destruct (PyStr.is_prefix sep (String x s)); [eauto|apply IH].
Qed.

Lemma last_cons_some (y : string) (l : list string) (d : string) :
  l <> [] -> last (y :: l) d = last l d.
Proof. destruct l; [congruence|reflexivity]. Qed.

Lemma split_go_char_absent (c : ascii) (s cur : string) :
  PyStr.contains (String c "") s = false ->
  PyStr.split_go (String c "") s 0 cur = [(PyStr.rev_string "" cur ++ s)%string].
Proof.
  revert cur; induction s as [|x s IH]; intros cur.
  - intros _. simpl. now rewrite string_app_nil_r.
  - rewrite contains_char_cons. intros H. apply orb_false_elim in H as [Hx Hs].
    cbn [PyStr.split_go PyStr.is_prefix]. rewrite Hx. cbn [andb].
    rewrite (IH _ Hs). cbn [PyStr.rev_string].
    rewrite (PyStrFacts.rev_string_acc (String x "")), string_app_assoc. reflexivity.
Qed.

Lemma split_char_last (c : ascii) (a f cur : string) :
  PyStr.contains (String c "") f = false ->
  last (PyStr.split_go (String c "") (a ++ String c f) 0 cur) "" = f.
Proof.
  intros Hf. revert cur; induction a as [|x a IH]; intros cur.
  - cbn [append PyStr.split_go PyStr.is_prefix]. rewrite Ascii.eqb_refl. cbn [andb].
    cbn [String.length Nat.sub].
    rewrite (split_go_char_absent c f "" Hf). reflexivity.
  - cbn [append PyStr.split_go PyStr.is_prefix]. cbn [String.length Nat.sub].
    destruct (Ascii.eqb c x); cbn [andb].
    + rewrite last_cons_some; [apply IH|].
      destruct (split_go_some (String c "") (a ++ String c f) 0 "") as (y & ys & ->).
      discriminate.
    + apply IH.
Qed.

(** X9.  A file of the response metadata whose [mime_type] contains [image]
    yields one image whose format is the part of the [mime_type] after its
    last slash, whatever precedes that slash. *)
Theorem file_format_is_last_segment (data kind sub : string) (st : State) :
  PyStr.contains "/" sub = false ->
  PyStr.contains "image" (kind ++ "/" ++ sub) = true ->
  metadata_file
    {| file_data := Some data; mime_type := Some (kind ++ "/" ++ sub)%string |} st
  = (add_images st [{| base64 := JStr data; format := JStr sub |}],
     [OImage {| base64 := JStr data; format := JStr sub |}]).
Proof.
  intros Hs Hi. unfold metadata_file. cbn [mime_type file_data get_or].
  rewrite Hi. unfold PyStr.split.
  change (kind ++ "/" ++ sub)%string with (kind ++ String "/" sub)%string.
  rewrite (split_char_last "/" kind sub "" Hs). reflexivity.
Qed.

Lemma file_format_witness :
  metadata_file
    {| file_data := Some "QUJD"; mime_type := Some "application/x-image/svg+xml" |}
    initial
  = (add_images initial [{| base64 := JStr "QUJD"; format := JStr "svg+xml" |}],
     [OImage {| base64 := JStr "QUJD"; format := JStr "svg+xml" |}]).
Proof.
  exact (file_format_is_last_segment "QUJD" "application/x-image" "svg+xml" initial
           eq_refl eq_refl).
Defined.

(** * The tool-status classifier, further *)

Lemma status_of_name_fixed (name : pyname) (label : string) :
  status_of_name name = Some label -> In label fixed_labels.
Proof.
  unfold status_of_name, fixed_labels.
  repeat match goal with
         | |- context [if ?c then _ else _] => destruct c
         end;
    intros H; inversion H; simpl; tauto.
Qed.

Lemma first_status_fixed (names : list pyname) (label : string) :
  first_status names = Some label -> In label fixed_labels.
Proof.
  induction names as [|n names IH]; simpl; [discriminate|].
  destruct (status_of_name n) eqn:E; [|exact IH].
  intros H; inversion H; subst. eapply status_of_name_fixed; eauto.
Qed.

Lemma first_status_app (a b : list pyname) :
  first_status (a ++ b) =
  match first_status a with
  | Some label => Some label
  | None => first_status b
  end.
Proof.
  induction a as [|n a IH]; simpl; [reflexivity|].
  destruct (status_of_name n); [reflexivity|exact IH].
Qed.

(** X10.  The label of any list of names is one of six fixed labels or the
    default label around the first name; it always ends with an ellipsis
    and is never the empty text that clears the status. *)
Theorem tool_status_is_a_label (names : list pyname) :
  (In (get_tool_status names) fixed_labels
   \/ get_tool_status names
      = ("⚙️ Using " ++ match names with n :: _ => pyname_str n | [] => "tool" end
                     ++ "...")%string)
  /\ (exists body, get_tool_status names = (body ++ "...")%string)
  /\ get_tool_status names <> "".
Proof.
  unfold get_tool_status.
  destruct (first_status names) as [label|] eqn:E.
  - pose proof (first_status_fixed _ _ E) as Hin. split; [left; exact Hin|]. split.
    + unfold fixed_labels in Hin. simpl in Hin.
      destruct Hin as [<-|[<-|[<-|[<-|[<-|[<-|[]]]]]]];
        [exists "🔍 Searching products"|exists "🔍 Querying database"
        |exists "⏰ Getting current time"|exists "🎨 Generating image"
        |exists "🔎 Searching the web"|exists "💻 Running code"]; reflexivity.
    + intros ->. pose proof (first_status_truthy _ _ E). discriminate.
  - split; [right; reflexivity|]. split; [|discriminate].
    eexists. rewrite <- string_app_assoc. reflexivity.
Qed.

(** X11.  The first name that matches a rule decides: names after it never
    change the label, and names before it that match no rule are passed
    over.  Only when no name matches does the first name show, in the
    default label. *)
Theorem first_matching_name_decides (a b : list pyname) (label : string) :
  first_status a = Some label ->
  get_tool_status (a ++ b) = label
  /\ (forall skipped,
        first_status skipped = None -> get_tool_status (skipped ++ a ++ b) = label)
  /\ (forall n skipped,
        first_status (n :: skipped) = None ->
        get_tool_status (n :: skipped)
        = ("⚙️ Using " ++ pyname_str n ++ "...")%string).
Proof.
  intros Ha. unfold get_tool_status. split; [|split].
  - rewrite first_status_app, Ha. reflexivity.
  - intros skipped Hs. rewrite !first_status_app, Hs, Ha. reflexivity.
  - intros n skipped Hn. rewrite Hn. reflexivity.
Qed.

Lemma first_matching_name_witness :
  get_tool_status ([Some "lookup"; None; Some "Web_Search"] ++ [Some "semantic_search"])
  = "🔎 Searching the web...".
Proof.
  exact (proj1 (proj2 (first_matching_name_decides
                         [Some "Web_Search"] [Some "semantic_search"]
                         "🔎 Searching the web..." eq_refl))
           [Some "lookup"; None] eq_refl).
Defined.

(** * Configuration read from the environment *)

Lemma endswith_app (a suffix : string) : PyText.endswith (a ++ suffix) suffix = true.
Proof.
  induction a as [|x a IH].
  - destruct suffix; simpl; [reflexivity|].
    rewrite Ascii.eqb_refl, String.eqb_refl. reflexivity.
  - cbn [append PyText.endswith]. rewrite IH. apply orb_true_r.
Qed.

Lemma endswith_elim (s suffix : string) :
  PyText.endswith s suffix = true -> exists a, s = (a ++ suffix)%string.
Proof.
  induction s as [|x s IH]; cbn [PyText.endswith].
  - rewrite orb_false_r. intros H. apply String.eqb_eq in H. subst. exists "". reflexivity.
  - destruct (String.eqb (String x s) suffix) eqn:E.
    + intros _. apply String.eqb_eq in E. subst. exists "". reflexivity.
    + simpl. intros H. destruct (IH H) as [a ->]. exists (String x a). reflexivity.
Qed.

Lemma rstrip_keeps (a : string) (y c : ascii) :
  Ascii.eqb y c = false ->
  PyText.rstrip (a ++ String y "") c = (a ++ String y "")%string.
Proof.
  intros Hy. induction a as [|x a IH].
  - simpl. rewrite Hy. reflexivity.
  - cbn [append PyText.rstrip]. rewrite IH.
    destruct (a ++ String y "")%string eqn:E; [destruct a; discriminate|reflexivity].
Qed.

Lemma rstrip_app_char (u : string) (c : ascii) :
  PyText.rstrip (u ++ String c "") c = PyText.rstrip u c.
Proof.
  induction u as [|x u IH].
  - simpl. rewrite Ascii.eqb_refl. reflexivity.
  - cbn [append PyText.rstrip]. rewrite IH. reflexivity.
Qed.

Lemma rstrip_suffix_mcp (a : string) :
  PyText.rstrip (a ++ "/mcp") "/" = (a ++ "/mcp")%string.
Proof.
  replace (a ++ "/mcp")%string with ((a ++ "/mc") ++ "p")%string
    by (rewrite string_app_assoc; reflexivity).
  apply rstrip_keeps. reflexivity.
Qed.

Lemma rstrip_suffix_v1 (a : string) :
  PyText.rstrip (a ++ "/openai/v1") "/" = (a ++ "/openai/v1")%string.
Proof.
  replace (a ++ "/openai/v1")%string with ((a ++ "/openai/v") ++ "1")%string
    by (rewrite string_app_assoc; reflexivity).
  apply rstrip_keeps. reflexivity.
Qed.

Lemma mcp_server_url_ends (env : option string) :
  exists a, mcp_server_url env = (a ++ "/mcp")%string.
Proof.
  unfold mcp_server_url. cbv zeta.
  destruct (PyText.endswith _ "/mcp") eqn:E; simpl; [|eauto].
  apply endswith_elim in E. exact E.
Qed.

(** X12.  The MCP server URL always ends with [/mcp] and never with a
    slash; computing it again from its own value changes nothing, and
    trailing slashes in the variable do not matter. *)
Theorem mcp_server_url_normal (env : option string) (u : string) :
  PyText.endswith (mcp_server_url env) "/mcp" = true
  /\ PyText.endswith (mcp_server_url env) "/" = false
  /\ mcp_server_url (Some (mcp_server_url env)) = mcp_server_url env
  /\ mcp_server_url (Some (u ++ "/")%string) = mcp_server_url (Some u)
  /\ mcp_server_url None = "http://localhost:8000/mcp".
Proof.
  destruct (mcp_server_url_ends env) as [a Ea].
  split; [rewrite Ea; apply endswith_app|]. split; [|split; [|split]].
  - destruct (PyText.endswith (mcp_server_url env) "/") eqn:E; [|reflexivity].
    apply endswith_elim in E as [b Eb].
    pose proof (rstrip_suffix_mcp a) as H1. rewrite <- Ea, Eb in H1.
    pose proof (rstrip_app_char b "/") as H2. rewrite H1 in H2.
    assert (Hl : String.length (b ++ "/") = S (String.length b)).
    { clear. induction b; simpl; congruence. }
    assert (Hr : forall s, String.length (PyText.rstrip s "/") <= String.length s).
    { clear. induction s as [|x s IH]; simpl; [lia|].
      destruct (PyText.rstrip s "/"); [destruct (Ascii.eqb x "/")|]; simpl in *; lia. }
    specialize (Hr b). rewrite <- H2, Hl in Hr. lia.
  - unfold mcp_server_url at 1. cbn [get_or]. cbv zeta.
    rewrite Ea, rstrip_suffix_mcp, endswith_app. reflexivity.
  - unfold mcp_server_url. cbn [get_or]. rewrite rstrip_app_char. reflexivity.
  - reflexivity.
Qed.

Lemma openai_endpoint_cases (env : option string) :
  openai_endpoint env = ""
  \/ exists a, openai_endpoint env = (a ++ "/openai/v1")%string.
Proof.
  unfold openai_endpoint. cbv zeta.
  destruct (PyStr.truthy _) eqn:Et; simpl.
  - right. destruct (PyText.endswith _ "/openai/v1") eqn:E; simpl; [|eauto].
    apply endswith_elim in E. exact E.
  - left. apply truthy_false. exact Et.
Qed.

(** X13.  The OpenAI endpoint is empty, when the variable is unset, empty or
    made of slashes only, and otherwise ends with [/openai/v1]; computing
    it again from its own value changes nothing, and trailing slashes in
    the variable do not matter. *)
Theorem openai_endpoint_normal (env : option string) (u : string) :
  (openai_endpoint env = "" <-> PyText.rstrip (get_or env "") "/" = "")
  /\ (openai_endpoint env <> "" ->
      PyText.endswith (openai_endpoint env) "/openai/v1" = true)
  /\ openai_endpoint (Some (openai_endpoint env)) = openai_endpoint env
  /\ openai_endpoint (Some (u ++ "/")%string) = openai_endpoint (Some u)
  /\ openai_endpoint None = "".
Proof.
  split; [|split; [|split; [|split]]].
  - unfold openai_endpoint. cbv zeta.
    destruct (PyText.rstrip (get_or env "") "/") as [|x r] eqn:E; [simpl; tauto|].
    cbn [PyStr.truthy andb].
    destruct (negb (PyText.endswith (String x r) "/openai/v1")); simpl; split;
      intros H; discriminate H.
  - intros Hne. destruct (openai_endpoint_cases env) as [E|[a E]]; [contradiction|].
    rewrite E. apply endswith_app.
  - destruct (openai_endpoint_cases env) as [E|[a E]]; rewrite E.
    + reflexivity.
    + unfold openai_endpoint. cbn [get_or]. cbv zeta.
      rewrite rstrip_suffix_v1, endswith_app. cbn [negb]. rewrite andb_false_r.
      reflexivity.
  - unfold openai_endpoint. cbn [get_or]. rewrite rstrip_app_char. reflexivity.
  - reflexivity.
Qed.

(** * The chat endpoint *)

Lemma history_messages_error (history : list HistoryEntry) (e : Raised) :
  history_messages history = inl e -> e = KeyError "role" \/ e = KeyError "content".
Proof.
  induction history as [|msg rest IH]; simpl; [discriminate|].
  destruct (h_role msg); [|intros H; inversion H; auto].
  destruct (h_content msg); [|intros H; inversion H; auto].
  destruct (history_messages rest) as [e'|msgs]; [|discriminate].
  intros H; inversion H; subst. apply IH. reflexivity.
Qed.

Lemma history_messages_complete (history : list HistoryEntry) :
  forallb complete_entry history = true ->
  history_messages history = inr (map entry_message history).
Proof.
  induction history as [|msg rest IH]; simpl; [reflexivity|].
  unfold complete_entry at 1, entry_message at 1.
  destruct (h_role msg), (h_content msg); try discriminate.
  simpl. intros H. rewrite (IH H). reflexivity.
Qed.

Lemma history_messages_incomplete (pre post : list HistoryEntry) (msg : HistoryEntry) :
  forallb complete_entry pre = true ->
  complete_entry msg = false ->
  history_messages (pre ++ msg :: post)
  = inl (KeyError (match h_role msg with None => "role" | Some _ => "content" end)).
Proof.
  intros Hpre Hmsg. induction pre as [|p pre IH]; simpl.
  - unfold complete_entry in Hmsg.
    destruct (h_role msg), (h_content msg); try discriminate; reflexivity.
  - simpl in Hpre. apply andb_prop in Hpre as [Hp Hpre].
    unfold complete_entry in Hp.
    destruct (h_role p), (h_content p); try discriminate.
    rewrite (IH Hpre). reflexivity.
Qed.

Lemma forallb_split_first {A : Type} (f : A -> bool) (l : list A) :
  forallb f l = false ->
  exists pre x post, l = pre ++ x :: post /\ forallb f pre = true /\ f x = false.
Proof.
  induction l as [|x l IH]; simpl; [discriminate|].
  destruct (f x) eqn:E.
  - simpl. intros H. destruct (IH H) as (pre & y & post & -> & Hp & Hy).
    exists (x :: pre), y, post. simpl. rewrite E. auto.
  - intros _. exists [], x, l. auto.
Qed.

(** X14.  The endpoint starts a stream exactly when the body could be read,
    the message is not empty, the agent could be built and every history
    entry has its [role] and its [content]; the agent then receives the
    history entries in order, reduced to these two keys, followed by the
    user message. *)
Theorem stream_starts_exactly_when_valid `{interp : Interp}
        (body : Raised + ChatRequest)
        (setup : Raised + (list Message -> Upstream)) :
  (status_of (chat_endpoint body setup) = None
   <-> exists req agent,
         body = inr req /\ setup = inr agent
         /\ get_or (req_message req) "" <> ""
         /\ forallb complete_entry (get_or (req_history req) []) = true)
  /\ forall req agent,
       body = inr req -> setup = inr agent ->
       get_or (req_message req) "" <> "" ->
       forallb complete_entry (get_or (req_history req) []) = true ->
       chat_endpoint body setup
       = StreamingResponse
           (generate_stream
              (agent (map entry_message (get_or (req_history req) [])
                      ++ [{| role := "user";
                             m_content := get_or (req_message req) "" |}])))
           "application/json".
Proof.
  assert (Hok : forall req agent,
             get_or (req_message req) "" <> "" ->
             forallb complete_entry (get_or (req_history req) []) = true ->
             chat_endpoint (inr req) (inr agent)
             = StreamingResponse
                 (generate_stream
                    (agent (map entry_message (get_or (req_history req) [])
                            ++ [{| role := "user";
                                   m_content := get_or (req_message req) "" |}])))
                 "application/json").
  { intros req agent Hm Hh. unfold chat_endpoint, build_messages. cbv zeta.
    rewrite (truthy_true _ Hm). cbn [negb].
    rewrite (history_messages_complete _ Hh). reflexivity. }
  split.
  - split.
    + destruct body as [e|req]; [destruct e; discriminate|].
      unfold chat_endpoint. cbv zeta.
      destruct (PyStr.truthy (get_or (req_message req) "")) eqn:Et; [|discriminate].
      cbn [negb].
      destruct setup as [e|agent]; [destruct e; discriminate|].
      unfold build_messages.
      destruct (forallb complete_entry (get_or (req_history req) [])) eqn:Eh.
      * intros _. exists req, agent.
        split; [reflexivity|]. split; [reflexivity|]. split; [|exact Eh].
        intros E. rewrite E in Et. discriminate.
      * destruct (forallb_split_first _ _ Eh) as (pre & x & post & -> & Hp & Hx).
        rewrite (history_messages_incomplete pre post x Hp Hx). discriminate.
    + intros (req & agent & -> & -> & Hm & Hh). rewrite (Hok req agent Hm Hh).
      reflexivity.
  - intros req agent -> -> Hm Hh. apply Hok; assumption.
Qed.

(** X15.  A history entry without [role] or [content] is answered as an
    internal error that names the first missing key of the first such
    entry, and only after the agent was built: the status is 500, not 400. *)
Theorem incomplete_history_is_internal_error `{interp : Interp}
        (req : ChatRequest) (agent : list Message -> Upstream)
        (pre post : list HistoryEntry) (msg : HistoryEntry) :
  get_or (req_message req) "" <> "" ->
  req_history req = Some (pre ++ msg :: post) ->
  forallb complete_entry pre = true ->
  complete_entry msg = false ->
  chat_endpoint (inr req) (inr agent)
  = JSONResponse
      ("Internal server error: '"
       ++ match h_role msg with None => "role" | Some _ => "content" end ++ "'")
      500
  /\ forall e, chat_endpoint (inr req) (inl e) = error_response e.
Proof.
  intros Hm Hh Hp Hx. unfold chat_endpoint, build_messages. cbv zeta.
  rewrite (truthy_true _ Hm), Hh. cbn [negb get_or].
  rewrite (history_messages_incomplete pre post msg Hp Hx).
  split; [|reflexivity]. destruct (h_role msg); reflexivity.
Qed.

Lemma incomplete_history_witness :
  chat_endpoint (interp := Sample.cpython)
    (inr {| req_message := Some "hi";
            req_history :=
              Some [{| h_role := Some "user"; h_content := Some "a" |};
                    {| h_role := Some "assistant"; h_content := None |};
                    {| h_role := None; h_content := None |}] |})
    (inr (fun _ => {| chunks := []; failure := None |}))
  = JSONResponse "Internal server error: 'content'" 500.
Proof.
  exact (proj1 (incomplete_history_is_internal_error (interp := Sample.cpython)
                  {| req_message := Some "hi";
                     req_history :=
                       Some [{| h_role := Some "user"; h_content := Some "a" |};
                             {| h_role := Some "assistant"; h_content := None |};
                             {| h_role := None; h_content := None |}] |}
                  (fun _ => {| chunks := []; failure := None |})
                  [{| h_role := Some "user"; h_content := Some "a" |}]
                  [{| h_role := None; h_content := None |}]
                  {| h_role := Some "assistant"; h_content := None |}
                  ltac:(discriminate) eq_refl eq_refl eq_refl)).
Defined.

(** X16.  The endpoint answers with status 400 in exactly three cases: the
    body could not be read because of a [ValueError] (malformed JSON), the
    message is missing or empty, whatever else the request holds and
    whether or not the agent can be built, or building the agent raised a
    [ValueError].  Every other failure is a 500. *)
Theorem client_error_cases `{interp : Interp}
        (body : Raised + ChatRequest)
        (setup : Raised + (list Message -> Upstream)) :
  (status_of (chat_endpoint body setup) = Some 400
   <-> (exists text, body = inl (ValueError text))
       \/ (exists req, body = inr req /\ get_or (req_message req) "" = "")
       \/ (exists req text,
             body = inr req /\ get_or (req_message req) "" <> ""
             /\ setup = inl (ValueError text)))
  /\ (status_of (chat_endpoint body setup) = None
      \/ status_of (chat_endpoint body setup) = Some 400
      \/ status_of (chat_endpoint body setup) = Some 500)
  /\ (forall req,
        body = inr req -> get_or (req_message req) "" = "" ->
        chat_endpoint body setup = JSONResponse "message is required" 400)
  /\ (forall text,
        body = inl (ValueError text) ->
        chat_endpoint body setup = JSONResponse text 400).
Proof.
  split; [|split; [|split]].
  - split.
    + destruct body as [e|req].
      { destruct e; simpl; try discriminate. intros _. left. eauto. }
      unfold chat_endpoint. cbv zeta.
      destruct (PyStr.truthy (get_or (req_message req) "")) eqn:Et; cbn [negb].
      * assert (Hne : get_or (req_message req) "" <> "")
          by (intros E; rewrite E in Et; discriminate).
        destruct setup as [e|agent].
        { destruct e; simpl; try discriminate. intros _. right; right. eauto 6. }
        destruct (build_messages req _) as [e|msgs] eqn:Eb; [|discriminate].
        unfold build_messages in Eb.
        destruct (history_messages _) as [e'|m] eqn:Eh; [|discriminate].
        inversion Eb; subst e'.
        destruct (history_messages_error _ _ Eh) as [-> | ->]; discriminate.
      * intros _. right; left. exists req. split; [reflexivity|].
        apply truthy_false. exact Et.
    + intros [[text ->]|[(req & -> & Hm)|(req & text & -> & Hm & ->)]].
      * reflexivity.
      * unfold chat_endpoint. cbv zeta. rewrite Hm. reflexivity.
      * unfold chat_endpoint. cbv zeta. rewrite (truthy_true _ Hm). reflexivity.
  - destruct body as [e|req]; [destruct e; simpl; auto|].
    unfold chat_endpoint. cbv zeta.
    destruct (PyStr.truthy _); cbn [negb]; [|simpl; auto].
    destruct setup as [e|agent]; [destruct e; simpl; auto|].
    destruct (build_messages req _) as [e|msgs]; [destruct e; simpl; auto|simpl; auto].
  - intros req -> Hm. unfold chat_endpoint. cbv zeta. rewrite Hm. reflexivity.
  - intros text ->. reflexivity.
Qed.

(** * The image tool *)

Lemma first_image_finds (pre post : list Block) (block : Block) :
  forallb (fun b => negb (is_image_block b)) pre = true ->
  is_image_block block = true ->
  first_image (pre ++ block :: post) = Some (image_block_result block).
Proof.
  intros Hpre Hb. induction pre as [|p pre IH]; simpl.
  - rewrite Hb. reflexivity.
  - simpl in Hpre. apply andb_prop in Hpre as [Hp Hpre].
    destruct (is_image_block p); [discriminate|]. exact (IH Hpre).
Qed.

Lemma first_image_none (blocks : list Block) :
  forallb (fun b => negb (is_image_block b)) blocks = true ->
  first_image blocks = None.
Proof.
  induction blocks as [|p blocks IH]; simpl; [reflexivity|].
  destruct (is_image_block p); [discriminate|]. exact IH.
Qed.

(** X17.  The image tool answers with the first image block of the content,
    whatever follows it, taking only its [base64] and [format] (with the
    defaults of an empty payload and [png]); a content without image block,
    or a plain string, is answered as text. *)
Theorem image_tool_returns_first_image
        (pre post : list Block) (block : Block) (others : list Block) (s : string) :
  forallb (fun b => negb (is_image_block b)) pre = true ->
  is_image_block block = true ->
  forallb (fun b => negb (is_image_block b)) others = true ->
  generate_image (ContentList (pre ++ block :: post)) = image_block_result block
  /\ generate_image (ContentList others) = ToolText (ContentList others)
  /\ generate_image (ContentStr s) = ToolText (ContentStr s).
Proof.
  intros Hpre Hb Ho. unfold generate_image.
  rewrite (first_image_finds pre post block Hpre Hb), (first_image_none others Ho).
  repeat split.
Qed.

Lemma image_tool_witness :
  generate_image
    (ContentList ([Inputs2.text_block "Here it is"]
                  ++ BDict (Inputs2.image_url_block "data:image/png;base64,QUJD")
                  :: [BObj (Inputs2.image_data_object "QUJD")]))
  = ToolImage "" "png".
Proof.
  exact (proj1 (image_tool_returns_first_image
                  [Inputs2.text_block "Here it is"]
                  [BObj (Inputs2.image_data_object "QUJD")]
                  (BDict (Inputs2.image_url_block "data:image/png;base64,QUJD"))
                  [] "" eq_refl eq_refl eq_refl)).
Defined.

(** ** [json.dumps] followed by [json.loads] *)

Ltac narith := zify; Z.to_euclidean_division_equations; lia.

Lemma hex_val_digit (d : N) :
  (d < 16)%N -> Json.hex_val (Dumps.hex_digit d) = Some d.
Proof.
  intros H.
  assert (E : (d = 0 \/ d = 1 \/ d = 2 \/ d = 3 \/ d = 4 \/ d = 5 \/ d = 6 \/ d = 7
               \/ d = 8 \/ d = 9 \/ d = 10 \/ d = 11 \/ d = 12 \/ d = 13 \/ d = 14
               \/ d = 15)%N) by lia.
  repeat (destruct E as [->|E]; [reflexivity|]). subst d. reflexivity.
Qed.

Lemma hex4_text_value (u : N) :
  (u < 65536)%N ->
  Json.hex4 (Dumps.hex_digit (u / 4096)) (Dumps.hex_digit ((u / 256) mod 16))
            (Dumps.hex_digit ((u / 16) mod 16)) (Dumps.hex_digit (u mod 16))
  = Some u.
Proof.
  intros H. unfold Json.hex4.
  rewrite !hex_val_digit by narith.
  f_equal. narith.
Qed.

Lemma scan_u_escape (u : N) (tail : string) :
  (u < 65536)%N ->
  Json.scan_items (Dumps.u_escape u ++ tail)
  = Json.cons_item (Json.Esc u) (Json.scan_items tail).
Proof.
  intros H. unfold Dumps.u_escape, Dumps.hex4_text.
  cbn [append Json.scan_items].
  change (Ascii.eqb "\" "034") with false.
  change (Ascii.eqb "\" "\") with true.
  change (Ascii.eqb "u" "u") with true.
  cbv iota. rewrite hex4_text_value by exact H. reflexivity.
Qed.

Lemma decode_items_esc (u : N) (l : list Json.sitem) :
  Json.is_high u = false ->
  Json.decode_items (Json.Esc u :: l) = (Json.utf8 u ++ Json.decode_items l)%string.
Proof.
  intros H. cbn [Json.decode_items]. destruct l as [|[c|v] r]; try reflexivity.
  rewrite H. reflexivity.
Qed.

Lemma ascii_of_N_neq (n k : N) :
  (n < 256)%N -> (k < 256)%N -> n <> k -> Ascii.eqb (ascii_of_N n) (ascii_of_N k) = false.
Proof.
  intros Hn Hk Hne. apply Ascii.eqb_neq. intros E.
  apply (f_equal N_of_ascii) in E. rewrite !N_ascii_embedding in E by assumption.
  contradiction.
Qed.

(** One escaped code point is read back as the items that decode to its
    UTF-8 text, whatever follows. *)
Lemma scan_escape_cp (cp : N) (tail : string) :
  Utf8.scalar cp = true ->
  exists pre,
    Json.scan_items (Dumps.escape_cp cp ++ tail)
    = match Json.scan_items tail with
      | Some (l, rest) => Some (pre ++ l, rest)
      | None => None
      end
    /\ forall l, Json.decode_items (pre ++ l)
                 = (Json.utf8 cp ++ Json.decode_items l)%string.
Proof.
  intros Hs. unfold Utf8.scalar in Hs. apply andb_prop in Hs as [Hlt Hsur].
  apply N.ltb_lt in Hlt. apply negb_true_iff in Hsur.
  unfold Dumps.escape_cp.
  destruct (N.eqb_spec cp 34) as [->|N34].
  { exists [Json.Lit "034"]. split; [|reflexivity].
    simpl. destruct (Json.scan_items tail) as [[l r]|]; reflexivity. }
  destruct (N.eqb_spec cp 92) as [->|N92].
  { exists [Json.Lit "\"]. split; [|reflexivity].
    simpl. destruct (Json.scan_items tail) as [[l r]|]; reflexivity. }
  destruct (N.eqb_spec cp 8) as [->|N8].
  { exists [Json.Lit "008"]. split; [|reflexivity].
    simpl. destruct (Json.scan_items tail) as [[l r]|]; reflexivity. }
  destruct (N.eqb_spec cp 12) as [->|N12].
  { exists [Json.Lit "012"]. split; [|reflexivity].
    simpl. destruct (Json.scan_items tail) as [[l r]|]; reflexivity. }
  destruct (N.eqb_spec cp 10) as [->|N10].
  { exists [Json.Lit "010"]. split; [|reflexivity].
    simpl. destruct (Json.scan_items tail) as [[l r]|]; reflexivity. }
  destruct (N.eqb_spec cp 13) as [->|N13].
  { exists [Json.Lit "013"]. split; [|reflexivity].
    simpl. destruct (Json.scan_items tail) as [[l r]|]; reflexivity. }
  destruct (N.eqb_spec cp 9) as [->|N9].
  { exists [Json.Lit "009"]. split; [|reflexivity].
    simpl. destruct (Json.scan_items tail) as [[l r]|]; reflexivity. }
  destruct ((32 <=? cp)%N && (cp <=? 126)%N) eqn:Hp.
  { apply andb_prop in Hp as [H32 H126].
    apply N.leb_le in H32. apply N.leb_le in H126.
    exists [Json.Lit (ascii_of_N cp)]. split.
    - cbn [append Json.scan_items].
      change "034"%char with (ascii_of_N 34). change "\"%char with (ascii_of_N 92).
      rewrite !ascii_of_N_neq by lia.
      unfold nat_of_ascii. rewrite N_ascii_embedding by lia.
      replace (N.to_nat cp <? 32)%nat with false by (symmetry; apply Nat.ltb_ge; lia).
      unfold Json.cons_item. destruct (Json.scan_items tail) as [[l r]|]; reflexivity.
    - intros l. cbn [app Json.decode_items]. unfold Json.utf8.
      replace (cp <? 128)%N with true by (symmetry; apply N.ltb_lt; lia).
      reflexivity. }
  destruct (N.ltb_spec cp 65536) as [Hb|Hb].
  { exists [Json.Esc cp]. split.
    - rewrite scan_u_escape by exact Hb. unfold Json.cons_item.
      destruct (Json.scan_items tail) as [[l r]|]; reflexivity.
    - intros l. cbn [app]. apply decode_items_esc.
      unfold Json.is_high. apply andb_false_iff.
      apply andb_false_iff in Hsur as [Hsur|Hsur]; apply N.leb_gt in Hsur;
        [left|right]; apply N.leb_gt; lia. }
  set (m := (cp - 65536)%N).
  exists [Json.Esc (55296 + m / 1024); Json.Esc (56320 + m mod 1024)]. split.
  - rewrite string_app_assoc.
    rewrite scan_u_escape by (subst m; narith).
    rewrite scan_u_escape by (subst m; narith).
    unfold Json.cons_item. destruct (Json.scan_items tail) as [[l r]|]; reflexivity.
  - intros l. cbn [app Json.decode_items].
    replace (Json.is_high (55296 + m / 1024)) with true
      by (symmetry; unfold Json.is_high; apply andb_true_intro; split;
          apply N.leb_le; subst m; narith).
    replace (Json.is_low (56320 + m mod 1024)) with true
      by (symmetry; unfold Json.is_low; apply andb_true_intro; split;
          apply N.leb_le; subst m; narith).
    cbn [andb].
    replace (65536 + ((55296 + m / 1024 - 55296) * 1024 + (56320 + m mod 1024 - 56320)))%N
      with cp by (subst m; narith).
    reflexivity.
Qed.

Lemma scan_escape (cps : list N) (rest : string) :
  forallb Utf8.scalar cps = true ->
  exists l,
    Json.scan_items (Dumps.escape cps ++ String "034" rest) = Some (l, rest)
    /\ Json.decode_items l = Utf8.encode cps.
Proof.
  induction cps as [|cp cps IH]; intros H.
  - exists []. split; reflexivity.
  - cbn [forallb] in H. apply andb_prop in H as [Hcp Hr].
    destruct (IH Hr) as (l & Hl & Hd).
    destruct (scan_escape_cp cp (Dumps.escape cps ++ String "034" rest) Hcp)
      as (pre & Hpre & Hdec).
    exists (pre ++ l). split.
    + cbn [Dumps.escape]. rewrite string_app_assoc, Hpre, Hl. reflexivity.
    + rewrite Hdec, Hd. reflexivity.
Qed.

(** A text written by [encode_basestring_ascii] is read back by
    [scanstring]. *)
Lemma scanstring_escaped (s rest : string) :
  Utf8.valid_text s = true ->
  Json.scanstring (Dumps.escape (Utf8.decode s) ++ String "034" rest) = Some (s, rest).
Proof.
  intros H. unfold Utf8.valid_text in H. apply andb_prop in H as [Hs He].
  apply String.eqb_eq in He.
  destruct (scan_escape (Utf8.decode s) rest Hs) as (l & Hl & Hd).
  unfold Json.scanstring. rewrite Hl, Hd, He. reflexivity.
Qed.

(** *** Integers *)

Lemma all_chars_app (p : ascii -> bool) (a b : string) :
  all_chars p (a ++ b) = all_chars p a && all_chars p b.
Proof.
  induction a as [|x a IH]; cbn [append all_chars]; [reflexivity|].
  rewrite IH. apply andb_assoc.
Qed.

Lemma digit_char (d : N) :
  (d < 10)%N ->
  Json.is_digit (ascii_of_N (48 + d)) = true
  /\ (nat_of_ascii (ascii_of_N (48 + d)) - 48 = N.to_nat d)%nat
  /\ (d <> 0%N -> Ascii.eqb (ascii_of_N (48 + d)) "0" = false).
Proof.
  intros H.
  assert (E : (d = 0 \/ d = 1 \/ d = 2 \/ d = 3 \/ d = 4 \/ d = 5 \/ d = 6 \/ d = 7
               \/ d = 8 \/ d = 9)%N) by lia.
  repeat (destruct E as [->|E];
          [repeat split; try reflexivity; intros Hd; exfalso; now apply Hd|]).
  subst d. repeat split.
Qed.

Lemma pow2_step (f : nat) (n : N) :
  (n < 2 ^ N.of_nat (S f))%N -> (n / 10 < 2 ^ N.of_nat f)%N.
Proof.
  replace (N.of_nat (S f)) with (N.succ (N.of_nat f)) by lia.
  rewrite N.pow_succ_r'. intros H.
  set (P := (2 ^ N.of_nat f)%N) in *. clearbody P. narith.
Qed.

Lemma digits_fuel_digits (fuel : nat) (n : N) :
  all_chars Json.is_digit (Dumps.digits_fuel fuel n) = true.
Proof.
  revert n; induction fuel as [|f IH]; intros n; [reflexivity|].
  cbn [Dumps.digits_fuel]. rewrite all_chars_app. apply andb_true_intro. split.
  - destruct (n <? 10)%N; [reflexivity|apply IH].
  - cbn [all_chars]. rewrite andb_true_r.
    apply digit_char. narith.
Qed.

Lemma digits_value_snoc (d : string) (c : ascii) (acc : Z) :
  Json.digits_value acc (d ++ String c "")
  = (Json.digits_value acc d * 10 + Z.of_nat (nat_of_ascii c - 48))%Z.
Proof.
  revert acc; induction d as [|x d IH]; intros acc; cbn [append Json.digits_value].
  - reflexivity.
  - apply IH.
Qed.

Lemma digits_fuel_value (fuel : nat) (n : N) :
  (n < 2 ^ N.of_nat fuel)%N ->
  Json.digits_value 0 (Dumps.digits_fuel fuel n) = Z.of_N n.
Proof.
  revert n; induction fuel as [|f IH]; intros n H.
  - cbn in H. cbn. lia.
  - cbn [Dumps.digits_fuel]. rewrite digits_value_snoc.
    destruct (digit_char (n mod 10)) as (_ & Hv & _); [narith|]. rewrite Hv.
    destruct (N.ltb_spec n 10) as [Hn|Hn].
    + cbn [Json.digits_value]. narith.
    + rewrite IH by (apply pow2_step; exact H). narith.
Qed.

Lemma digits_fuel_head (fuel : nat) (n : N) :
  (0 < n)%N -> (n < 2 ^ N.of_nat fuel)%N ->
  exists c d, Dumps.digits_fuel fuel n = String c d /\ Ascii.eqb c "0" = false.
Proof.
  revert n; induction fuel as [|f IH]; intros n Hpos H.
  - cbn in H. lia.
  - cbn [Dumps.digits_fuel].
    destruct (N.ltb_spec n 10) as [Hn|Hn].
    + cbn [append]. eexists _, _. split; [reflexivity|].
      apply digit_char; narith.
    + destruct (IH (n / 10)%N) as (c & d & E & Hc);
        [narith|apply pow2_step; exact H|].
      rewrite E. cbn [append]. eauto.
Qed.

Lemma digits_bound (n : N) : (n < 2 ^ N.of_nat (S (N.to_nat (N.log2 n))))%N.
Proof.
  replace (N.of_nat (S (N.to_nat (N.log2 n)))) with (N.succ (N.log2 n)) by lia.
  destruct (N.eq_dec n 0) as [->|Hn]; [reflexivity|].
  apply N.log2_spec. lia.
Qed.

Lemma delimited_no_digit (c : ascii) (r : string) :
  delimited (String c r) = true ->
  Json.is_digit c = false /\ Ascii.eqb c "." = false
  /\ Ascii.eqb c "e" = false /\ Ascii.eqb c "E" = false.
Proof.
  cbn [delimited]. intros H.
  apply orb_prop in H as [H|H]; [apply orb_prop in H as [H|H]|];
    apply Ascii.eqb_eq in H; subst c; repeat split.
Qed.

Lemma span_digits_all (d rest : string) :
  all_chars Json.is_digit d = true -> delimited rest = true ->
  Json.span_digits (d ++ rest) = (d, rest).
Proof.
  intros Hd Hr. induction d as [|x d IH]; cbn [append].
  - destruct rest as [|c r]; [reflexivity|].
    cbn [Json.span_digits].
    destruct (delimited_no_digit c r Hr) as (-> & _). reflexivity.
  - cbn [all_chars] in Hd. apply andb_prop in Hd as [Hx Hd].
    cbn [Json.span_digits]. rewrite Hx, (IH Hd). reflexivity.
Qed.

Lemma is_digit_not (c x : ascii) :
  Json.is_digit c = true -> Json.is_digit x = false -> Ascii.eqb c x = false.
Proof.
  intros Hc Hx. apply Ascii.eqb_neq. intros ->. congruence.
Qed.

(** The digits of a natural number are matched as the integer part of a
    number. *)
Lemma match_int_digits (n : N) (rest : string) :
  delimited rest = true ->
  exists c d, Dumps.digits n = String c d /\ Json.is_digit c = true
              /\ Json.match_int (String c d ++ rest) = Some (String c d, rest)
              /\ Json.match_int (String "-" (String c d) ++ rest)
                 = Some (String "-" (String c d), rest).
Proof.
  intros Hr.
  pose proof (digits_fuel_digits (S (N.to_nat (N.log2 n))) n) as Hall.
  destruct (N.eq_dec n 0) as [->|Hn].
  - exists "0"%char, ""%string. repeat split.
  - destruct (digits_fuel_head _ n ltac:(lia) (digits_bound n)) as (c & d & E & Hc).
    unfold Dumps.digits. rewrite E in *. exists c, d.
    cbn [all_chars] in Hall. apply andb_prop in Hall as [Hcd Hd].
    split; [reflexivity|]. split; [exact Hcd|].
    assert (Hminus : Ascii.eqb c "-" = false) by (apply is_digit_not; [exact Hcd|reflexivity]).
    split.
    + unfold Json.match_int. cbn [append]. rewrite Hminus, Hc, Hcd.
      rewrite (span_digits_all d rest Hd Hr). reflexivity.
    + unfold Json.match_int. cbn [append].
      change (Ascii.eqb "-" "-") with true. cbv iota. rewrite Hc, Hcd.
      rewrite (span_digits_all d rest Hd Hr). reflexivity.
Qed.

Lemma no_fraction (rest : string) :
  delimited rest = true ->
  Json.match_frac rest = (""%string, rest) /\ Json.match_exp rest = (""%string, rest).
Proof.
  intros Hr. destruct rest as [|c r]; [split; reflexivity|].
  destruct (delimited_no_digit c r Hr) as (_ & Hdot & He & HE).
  unfold Json.match_frac, Json.match_exp. rewrite Hdot, He, HE. split; reflexivity.
Qed.

Lemma digits_value_of (n : N) : Json.digits_value 0 (Dumps.digits n) = Z.of_N n.
Proof. apply digits_fuel_value, digits_bound. Qed.

Lemma match_number_int (z : Z) (rest : string) :
  (Json.digit_count (Dumps.decimal z) <=? int_max_str_digits)%nat = true ->
  delimited rest = true ->
  Json.match_number (Dumps.decimal z ++ rest) = Some (Returns (JInt z), rest).
Proof.
  intros Hz0 Hr. destruct (no_fraction rest Hr) as [Hf He].
  assert (Hlim : (int_max_str_digits <? Json.digit_count (Dumps.decimal z))%nat = false)
    by (rewrite Nat.ltb_antisym, Hz0; reflexivity).
  clear Hz0. revert Hlim.
  unfold Dumps.decimal. destruct (Z.ltb_spec z 0) as [Hz|Hz]; intros Hlim.
  - destruct (match_int_digits (Z.to_N (- z)) rest Hr) as (c & d & E & Hc & _ & Hm).
    pose proof (digits_value_of (Z.to_N (- z))) as Hv.
    rewrite E in *. unfold Json.match_number. rewrite Hm, Hf, He.
    unfold Json.int_of_lexeme. rewrite Hlim.
    unfold Json.int_value. change (Ascii.eqb "-" "-") with true. cbv iota.
    rewrite Hv. repeat f_equal. lia.
  - destruct (match_int_digits (Z.to_N z) rest Hr) as (c & d & E & Hc & Hm & _).
    pose proof (digits_value_of (Z.to_N z)) as Hv.
    rewrite E in *. unfold Json.match_number. rewrite Hm, Hf, He.
    unfold Json.int_of_lexeme. rewrite Hlim.
    unfold Json.int_value.
    replace (Ascii.eqb c "-") with false
      by (symmetry; apply is_digit_not; [exact Hc|reflexivity]).
    rewrite Hv. repeat f_equal. lia.
Qed.

(** The first character of a printed integer: a digit or the minus sign. *)
Lemma decimal_head (z : Z) :
  exists c r, Dumps.decimal z = String c r
              /\ (Json.is_digit c = true \/ c = "-"%char).
Proof.
  unfold Dumps.decimal. destruct (z <? 0)%Z.
  - eexists _, _. split; [reflexivity|]. now right.
  - destruct (match_int_digits (Z.to_N z) "" eq_refl) as (c & d & E & Hc & _).
    exists c, d. split; [exact E|]. now left.
Qed.

Lemma scan_once_int (fuel limit : nat) (z : Z) (rest : string) :
  (Json.digit_count (Dumps.decimal z) <=? int_max_str_digits)%nat = true ->
  delimited rest = true ->
  Json.scan_once (S fuel) limit (Dumps.decimal z ++ rest) = Json.POk (JInt z) rest.
Proof.
  intros Hz Hr. pose proof (match_number_int z rest Hz Hr) as Hm. clear Hz.
  destruct (decimal_head z) as (c & r & E & Hc). rewrite E in *.
  cbn [append] in *. cbn [Json.scan_once].
  assert (Hne : forall x, Json.is_digit x = false -> x <> "-"%char ->
                          Ascii.eqb x c = false /\ Ascii.eqb c x = false).
  { intros x Hx Hx'. split; apply Ascii.eqb_neq; intros ->;
      (destruct Hc as [Hc| ->]; [congruence|now apply Hx']). }
  destruct (Hne "034"%char eq_refl ltac:(discriminate)) as [_ ->].
  destruct (Hne "{"%char eq_refl ltac:(discriminate)) as [_ ->].
  destruct (Hne "["%char eq_refl ltac:(discriminate)) as [_ ->].
  unfold Json.scan_atom. cbn [PyStr.strip_prefix].
  destruct (Hne "n"%char eq_refl ltac:(discriminate)) as [-> _].
  destruct (Hne "t"%char eq_refl ltac:(discriminate)) as [-> _].
  destruct (Hne "f"%char eq_refl ltac:(discriminate)) as [-> _].
  rewrite Hm. reflexivity.
Qed.

(** *** Values *)

Lemma string_length_app (a b : string) :
  String.length (a ++ b) = String.length a + String.length b.
Proof. induction a as [|x a IH]; cbn [append String.length]; [reflexivity|now rewrite IH]. Qed.

Lemma set_fresh (acc : list (string * json)) (k : string) (v : json) :
  ~ In k (map fst acc) -> PyDict.set acc k v = acc ++ [(k, v)].
Proof.
  induction acc as [|[k' v'] acc IH]; intros H; cbn [PyDict.set app]; [reflexivity|].
  cbn [map fst In] in H.
  destruct (String.eqb_spec k' k) as [->|Hne]; [exfalso; apply H; now left|].
  rewrite IH; [reflexivity|]. intros Hin. apply H. now right.
Qed.

Lemma distinct_NoDup (keys : list string) : distinct keys = true -> NoDup keys.
Proof.
  induction keys as [|k keys IH]; intros H; [constructor|].
  cbn [distinct] in H. apply andb_prop in H as [Hk Hd].
  constructor; [|apply IH, Hd].
  intros Hin. apply negb_true_iff in Hk.
  assert (existsb (String.eqb k) keys = true) as E.
  { apply existsb_exists. exists k. split; [exact Hin|apply String.eqb_refl]. }
  congruence.
Qed.

Ltac norm_length H :=
  repeat (progress (rewrite ?string_length_app in H; cbn [String.length append] in H)).

Section RoundTrip.

Context `{interp : Interp}.

(** The first character of a printed value is neither white space nor a
    closing bracket. *)
Lemma dumps_head (v : json) :
  plain v = true ->
  exists c r, value_text v = String c r /\ Json.is_ws c = false
              /\ Ascii.eqb c "]" = false /\ Ascii.eqb c (ascii_of_N 239) = false.
Proof.
  intros Hp. destruct v as [|[|]|z|l|s|items|pairs]; cbn [value_text].
  - eexists _, _; repeat split.
  - eexists _, _; repeat split.
  - eexists _, _; repeat split.
  - destruct (decimal_head z) as (c & r & E & [Hc| ->]).
    + exists c, r. split; [exact E|].
      unfold Json.is_ws.
      rewrite !(is_digit_not c) by (try exact Hc; reflexivity). repeat split.
    + exists "-"%char, r. split; [exact E|]. repeat split.
  - discriminate Hp.
  - eexists _, _; repeat split.
  - eexists _, _; repeat split.
  - eexists _, _; repeat split.
Qed.

Lemma join_items_head (v : json) (more : list json) :
  plain v = true ->
  exists c r, Dumps.join_items (map value_text (v :: more)) = String c r
              /\ Json.is_ws c = false /\ Ascii.eqb c "]" = false.
Proof.
  intros Hp. destruct (dumps_head v Hp) as (c & r & E & Hw & Hb & _).
  cbn [map Dumps.join_items]. rewrite E.
  destruct (map value_text more); cbn [append]; eauto.
Qed.

Lemma array_items_read (items : list json) :
  Forall reads_back items -> forallb plain items = true -> items <> [] ->
  forall fuel limit rest,
    Forall (fun v => nesting v <= limit) items ->
    2 * String.length (Dumps.join_items (map value_text items)) + 2 <= fuel ->
    Json.array_items fuel limit
      (Dumps.join_items (map value_text items) ++ String "]" rest)
    = Json.POk items rest.
Proof.
  induction items as [|v more IH]; intros HP Hpl Hne fuel limit rest Hnest Hfuel;
    [congruence|].
  inversion HP as [|? ? Hv Hmore]; subst.
  inversion Hnest as [|? ? Hnv Hnmore]; subst.
  cbn [forallb] in Hpl. apply andb_prop in Hpl as [Hplv Hplm].
  destruct fuel as [|f]; [lia|]. cbn [Json.array_items].
  destruct more as [|w more'].
  - cbn [map Dumps.join_items] in *.
    rewrite (Hv Hplv f limit (String "]" rest)) by (try reflexivity; lia).
    reflexivity.
  - remember (w :: more') as more eqn:Em.
    assert (Hj : Dumps.join_items (map value_text (v :: more))
                 = (value_text v ++ ", " ++ Dumps.join_items (map value_text more))%string).
    { subst more. reflexivity. }
    rewrite Hj in *. rewrite string_length_app in Hfuel.
    cbn [append String.length] in Hfuel.
    rewrite string_app_assoc.
    rewrite (Hv Hplv f limit) by (try reflexivity; lia).
    cbn [append Json.skip_ws]. change (Json.is_ws ",") with false. cbv iota.
    change (Ascii.eqb "," "]") with false. change (Ascii.eqb "," ",") with true.
    cbv iota. cbn [Json.skip_ws]. change (Json.is_ws " ") with true. cbv iota.
    destruct (join_items_head w more') as (c & r & E & Hw & _).
    { subst more. cbn [forallb] in Hplm. now apply andb_prop in Hplm. }
    assert (Hskip : Json.skip_ws (Dumps.join_items (map value_text more) ++ String "]" rest)
                    = (Dumps.join_items (map value_text more) ++ String "]" rest)%string).
    { subst more. rewrite E. cbn [append Json.skip_ws]. rewrite Hw. reflexivity. }
    rewrite Hskip.
    rewrite (IH Hmore Hplm) by (subst more; try discriminate; try assumption; lia).
    reflexivity.
Qed.

Lemma member_text_tail (kv : string * json) :
  member_text kv = String "034" (member_tail kv).
Proof.
  unfold member_text, member_tail, Dumps.encode_basestring_ascii.
  cbn [append]. rewrite string_app_assoc. reflexivity.
Qed.

Lemma object_members_read (pairs : list (string * json)) :
  Forall (fun kv => reads_back (snd kv)) pairs ->
  forallb (fun kv => Utf8.valid_text (fst kv) && plain (snd kv)) pairs = true ->
  forall kv more, pairs = kv :: more ->
  forall acc fuel limit rest,
    Forall (fun kv => nesting (snd kv) <= limit) pairs ->
    NoDup (map fst acc ++ map fst pairs) ->
    2 * String.length (Dumps.join_items (map member_text pairs)) + 2 <= fuel ->
    Json.object_members fuel limit
      (member_tail kv
       ++ match more with
          | [] => ""
          | _ => ", " ++ Dumps.join_items (map member_text more)
          end ++ String "}" rest) acc
    = Json.POk (acc ++ pairs) rest.
Proof.
  induction pairs as [|p pairs IH];
    intros HP Hpl kv more E acc fuel limit rest Hnest Hnd Hfuel; [discriminate|].
  injection E as -> ->.
  inversion HP as [|? ? Hv Hmore]; subst.
  inversion Hnest as [|? ? Hnv Hnmore]; subst.
  cbn [forallb] in Hpl. apply andb_prop in Hpl as [Hkv Hplm].
  apply andb_prop in Hkv as [Hk Hplv].
  destruct fuel as [|f]; [lia|]. cbn [Json.object_members].
  unfold member_tail at 1. rewrite string_app_assoc. cbn [append].
  rewrite (scanstring_escaped _ _ Hk).
  cbn [Json.skip_ws]. change (Json.is_ws ":") with false. cbv iota.
  change (Ascii.eqb ":" ":") with true. cbv iota.
  cbn [Json.skip_ws]. change (Json.is_ws " ") with true. cbv iota.
  destruct (dumps_head (snd kv) Hplv) as (c & r & Ec & Hw & _).
  assert (Hfresh : PyDict.set acc (fst kv) (snd kv) = acc ++ [kv]).
  { destruct kv as [k v]. apply set_fresh. cbn [map fst] in Hnd.
    apply NoDup_remove_2 in Hnd. intros Hin. apply Hnd. apply in_or_app. now left. }
  destruct more as [|q more'].
  - cbn [map Dumps.join_items] in Hfuel. rewrite member_text_tail in Hfuel.
    unfold member_tail in Hfuel.
    norm_length Hfuel.
    cbn [append].
    assert (Hskip : forall t, Json.skip_ws (value_text (snd kv) ++ t) = (value_text (snd kv) ++ t)%string).
    { intros t. rewrite Ec. cbn [append Json.skip_ws]. now rewrite Hw. }
    rewrite ?string_app_assoc, Hskip.
    rewrite (Hv Hplv f limit (String "}" rest)) by (try reflexivity; lia).
    cbn [Json.skip_ws]. change (Json.is_ws "}") with false. cbv iota.
    change (Ascii.eqb "}" "}") with true. cbv iota.
    rewrite Hfresh. reflexivity.
  - remember (q :: more') as more eqn:Em.
    assert (Hj : Dumps.join_items (map member_text (kv :: more))
                 = (member_text kv ++ ", " ++ Dumps.join_items (map member_text more))%string).
    { subst more. reflexivity. }
    rewrite Hj in Hfuel. rewrite member_text_tail in Hfuel. unfold member_tail in Hfuel.
    norm_length Hfuel.
    assert (Hskip : forall t, Json.skip_ws (value_text (snd kv) ++ t) = (value_text (snd kv) ++ t)%string).
    { intros t. rewrite Ec. cbn [append Json.skip_ws]. now rewrite Hw. }
    assert (Hm : match more with
                 | [] => ""%string
                 | _ :: _ => (", " ++ Dumps.join_items (map member_text more))%string
                 end = (", " ++ Dumps.join_items (map member_text more))%string).
    { subst more. reflexivity. }
    try rewrite Hm. rewrite ?string_app_assoc; cbn [append]; rewrite Hskip.
    rewrite (Hv Hplv f limit) by (try reflexivity; lia).
    cbn [append Json.skip_ws]. change (Json.is_ws ",") with false. cbv iota.
    change (Ascii.eqb "," "}") with false. change (Ascii.eqb "," ",") with true.
    cbv iota. cbn [Json.skip_ws]. change (Json.is_ws " ") with true. cbv iota.
    assert (Hq : (Dumps.join_items (map member_text more) ++ String "}" rest)%string
                 = String "034"
                     (member_tail q
                      ++ match more' with
                         | [] => ""
                         | _ => ", " ++ Dumps.join_items (map member_text more')
                         end ++ String "}" rest)%string).
    { subst more. cbn [map Dumps.join_items]. rewrite member_text_tail.
      destruct more' as [|q' more'']; cbn [map append]; [reflexivity|].
      rewrite string_app_assoc. reflexivity. }
    rewrite Hq. cbn [Json.skip_ws]. change (Json.is_ws "034") with false. cbv iota.
    change (Ascii.eqb "034" "034") with true. cbv iota.
    rewrite Hfresh.
    rewrite (IH Hmore Hplm q more' Em (acc ++ [kv]) f limit rest).
    + rewrite <- app_assoc. reflexivity.
    + exact Hnmore.
    + rewrite map_app, <- app_assoc. exact Hnd.
    + lia.
Qed.

Lemma dumps_dict (pairs : list (string * json)) :
  value_text (JDict pairs)
  = ("{" ++ Dumps.join_items (map member_text pairs) ++ "}")%string.
Proof. reflexivity. Qed.

Lemma fold_max_le (l : list nat) (n : nat) :
  fold_right Nat.max 0 l <= n -> Forall (fun x => x <= n) l.
Proof.
  induction l as [|x l IH]; cbn [fold_right]; intros H; constructor; [lia|].
  apply IH. lia.
Qed.

Lemma reads_back_all (v : json) : reads_back v.
Proof.
  induction v as [|b|z|l|s|items IH|pairs IH] using json_nested_ind;
    intros Hp fuel limit rest Hfuel Hlim Hr; (destruct fuel as [|f]; [lia|]).
  - reflexivity.
  - destruct b; reflexivity.
  - apply scan_once_int; [exact Hp|exact Hr].
  - discriminate Hp.
  - cbn [value_text]. unfold Dumps.encode_basestring_ascii.
    cbn [append Json.scan_once]. change (Ascii.eqb "034" "034") with true. cbv iota.
    rewrite string_app_assoc. cbn [append].
    rewrite (scanstring_escaped s rest Hp). reflexivity.
  - cbn [plain] in Hp. cbn [value_text] in *.
    cbn [nesting] in Hlim. destruct limit as [|limit]; [lia|].
    assert (Hnest : Forall (fun v => nesting v <= limit) items).
    { apply Forall_map with (f := nesting) (P := fun x => x <= limit).
      apply fold_max_le. lia. }
    cbn [append Json.scan_once].
    change (Ascii.eqb "[" "034") with false. change (Ascii.eqb "[" "{") with false.
    change (Ascii.eqb "[" "[") with true. cbv iota.
    rewrite string_app_assoc. cbn [append].
    destruct items as [|v more].
    + reflexivity.
    + destruct (join_items_head v more) as (c & r & E & Hw & Hb).
      { cbn [forallb] in Hp. now apply andb_prop in Hp. }
      pose proof (array_items_read (v :: more) IH Hp ltac:(discriminate) f limit rest
                    Hnest) as Ha.
      rewrite E in *. cbn [append Json.skip_ws] in *. rewrite Hw, Hb.
      norm_length Hfuel. norm_length Ha.
      rewrite Ha by lia. reflexivity.
  - cbn [plain] in Hp. apply andb_prop in Hp as [Hpl Hd].
    rewrite dumps_dict in *.
    cbn [nesting] in Hlim. destruct limit as [|limit]; [lia|].
    assert (Hnest : Forall (fun kv => nesting (snd kv) <= limit) pairs).
    { apply Forall_map with (f := fun kv => nesting (snd kv)) (P := fun x => x <= limit).
      apply fold_max_le. lia. }
    cbn [append Json.scan_once].
    change (Ascii.eqb "{" "034") with false. change (Ascii.eqb "{" "{") with true.
    cbv iota. rewrite string_app_assoc. cbn [append].
    destruct pairs as [|kv more].
    + reflexivity.
    + pose proof (object_members_read (kv :: more) IH Hpl kv more eq_refl [] f limit rest
                    Hnest) as Ho.
      assert (Hq : (Dumps.join_items (map member_text (kv :: more)) ++ String "}" rest)%string
                   = String "034"
                       (member_tail kv
                        ++ match more with
                           | [] => ""
                           | _ => ", " ++ Dumps.join_items (map member_text more)
                           end ++ String "}" rest)%string).
      { cbn [map Dumps.join_items]. rewrite member_text_tail.
        destruct more as [|q' more'']; cbn [map append]; [reflexivity|].
        rewrite string_app_assoc. reflexivity. }
      rewrite Hq. cbn [Json.skip_ws]. change (Json.is_ws "034") with false. cbv iota.
      change (Ascii.eqb "034" "}") with false. change (Ascii.eqb "034" "034") with true.
      cbv iota.
      norm_length Hfuel.
      rewrite Ho; [reflexivity| |lia].
      cbn [app map]. apply distinct_NoDup, Hd.
Qed.

Lemma collect_map {A : Type} (f : A -> PyResult string) (g : A -> string) (l : list A) :
  Forall (fun x => f x = Returns (g x)) l ->
  Dumps.collect (map f l) = Returns (map g l).
Proof.
  induction 1 as [|x l Hx _ IH]; [reflexivity|].
  cbn [map Dumps.collect]. rewrite Hx, IH. reflexivity.
Qed.

Lemma collect_map_inv {A : Type} (f : A -> PyResult string) (g : A -> string)
      (l : list A) (texts : list string) :
  Forall (fun x => forall t, f x = Returns t -> t = g x) l ->
  Dumps.collect (map f l) = Returns texts -> texts = map g l.
Proof.
  intros H. revert texts. induction H as [|x l Hx _ IH]; intros texts.
  - cbn. intros E. now injection E as <-.
  - cbn [map Dumps.collect]. destruct (f x) as [t|e] eqn:Ef; [|discriminate].
    destruct (Dumps.collect (map f l)) as [ts|e]; [|discriminate].
    intros E. injection E as <-. rewrite (Hx t eq_refl), (IH ts eq_refl). reflexivity.
Qed.

(** What the encoder returns is the text of the value. *)
Lemma encode_obj_text (v : json) :
  forall depth text, Dumps.encode_obj depth v = Returns text -> text = value_text v.
Proof.
  induction v as [|b|z|l|s|items IH|pairs IH] using json_nested_ind;
    intros depth text; cbn [Dumps.encode_obj value_text].
  - intros E. now injection E as <-.
  - destruct b; intros E; now injection E as <-.
  - unfold Dumps.int_text. destruct (_ <? _)%nat; [discriminate|].
    intros E. now injection E as <-.
  - intros E. now injection E as <-.
  - intros E. now injection E as <-.
  - destruct depth as [|depth]; [discriminate|]. unfold Dumps.enclose.
    destruct (Dumps.collect _) as [texts|e] eqn:Ec; [|discriminate].
    intros E. injection E as <-.
    rewrite (collect_map_inv (Dumps.encode_obj depth) value_text items texts);
      [reflexivity| |exact Ec].
    apply (Forall_impl _ (P := fun v => forall depth text,
                                 Dumps.encode_obj depth v = Returns text ->
                                 text = value_text v)); [|exact IH].
    intros v Hv t. apply Hv.
  - destruct depth as [|depth]; [discriminate|]. unfold Dumps.enclose.
    destruct (Dumps.collect _) as [texts|e] eqn:Ec; [|discriminate].
    intros E. injection E as <-.
    rewrite (collect_map_inv
               (fun kv => Dumps.member (fst kv) (Dumps.encode_obj depth (snd kv)))
               member_text pairs texts); [reflexivity| |exact Ec].
    apply (Forall_impl _ (P := fun kv => forall depth text,
                                 Dumps.encode_obj depth (snd kv) = Returns text ->
                                 text = value_text (snd kv))); [|exact IH].
    intros kv Hkv t. unfold Dumps.member, member_text.
    destruct (Dumps.encode_obj depth (snd kv)) as [u|e] eqn:Eu; [|discriminate].
    intros E. injection E as <-. rewrite (Hkv depth u Eu). reflexivity.
Qed.

(** The encoder returns for a plain value that is not nested beyond its
    limit. *)
Lemma encode_obj_returns (v : json) :
  plain v = true ->
  forall depth, nesting v <= depth -> Dumps.encode_obj depth v = Returns (value_text v).
Proof.
  induction v as [|b|z|l|s|items IH|pairs IH] using json_nested_ind;
    intros Hp depth Hd; cbn [Dumps.encode_obj value_text].
  - reflexivity.
  - destruct b; reflexivity.
  - unfold Dumps.int_text. cbn [plain] in Hp.
    rewrite Nat.ltb_antisym, Hp. reflexivity.
  - discriminate Hp.
  - reflexivity.
  - cbn [nesting] in Hd. destruct depth as [|depth]; [lia|].
    assert (Hnest : Forall (fun v => nesting v <= depth) items).
    { apply Forall_map with (f := nesting) (P := fun x => x <= depth).
      apply fold_max_le. lia. }
    cbn [plain] in Hp.
    rewrite (collect_map (Dumps.encode_obj depth) value_text); [reflexivity|].
    clear Hd. induction items as [|v items IHl]; [constructor|].
    cbn [forallb] in Hp. apply andb_prop in Hp as [Hv Hr].
    inversion IH; subst. inversion Hnest; subst. constructor; auto.
  - cbn [nesting] in Hd. destruct depth as [|depth]; [lia|].
    assert (Hnest : Forall (fun kv => nesting (snd kv) <= depth) pairs).
    { apply Forall_map with (f := fun kv => nesting (snd kv)) (P := fun x => x <= depth).
      apply fold_max_le. lia. }
    cbn [plain] in Hp. apply andb_prop in Hp as [Hp _].
    rewrite (collect_map
               (fun kv => Dumps.member (fst kv) (Dumps.encode_obj depth (snd kv)))
               member_text); [reflexivity|].
    clear Hd. induction pairs as [|kv pairs IHl]; [constructor|].
    cbn [forallb] in Hp. apply andb_prop in Hp as [Hv Hr].
    apply andb_prop in Hv as [_ Hv].
    inversion IH as [|? ? Hkv Hrest]; subst. inversion Hnest; subst.
    constructor; [|auto].
    unfold member_text. rewrite (Hkv Hv depth) by assumption. reflexivity.
Qed.

Lemma loads_dumps (v : json) :
  plain v = true -> nesting v <= loads_depth -> Json.loads (value_text v) = Returns v.
Proof.
  intros Hp Hn. unfold Json.loads, Json.loads_fuel.
  destruct (dumps_head v Hp) as (c & r & E & Hw & _ & Hbom).
  pose proof (reads_back_all v Hp (2 * String.length (value_text v) + 1) loads_depth ""
                ltac:(lia) Hn eq_refl) as Hs.
  rewrite string_app_nil_r in Hs.
  assert (Hb : PyStr.is_prefix Json.bom (value_text v) = false).
  { rewrite E. unfold Json.bom. cbn [PyStr.is_prefix].
    rewrite Ascii.eqb_sym in Hbom. change "239"%char with (ascii_of_N 239).
    rewrite Hbom. reflexivity. }
  rewrite Hb.
  assert (Hk : Json.skip_ws (value_text v) = value_text v).
  { rewrite E. cbn [Json.skip_ws]. now rewrite Hw. }
  rewrite Hk, Hs. reflexivity.
Qed.

End RoundTrip.

(** *** The characters [json.dumps] writes *)

Lemma all_chars_impl (p q : ascii -> bool) (s : string) :
  (forall c, p c = true -> q c = true) -> all_chars p s = true -> all_chars q s = true.
Proof.
  intros Hpq. induction s as [|c s IH]; cbn [all_chars]; [reflexivity|].
  intros H. apply andb_prop in H as [Hc Hs]. rewrite (Hpq c Hc), (IH Hs). reflexivity.
Qed.

Lemma digit_printable (c : ascii) : Json.is_digit c = true -> printable c = true.
Proof.
  unfold Json.is_digit, printable, nat_of_ascii. intros H.
  apply andb_prop in H as [H1 H2]. apply Nat.leb_le in H1. apply Nat.leb_le in H2.
  apply andb_true_intro. split; apply N.leb_le; lia.
Qed.

Lemma hex_digit_printable (d : N) : (d < 16)%N -> printable (Dumps.hex_digit d) = true.
Proof.
  intros H.
  assert (E : (d = 0 \/ d = 1 \/ d = 2 \/ d = 3 \/ d = 4 \/ d = 5 \/ d = 6 \/ d = 7
               \/ d = 8 \/ d = 9 \/ d = 10 \/ d = 11 \/ d = 12 \/ d = 13 \/ d = 14
               \/ d = 15)%N) by lia.
  repeat (destruct E as [->|E]; [reflexivity|]). subst d. reflexivity.
Qed.

Lemma u_escape_printable (u : N) :
  (u < 65536)%N -> all_chars printable (Dumps.u_escape u) = true.
Proof.
  intros H. unfold Dumps.u_escape, Dumps.hex4_text. cbn [all_chars].
  rewrite !hex_digit_printable by narith. reflexivity.
Qed.

(** The code points [Utf8.decode] returns are below [2 ^ 23], whatever the
    bytes. *)
Lemma decode_bound_aux (n : nat) (s : string) :
  String.length s <= n -> Forall (fun cp => (cp < 8388608)%N) (Utf8.decode s).
Proof.
  revert s; induction n as [|n IH]; intros s Hn.
  - destruct s; [constructor|cbn in Hn; lia].
  - destruct s as [|b0 r]; [constructor|].
    cbn [String.length] in Hn. cbn [Utf8.decode].
    pose proof (N_ascii_bounded b0) as B0.
    destruct (N.ltb_spec (N_of_ascii b0) 128).
    { constructor; [lia|apply IH; lia]. }
    destruct (N.ltb_spec (N_of_ascii b0) 224).
    { destruct r as [|b1 r1]; [constructor; [lia|constructor]|].
      pose proof (N_ascii_bounded b1). cbn [String.length] in Hn.
      constructor; [lia|apply IH; lia]. }
    destruct (N.ltb_spec (N_of_ascii b0) 240).
    { destruct r as [|b1 [|b2 r2]];
        try (constructor; [lia|apply IH; cbn [String.length] in *; lia]).
      pose proof (N_ascii_bounded b1). pose proof (N_ascii_bounded b2).
      cbn [String.length] in Hn.
      constructor; [lia|apply IH; lia]. }
    destruct r as [|b1 [|b2 [|b3 r3]]];
      try (constructor; [lia|apply IH; cbn [String.length] in *; lia]).
    pose proof (N_ascii_bounded b1). pose proof (N_ascii_bounded b2).
    pose proof (N_ascii_bounded b3). cbn [String.length] in Hn.
    constructor; [lia|apply IH; lia].
Qed.

Lemma escape_cp_printable (cp : N) :
  (cp < 8388608)%N -> all_chars printable (Dumps.escape_cp cp) = true.
Proof.
  intros H. unfold Dumps.escape_cp.
  repeat (match goal with
          | |- context [(cp =? ?k)%N] => destruct (cp =? k)%N; [reflexivity|]
          end).
  destruct ((32 <=? cp)%N && (cp <=? 126)%N) eqn:Hp.
  { apply andb_prop in Hp as [H32 H126].
    apply N.leb_le in H32. apply N.leb_le in H126.
    cbn [all_chars]. unfold printable. rewrite N_ascii_embedding by lia.
    rewrite andb_true_r. apply andb_true_intro. split; apply N.leb_le; lia. }
  destruct (N.ltb_spec cp 65536) as [Hb|Hb].
  { apply u_escape_printable, Hb. }
  rewrite all_chars_app, !u_escape_printable by narith. reflexivity.
Qed.

Lemma escape_printable (cps : list N) :
  Forall (fun cp => (cp < 8388608)%N) cps -> all_chars printable (Dumps.escape cps) = true.
Proof.
  induction 1 as [|cp cps Hcp _ IH]; [reflexivity|].
  cbn [Dumps.escape]. rewrite all_chars_app, (escape_cp_printable cp Hcp), IH.
  reflexivity.
Qed.

Lemma basestring_printable (s : string) :
  all_chars printable (Dumps.encode_basestring_ascii s) = true.
Proof.
  unfold Dumps.encode_basestring_ascii. cbn [all_chars].
  rewrite all_chars_app, escape_printable by (apply (decode_bound_aux _ _ (le_n _))).
  reflexivity.
Qed.

Lemma decimal_printable (z : Z) : all_chars printable (Dumps.decimal z) = true.
Proof.
  unfold Dumps.decimal.
  assert (Hd : forall n, all_chars printable (Dumps.digits n) = true).
  { intros n. apply (all_chars_impl Json.is_digit); [exact digit_printable|].
    apply digits_fuel_digits. }
  destruct (z <? 0)%Z; [cbn [all_chars]; rewrite Hd; reflexivity|apply Hd].
Qed.

Lemma join_items_printable (l : list string) :
  Forall (fun s => all_chars printable s = true) l ->
  all_chars printable (Dumps.join_items l) = true.
Proof.
  induction 1 as [|x l Hx Hl IH]; [reflexivity|].
  destruct l as [|y l]; [exact Hx|].
  change (Dumps.join_items (x :: y :: l))
    with (x ++ ", " ++ Dumps.join_items (y :: l))%string.
  rewrite !all_chars_app, Hx, IH. reflexivity.
Qed.

Lemma printable_no_newline (s : string) :
  all_chars printable s = true -> PyStr.contains (String "010" "") s = false.
Proof.
  induction s as [|c s IH]; [reflexivity|].
  cbn [all_chars]. intros H. apply andb_prop in H as [Hc Hs].
  rewrite contains_char_cons, (IH Hs), orb_false_r.
  apply Ascii.eqb_neq. intros <-. discriminate Hc.
Qed.

Lemma split_go_line (c : ascii) (body more cur : string) :
  PyStr.contains (String c "") body = false ->
  PyStr.split_go (String c "") (body ++ String c more) 0 cur
  = (PyStr.rev_string "" cur ++ body)%string :: PyStr.split_go (String c "") more 0 "".
Proof.
  revert cur; induction body as [|x body IH]; intros cur Hb.
  - cbn [append PyStr.split_go PyStr.is_prefix]. rewrite Ascii.eqb_refl.
    cbn [andb String.length Nat.sub]. now rewrite string_app_nil_r.
  - rewrite contains_char_cons in Hb. apply orb_false_elim in Hb as [Hx Hb].
    cbn [append PyStr.split_go PyStr.is_prefix]. rewrite Hx. cbn [andb].
    rewrite (IH (String x cur) Hb). cbn [PyStr.rev_string].
    rewrite (PyStrFacts.rev_string_acc (String x "")), string_app_assoc. reflexivity.
Qed.

Section Printable.

Context `{interp : Interp}.
Hypothesis float_repr_printable :
  forall lexeme, all_chars printable (float_repr lexeme) = true.

Lemma value_text_printable (v : json) : all_chars printable (value_text v) = true.
Proof.
  induction v as [|b|z|l|s|items IH|pairs IH] using json_nested_ind.
  - reflexivity.
  - destruct b; reflexivity.
  - apply decimal_printable.
  - apply float_repr_printable.
  - apply basestring_printable.
  - cbn [value_text all_chars append]. rewrite all_chars_app.
    rewrite join_items_printable; [reflexivity|].
    apply Forall_map. exact IH.
  - rewrite dumps_dict. cbn [all_chars append]. rewrite all_chars_app.
    rewrite join_items_printable; [reflexivity|].
    apply Forall_map. apply (Forall_impl _ (P := fun kv => all_chars printable
                                      (value_text (snd kv)) = true));
      [|exact IH].
    intros kv Hkv. unfold member_text.
    rewrite !all_chars_app, basestring_printable, Hkv. reflexivity.
Qed.

Lemma dumps_printable (v : json) (text : string) :
  Dumps.dumps v = Returns text -> all_chars printable text = true.
Proof.
  unfold Dumps.dumps. intros E. rewrite (encode_obj_text v _ _ E).
  apply value_text_printable.
Qed.

Lemma body_lines (out : list OutRec) :
  PyStr.split (response_body out) (String "010" "") = documents out ++ [""%string].
Proof.
  unfold PyStr.split.
  induction out as [|r out IH]; [reflexivity|].
  cbn [response_body documents].
  destruct (line_text r) as [text|e] eqn:E; [|reflexivity].
  cbn [app append].
  rewrite split_go_line by (apply printable_no_newline, (dumps_printable _ _ E)).
  cbn [PyStr.rev_string append]. rewrite IH. reflexivity.
Qed.

End Printable.

Lemma sent_documents `{interp : Interp} (out : list OutRec) :
  map line_text (fst (sent out)) = map Returns (documents (fst (sent out))).
Proof.
  induction out as [|r out IH]; [reflexivity|].
  cbn [sent]. destruct (line_text r) as [text|e] eqn:E; [|reflexivity].
  destruct (sent out) as [w e]. cbn [fst map documents] in *.
  rewrite E, IH. reflexivity.
Qed.

Lemma plain_image_json (img : image_data) :
  plain_image img = true -> plain (image_json img) = true.
Proof.
  unfold plain_image. intros H. apply andb_prop in H as [Hb Hf].
  cbn [image_json plain forallb fst snd map]. rewrite Hb, Hf. reflexivity.
Qed.

Lemma plain_record_json (r : OutRec) :
  plain_record r = true -> plain (record_json r) = true.
Proof.
  destruct r as [text|status_msg|img|message role_ imgs done_];
    cbn [plain_record record_json]; intros H.
  - cbn [plain forallb fst snd map]. rewrite H. reflexivity.
  - cbn [plain forallb fst snd map]. rewrite H. reflexivity.
  - cbn [plain forallb fst snd map]. change (forallb (fun kv => Utf8.valid_text (fst kv) && plain (snd kv))
      [("base64", base64 img); ("format", format img)]
      && distinct (map fst [("base64", base64 img); ("format", format img)]))
      with (plain (image_json img)). rewrite (plain_image_json img H). reflexivity.
  - apply andb_prop in H as [H Hi]. apply andb_prop in H as [Hm Hr].
    assert (Hl : forallb plain (map image_json imgs) = true).
    { clear -Hi. induction imgs as [|i imgs IH]; [reflexivity|].
      cbn [forallb map] in *. apply andb_prop in Hi as [Hi Hr].
      rewrite (plain_image_json i Hi), (IH Hr). reflexivity. }
    change (((Utf8.valid_text "message" && Utf8.valid_text message)
             && ((Utf8.valid_text "role" && Utf8.valid_text role_)
                 && ((Utf8.valid_text "images" && forallb plain (map image_json imgs))
                     && ((Utf8.valid_text "done" && true) && true))))
            && distinct ["message"; "role"; "images"; "done"]%string = true).
    rewrite Hm, Hr, Hl. reflexivity.
Qed.

Lemma image_json_injective (i j : image_data) : image_json i = image_json j -> i = j.
Proof.
  destruct i as [b f], j as [b' f']. unfold image_json. cbn [base64 format].
  intros H. injection H as -> ->. reflexivity.
Qed.

Lemma record_json_injective (r1 r2 : OutRec) :
  record_json r1 = record_json r2 -> r1 = r2.
Proof.
  destruct r1 as [t1|s1|i1|m1 ro1 im1 d1], r2 as [t2|s2|i2|m2 ro2 im2 d2];
    cbn [record_json]; intros H; try discriminate H.
  - injection H as ->. reflexivity.
  - injection H as ->. reflexivity.
  - assert (E : image_json i1 = image_json i2) by congruence.
    apply image_json_injective in E. now subst.
  - injection H as -> -> Hi ->. f_equal.
    revert im2 Hi. induction im1 as [|i im1 IH]; intros [|j im2] Hi;
      try discriminate Hi; [reflexivity|].
    cbn [map] in Hi.
    assert (Hij : image_json i = image_json j) by congruence.
    assert (Hrest : map image_json im1 = map image_json im2) by congruence.
    apply image_json_injective in Hij. rewrite Hij, (IH im2 Hrest). reflexivity.
Qed.

(** Plain values with the same text are the same value. *)
Lemma value_text_injective `{interp : Interp} (v w : json) :
  plain v = true -> plain w = true -> value_text v = value_text w -> v = w.
Proof.
  intros Hv Hw E.
  set (limit := Nat.max (nesting v) (nesting w)).
  pose proof (reads_back_all v Hv (2 * String.length (value_text v) + 1) limit ""
                ltac:(lia) ltac:(lia) eq_refl) as Sv.
  pose proof (reads_back_all w Hw (2 * String.length (value_text w) + 1) limit ""
                ltac:(lia) ltac:(lia) eq_refl) as Sw.
  rewrite E in Sv. rewrite Sv in Sw. congruence.
Qed.

(** X18. What [json.dumps] writes, [json.loads] reads back: for every value
    without floats whose strings and keys are texts of Unicode scalar
    values, with distinct keys in each dictionary, whose integers have at
    most 4300 digits and whose lists and dictionaries are not nested beyond
    what the encoder and the scanner allow, [json.dumps] returns a text and
    parsing that text returns the value itself.  Escapes, surrogate pairs
    for characters beyond the basic plane, negative integers and the [", "]
    and [": "] separators are all covered.  An integer of more than 4300
    digits makes [json.dumps] raise [ValueError]. *)
Theorem dumps_then_loads `{interp : Interp} (v : json) :
  plain v = true ->
  nesting v <= dumps_depth ->
  nesting v <= loads_depth ->
  (exists text, Dumps.dumps v = Returns text /\ Json.loads text = Returns v)
  /\ forall z,
       int_max_str_digits < Json.digit_count (Dumps.decimal z) ->
       Dumps.dumps (JInt z) = Raises IntValueError.
Proof.
  intros Hp Hd Hl. split.
  - exists (value_text v). split.
    + apply encode_obj_returns; assumption.
    + apply loads_dumps; assumption.
  - intros z Hz. unfold Dumps.dumps. cbn [Dumps.encode_obj]. unfold Dumps.int_text.
    apply Nat.ltb_lt in Hz. rewrite Hz. reflexivity.
Qed.

Lemma dumps_then_loads_witness :
  exists text,
    Dumps.dumps (interp := Sample.cpython) Inputs3.nested = Returns text
    /\ Json.loads (interp := Sample.cpython) text = Returns Inputs3.nested.
Proof.
  apply (dumps_then_loads (interp := Sample.cpython) Inputs3.nested).
  - reflexivity.
  - apply Nat.leb_le. reflexivity.
  - apply Nat.leb_le. reflexivity.
Defined.

(** X19. A text that [json.dumps] returns consists of printable ASCII
    characters only, whatever the value and whatever bytes its strings
    hold, as long as floats are printed so: every other character is
    written as an escape.  In particular the text contains no newline. *)
Theorem dumps_writes_printable_ascii `{interp : Interp} (v : json) (text : string) :
  (forall lexeme, all_chars printable (float_repr lexeme) = true) ->
  Dumps.dumps v = Returns text ->
  all_chars printable text = true
  /\ PyStr.contains (String "010" "") text = false.
Proof.
  intros Hf E. pose proof (dumps_printable Hf v text E) as Hp.
  split; [exact Hp|]. apply printable_no_newline, Hp.
Qed.

Lemma dumps_writes_printable_ascii_witness :
  exists text,
    Dumps.dumps (interp := Sample.cpython) (JList [JFloat "5e-1"; Inputs3.nested])
    = Returns text
    /\ all_chars printable text = true.
Proof.
  eexists. split; [vm_compute; reflexivity|].
  apply (dumps_writes_printable_ascii (interp := Sample.cpython)
           (JList [JFloat "5e-1"; Inputs3.nested])).
  - intros lexeme. reflexivity.
  - vm_compute. reflexivity.
Defined.

(** X20. The response body is newline-delimited JSON: splitting it at the
    newlines gives the yielded documents in order, one per record, followed
    by one empty piece after the last newline.  No document is cut in two by
    a newline of its own.  Every record the generator writes has its
    document: it ends at the first record that [json.dumps] refuses. *)
Theorem response_body_is_line_delimited `{interp : Interp} (out : list OutRec) :
  (forall lexeme, all_chars printable (float_repr lexeme) = true) ->
  PyStr.split (response_body out) (String "010" "") = documents out ++ [""%string]
  /\ forall up,
       map line_text (written (generate_stream up))
       = map Returns (documents (written (generate_stream up))).
Proof.
  intros Hf. split; [apply (body_lines Hf out)|].
  intros up. rewrite generate_stream_written. apply sent_documents.
Qed.

Lemma response_body_witness :
  PyStr.split (response_body (interp := Sample.cpython)
                 [OStatus ""; OChunk (String "010" "x"); Inputs3.final])
              (String "010" "")
  = documents (interp := Sample.cpython)
      [OStatus ""; OChunk (String "010" "x"); Inputs3.final] ++ [""%string].
Proof.
  apply (response_body_is_line_delimited (interp := Sample.cpython)).
  intros lexeme. reflexivity.
Defined.

(** X21. A yielded line determines its record: for a record whose texts are
    texts of Unicode scalar values and whose image fields are plain values
    not nested beyond what the encoder and the scanner allow, [json.dumps]
    returns a line, parsing the line gives the dictionary that was passed to
    [json.dumps], and no other such record has that line. *)
Theorem line_determines_record `{interp : Interp} (r : OutRec) :
  plain_record r = true ->
  nesting (record_json r) <= dumps_depth ->
  nesting (record_json r) <= loads_depth ->
  (exists text, line_text r = Returns text /\ Json.loads text = Returns (record_json r))
  /\ forall r', plain_record r' = true -> line_text r' = line_text r -> r' = r.
Proof.
  intros Hp Hd Hl.
  pose proof (plain_record_json r Hp) as Hj.
  assert (E : line_text r = Returns (value_text (record_json r)))
    by (apply encode_obj_returns; assumption).
  split.
  - exists (value_text (record_json r)). split; [exact E|].
    apply loads_dumps; assumption.
  - intros r' Hp' E'. rewrite E in E'.
    apply record_json_injective.
    apply value_text_injective;
      [apply plain_record_json, Hp'|exact Hj|].
    symmetry. exact (encode_obj_text _ _ _ E').
Qed.

Lemma line_determines_record_witness :
  exists text,
    line_text (interp := Sample.cpython) Inputs3.final = Returns text
    /\ Json.loads (interp := Sample.cpython) text = Returns (record_json Inputs3.final).
Proof.
  apply (line_determines_record (interp := Sample.cpython) Inputs3.final).
  - reflexivity.
  - apply Nat.leb_le. reflexivity.
  - apply Nat.leb_le. reflexivity.
Defined.

(** ** [validate_sql_query] *)

Lemma lstrip_app (a b : PyUni.ustr) :
  PyUni.lstrip (a ++ b)
  = if forallb PyUni.isspace a then PyUni.lstrip b else PyUni.lstrip a ++ b.
Proof.
  induction a as [|x a IH]; cbn [app PyUni.lstrip forallb]; [reflexivity|].
  destruct (PyUni.isspace x); cbn [andb]; [exact IH|reflexivity].
Qed.

Lemma lstrip_spaces (a : PyUni.ustr) :
  forallb PyUni.isspace a = true -> PyUni.lstrip a = [].
Proof.
  induction a as [|x a IH]; cbn [PyUni.lstrip forallb]; [reflexivity|].
  intros H. apply andb_prop in H as [-> Ha]. apply IH, Ha.
Qed.

Lemma forallb_rev {A} (p : A -> bool) (l : list A) :
  forallb p (rev l) = forallb p l.
Proof.
  induction l as [|x l IH]; [reflexivity|].
  cbn [rev forallb]. rewrite forallb_app, IH. cbn [forallb].
  rewrite andb_true_r. apply andb_comm.
Qed.

Lemma rstrip_app_spaces (s r : PyUni.ustr) :
  forallb PyUni.isspace r = true -> PyUni.rstrip (s ++ r) = PyUni.rstrip s.
Proof.
  intros H. unfold PyUni.rstrip. rewrite rev_app_distr, lstrip_app, forallb_rev, H.
  reflexivity.
Qed.

(** [lstrip] removes an all-blank prefix and nothing else. *)
Lemma lstrip_shape (s : PyUni.ustr) :
  exists l, s = l ++ PyUni.lstrip s /\ forallb PyUni.isspace l = true.
Proof.
  induction s as [|x s (l & E & Hl)]; [exists []; split; reflexivity|].
  cbn [PyUni.lstrip]. destruct (PyUni.isspace x) eqn:Hx.
  - exists (x :: l). cbn [app forallb]. rewrite Hx, Hl. split; [now f_equal|reflexivity].
  - exists []. split; reflexivity.
Qed.

Lemma rstrip_shape (s : PyUni.ustr) :
  exists r, s = PyUni.rstrip s ++ r /\ forallb PyUni.isspace r = true.
Proof.
  destruct (lstrip_shape (rev s)) as (l & E & Hl).
  exists (rev l). split.
  - unfold PyUni.rstrip. rewrite <- rev_app_distr, <- E. symmetry. apply rev_involutive.
  - rewrite forallb_rev. exact Hl.
Qed.

Lemma strip_shape (s : PyUni.ustr) :
  exists l r, s = l ++ PyUni.strip s ++ r
              /\ forallb PyUni.isspace l = true /\ forallb PyUni.isspace r = true.
Proof.
  destruct (lstrip_shape s) as (l & El & Hl).
  destruct (rstrip_shape (PyUni.lstrip s)) as (r & Er & Hr).
  exists l, r. unfold PyUni.strip. rewrite <- Er. auto.
Qed.

Lemma strip_pad (l q r : PyUni.ustr) :
  forallb PyUni.isspace l = true -> forallb PyUni.isspace r = true ->
  PyUni.strip (l ++ q ++ r) = PyUni.strip q.
Proof.
  intros Hl Hr. unfold PyUni.strip. rewrite lstrip_app, Hl, lstrip_app.
  destruct (forallb PyUni.isspace q) eqn:Hq.
  - rewrite (lstrip_spaces r Hr), (lstrip_spaces q Hq). reflexivity.
  - apply rstrip_app_spaces, Hr.
Qed.

Lemma lstrip_idempotent (s : PyUni.ustr) : PyUni.lstrip (PyUni.lstrip s) = PyUni.lstrip s.
Proof.
  induction s as [|x s IH]; [reflexivity|].
  cbn [PyUni.lstrip]. destruct (PyUni.isspace x) eqn:Hx; [exact IH|].
  cbn [PyUni.lstrip]. rewrite Hx. reflexivity.
Qed.

Lemma rstrip_snoc (s : PyUni.ustr) (c : N) :
  PyUni.isspace c = false -> PyUni.rstrip (s ++ [c]) = s ++ [c].
Proof.
  intros Hc. unfold PyUni.rstrip. rewrite rev_app_distr. cbn [rev app PyUni.lstrip].
  rewrite Hc. cbn [rev]. rewrite rev_involutive. reflexivity.
Qed.

Lemma endswith_char_snoc (s : PyUni.ustr) (c d : N) :
  PyUni.endswith_char (s ++ [c]) d = (c =? d)%N.
Proof. unfold PyUni.endswith_char. rewrite rev_app_distr. reflexivity. Qed.

Lemma normalize_pad (l q r : PyUni.ustr) :
  forallb PyUni.isspace l = true -> forallb PyUni.isspace r = true ->
  normalize (l ++ q ++ r) = normalize q.
Proof. intros Hl Hr. unfold normalize. rewrite (strip_pad l q r Hl Hr). reflexivity. Qed.

Lemma normalize_semicolon (q : PyUni.ustr) :
  PyUni.endswith_char (PyUni.strip q) semicolon = false ->
  normalize (q ++ [semicolon]) = normalize q.
Proof.
  intros He. unfold normalize at 2. rewrite He.
  unfold normalize.
  assert (Hs : PyUni.strip (q ++ [semicolon]) = PyUni.lstrip q ++ [semicolon]).
  { unfold PyUni.strip. rewrite lstrip_app.
    destruct (forallb PyUni.isspace q) eqn:Hq.
    - rewrite (lstrip_spaces q Hq). reflexivity.
    - apply rstrip_snoc. reflexivity. }
  rewrite Hs, endswith_char_snoc. cbn [semicolon N.eqb Pos.eqb].
  rewrite removelast_last. unfold PyUni.strip. rewrite lstrip_idempotent. reflexivity.
Qed.

(** X22. The verdict ignores white space around the query, Unicode white
    space included, and one semicolon at its end: padding a query with
    blanks on either side, or ending a query that does not end with a
    semicolon with one, changes neither the verdict nor its message. *)
Theorem validation_ignores_padding (l q r : PyUni.ustr) :
  forallb PyUni.isspace l = true -> forallb PyUni.isspace r = true ->
  validate_sql_query (l ++ q ++ r) = validate_sql_query q
  /\ (PyUni.endswith_char (PyUni.strip q) semicolon = false ->
      validate_sql_query (l ++ (q ++ [semicolon]) ++ r) = validate_sql_query q).
Proof.
  intros Hl Hr. unfold validate_sql_query. split.
  - rewrite (normalize_pad l q r Hl Hr). reflexivity.
  - intros He.
    rewrite (normalize_pad l (q ++ [semicolon]) r Hl Hr), (normalize_semicolon q He).
    reflexivity.
Qed.

Lemma validation_ignores_padding_witness :
  validate_sql_query (Queries.padding ++ (Queries.listing ++ [semicolon]) ++ Queries.padding)
  = Valid.
Proof.
  assert (H : forallb PyUni.isspace Queries.padding = true) by reflexivity.
  destruct (validation_ignores_padding Queries.padding Queries.listing Queries.padding H H)
    as [_ Hs].
  rewrite Hs; reflexivity.
Defined.

Lemma startswith_iff (s p : PyUni.ustr) :
  PyUni.startswith s p = true <-> exists b, s = p ++ b.
Proof.
  revert s; induction p as [|a p IH]; intros s; cbn [PyUni.startswith].
  - split; [intros _; exists s; reflexivity|reflexivity].
  - destruct s as [|x s].
    + split; [discriminate|intros (b & E); discriminate E].
    + rewrite andb_true_iff, N.eqb_eq, IH. split.
      * intros (-> & b & ->). exists b. reflexivity.
      * intros (b & E). injection E as -> ->. eauto.
Qed.

Lemma contains_iff (p s : PyUni.ustr) :
  PyUni.contains p s = true <-> exists a b, s = a ++ p ++ b.
Proof.
  induction s as [|x s IH]; cbn [PyUni.contains].
  - rewrite orb_false_r, startswith_iff. split.
    + intros (b & E). exists [], b. exact E.
    + intros ([|y a] & b & E); [exists b; exact E|discriminate E].
  - rewrite orb_true_iff, startswith_iff, IH. split.
    + intros [(b & E)|(a & b & E)].
      * exists [], b. exact E.
      * exists (x :: a), b. rewrite E. reflexivity.
    + intros ([|y a] & b & E).
      * left. exists b. exact E.
      * right. injection E as -> E. eauto.
Qed.

Lemma upper_app (a b : PyUni.ustr) :
  PyUni.upper (a ++ b) = PyUni.upper a ++ PyUni.upper b.
Proof. apply flat_map_app. Qed.

Lemma contains_upper (p s : PyUni.ustr) :
  PyUni.contains p s = true -> PyUni.contains (PyUni.upper p) (PyUni.upper s) = true.
Proof.
  rewrite !contains_iff. intros (a & b & ->).
  exists (PyUni.upper a), (PyUni.upper b). now rewrite !upper_app.
Qed.

Lemma startswith_foreign_tail (p s t : PyUni.ustr) :
  forallb (foreign p) t = true ->
  PyUni.startswith (s ++ t) p = true -> PyUni.startswith s p = true.
Proof.
  intros Ht. assert (Hin : forall c, In c p -> ~ In c t).
  { intros c Hc Hct. rewrite forallb_forall in Ht. specialize (Ht c Hct).
    unfold foreign in Ht. apply negb_true_iff in Ht.
    assert (existsb (N.eqb c) p = true) as E
        by (apply existsb_exists; exists c; split; [exact Hc|apply N.eqb_refl]).
    congruence. }
  clear Ht. revert s Hin; induction p as [|a p IH]; intros s Hin; [reflexivity|].
  destruct s as [|x s]; cbn [app PyUni.startswith].
  - destruct t as [|y t]; [discriminate|].
    intros H. apply andb_prop in H as [H _]. apply N.eqb_eq in H. subst y.
    exfalso. apply (Hin a); now left.
  - intros H. apply andb_prop in H as [Hx Hs]. rewrite Hx. cbn [andb].
    apply IH; [|exact Hs]. intros c Hc. apply Hin. now right.
Qed.

Lemma contains_foreign (p t : PyUni.ustr) :
  p <> [] -> forallb (foreign p) t = true -> PyUni.contains p t = false.
Proof.
  intros Hp Ht. destruct p as [|a p]; [congruence|].
  induction t as [|y t IH]; [reflexivity|].
  cbn [forallb] in Ht. apply andb_prop in Ht as [Hy Ht].
  cbn [PyUni.contains PyUni.startswith]. rewrite (IH Ht), orb_false_r.
  unfold foreign in Hy. cbn [existsb] in Hy. apply negb_true_iff in Hy.
  apply orb_false_elim in Hy as [Hy _]. rewrite N.eqb_sym, Hy. reflexivity.
Qed.

(** An occurrence of [p] cannot reach into a prefix or a suffix made of
    characters that [p] does not have. *)
Lemma contains_trim (p l s t : PyUni.ustr) :
  p <> [] -> forallb (foreign p) l = true -> forallb (foreign p) t = true ->
  PyUni.contains p (l ++ s ++ t) = true -> PyUni.contains p s = true.
Proof.
  intros Hp Hl Ht. induction l as [|x l IH]; cbn [app].
  - clear Hl. induction s as [|x s IH]; cbn [app].
    + rewrite (contains_foreign p t Hp Ht). discriminate.
    + cbn [PyUni.contains]. intros H. apply orb_prop in H as [H|H].
      * apply (startswith_foreign_tail p (x :: s) t Ht) in H. rewrite H. reflexivity.
      * rewrite (IH H). apply orb_true_r.
  - cbn [forallb] in Hl. apply andb_prop in Hl as [Hx Hl].
    cbn [PyUni.contains]. intros H. apply orb_prop in H as [H|H]; [|exact (IH Hl H)].
    exfalso. destruct p as [|a p]; [congruence|].
    cbn [PyUni.startswith] in H. apply andb_prop in H as [H _].
    unfold foreign in Hx. cbn [existsb] in Hx. apply negb_true_iff in Hx.
    apply orb_false_elim in Hx as [Hx _]. rewrite N.eqb_sym in Hx. congruence.
Qed.

(** The query is its normal form between blanks, with at most one semicolon
    among the blanks that follow. *)
Lemma normalize_shape (q : PyUni.ustr) :
  exists l r2 s r1,
    q = l ++ normalize q ++ (r2 ++ s ++ r1)
    /\ forallb PyUni.isspace l = true /\ forallb PyUni.isspace r2 = true
    /\ forallb PyUni.isspace r1 = true /\ (s = [] \/ s = [semicolon]).
Proof.
  destruct (strip_shape q) as (l & r1 & E & Hl & Hr1).
  unfold normalize. destruct (PyUni.endswith_char (PyUni.strip q) semicolon) eqn:He.
  - unfold PyUni.endswith_char in He.
    destruct (rev (PyUni.strip q)) as [|x m'] eqn:Er; [discriminate|].
    apply N.eqb_eq in He. subst x.
    assert (Es : PyUni.strip q = rev m' ++ [semicolon]).
    { rewrite <- (rev_involutive (PyUni.strip q)), Er. reflexivity. }
    rewrite Es, removelast_last.
    destruct (strip_shape (rev m')) as (l2 & r2 & E2 & Hl2 & Hr2).
    exists (l ++ l2), r2, [semicolon], r1. repeat split; auto.
    + rewrite E at 1. rewrite Es. rewrite E2 at 1. now rewrite <- !app_assoc.
    + rewrite forallb_app, Hl, Hl2. reflexivity.
  - exists l, [], [], r1. repeat split; auto.
Qed.

Lemma foreign_blank (p : PyUni.ustr) (t : PyUni.ustr) :
  forallb (fun c => negb (PyUni.isspace c)) p = true ->
  forallb PyUni.isspace t = true -> forallb (foreign p) t = true.
Proof.
  intros Hp Ht. apply forallb_forall. intros c Hc.
  rewrite forallb_forall in Ht. specialize (Ht c Hc).
  unfold foreign. apply negb_true_iff.
  destruct (existsb (N.eqb c) p) eqn:E; [|reflexivity].
  apply existsb_exists in E as (d & Hd & Ecd). apply N.eqb_eq in Ecd. subst d.
  rewrite forallb_forall in Hp. specialize (Hp c Hd). rewrite Ht in Hp. discriminate.
Qed.

(** A pattern without blanks and semicolons that occurs in the query occurs
    in its normal form. *)
Lemma contains_normalize (p q : PyUni.ustr) :
  p <> [] ->
  forallb (fun c => negb (PyUni.isspace c)) p = true ->
  existsb (N.eqb semicolon) p = false ->
  PyUni.contains p q = true -> PyUni.contains p (normalize q) = true.
Proof.
  intros Hne Hp Hsemi H.
  destruct (normalize_shape q) as (l & r2 & s & r1 & E & Hl & Hr2 & Hr1 & Hs).
  rewrite E in H. apply (contains_trim p l _ (r2 ++ s ++ r1) Hne); [| |exact H].
  - apply foreign_blank; assumption.
  - rewrite !forallb_app, (foreign_blank p r2 Hp Hr2), (foreign_blank p r1 Hp Hr1).
    destruct Hs as [->| ->]; [reflexivity|].
    cbn [forallb]. unfold foreign at 1. rewrite Hsemi. reflexivity.
Qed.

Lemma unique_split {A} (c : A) (p r a b : list A) :
  ~ In c p -> ~ In c r -> p ++ c :: r = a ++ c :: b -> a = p /\ b = r.
Proof.
  intros Hp Hr. revert a; induction p as [|x p IH]; intros a E.
  - destruct a as [|y a]; cbn [app] in E.
    + injection E as ->. auto.
    + injection E as <- E. exfalso. apply Hr. rewrite E. apply in_elt.
  - destruct a as [|y a]; cbn [app] in E.
    + injection E as -> _. exfalso. apply Hp. now left.
    + injection E as <- E. destruct (IH (fun H => Hp (or_intror H)) a E) as [-> ->]. auto.
Qed.

Lemma blank_no_semicolon (t : PyUni.ustr) :
  forallb PyUni.isspace t = true -> ~ In semicolon t.
Proof.
  intros Ht Hin. rewrite forallb_forall in Ht. specialize (Ht _ Hin). discriminate Ht.
Qed.

Lemma contains_char_in (c : N) (s : PyUni.ustr) :
  PyUni.contains [c] s = false -> ~ In c s.
Proof.
  induction s as [|x s IH]; [intros _ []|].
  cbn [PyUni.contains PyUni.startswith]. rewrite andb_true_r.
  intros H. apply orb_false_elim in H as [Hx Hs].
  intros [->|Hin]; [rewrite N.eqb_refl in Hx; discriminate|exact (IH Hs Hin)].
Qed.

Lemma valid_facts (q : PyUni.ustr) :
  validate_sql_query q = Valid ->
  PyUni.startswith (PyUni.upper (normalize q)) (PyUni.text "SELECT") = true
  /\ PyUni.contains [semicolon] (normalize q) = false
  /\ first_pattern dangerous_patterns (PyUni.upper (normalize q)) = None.
Proof.
  unfold validate_sql_query.
  destruct (PyUni.startswith _ _); cbn [negb]; [|discriminate].
  destruct (PyUni.contains [semicolon] _); [discriminate|].
  destruct (first_pattern _ _); [discriminate|]. auto.
Qed.

Lemma first_pattern_none (patterns : list string) (u : PyUni.ustr) :
  first_pattern patterns u = None ->
  forall p, In p patterns -> PyUni.contains (PyUni.text p) u = false.
Proof.
  induction patterns as [|x patterns IH]; intros H p Hp; [destruct Hp|].
  cbn [first_pattern] in H.
  destruct (PyUni.contains (PyUni.text x) u) eqn:E; [discriminate|].
  destruct Hp as [->|Hp]; [exact E|exact (IH H p Hp)].
Qed.

(** X23. An accepted query contains no SQL comment marker, neither [--] nor
    the opening of a block comment, anywhere, and no semicolon other than
    one closing it: whatever follows a semicolon of the query is white
    space, and nothing before it is a semicolon. *)
Theorem accepted_query_is_one_statement (q : PyUni.ustr) :
  validate_sql_query q = Valid ->
  PyUni.contains (PyUni.text "--") q = false
  /\ PyUni.contains (PyUni.text "/*") q = false
  /\ forall a b, q = a ++ semicolon :: b ->
                 forallb PyUni.isspace b = true /\ ~ In semicolon a.
Proof.
  intros Hv. destruct (valid_facts q Hv) as (_ & Hsemi & Hpat).
  pose proof (first_pattern_none _ _ Hpat) as Hnone.
  assert (Hmark : forall p, In p ["--"; "/*"]%string ->
                            PyUni.contains (PyUni.text p) q = false).
  { intros p Hp.
    destruct (PyUni.contains (PyUni.text p) q) eqn:E; [|reflexivity].
    assert (Hu : PyUni.contains (PyUni.upper (PyUni.text p))
                                (PyUni.upper (normalize q)) = true).
    { apply contains_upper, contains_normalize; [| | |exact E];
        destruct Hp as [<-|[<-|[]]]; try reflexivity; discriminate. }
    assert (Hin : In p dangerous_patterns /\ PyUni.upper (PyUni.text p) = PyUni.text p).
    { destruct Hp as [<-|[<-|[]]]; (split; [cbn; tauto|reflexivity]). }
    destruct Hin as [Hin Hup]. rewrite Hup, (Hnone p Hin) in Hu. discriminate Hu. }
  split; [apply Hmark; cbn; tauto|]. split; [apply Hmark; cbn; tauto|].
  intros a b E.
  destruct (normalize_shape q) as (l & r2 & s & r1 & Eq & Hl & Hr2 & Hr1 & Hs).
  assert (Hp : ~ In semicolon (l ++ normalize q ++ r2)).
  { intros Hin. apply in_app_or in Hin as [Hin|Hin];
      [exact (blank_no_semicolon l Hl Hin)|].
    apply in_app_or in Hin as [Hin|Hin];
      [exact (contains_char_in _ _ Hsemi Hin)|exact (blank_no_semicolon r2 Hr2 Hin)]. }
  destruct Hs as [->| ->].
  - exfalso. cbn [app] in Eq.
    assert (Hin : In semicolon q) by (rewrite E; apply in_elt).
    rewrite Eq in Hin. rewrite !app_assoc in Hin.
    apply in_app_or in Hin as [Hin|Hin]; [|exact (blank_no_semicolon r1 Hr1 Hin)].
    apply Hp. rewrite !app_assoc. exact Hin.
  - assert (Eq' : (l ++ normalize q ++ r2) ++ semicolon :: r1 = a ++ semicolon :: b).
    { rewrite <- E. symmetry. etransitivity; [exact Eq|].
      rewrite <- !app_assoc. reflexivity. }
    destruct (unique_split semicolon _ r1 a b Hp (blank_no_semicolon r1 Hr1) Eq')
      as [-> ->].
    split; [exact Hr1|exact Hp].
Qed.

Lemma accepted_query_witness :
  validate_sql_query (Queries.listing ++ [semicolon]) = Valid
  /\ PyUni.contains (PyUni.text "--") (Queries.listing ++ [semicolon]) = false.
Proof.
  split; [reflexivity|].
  apply (accepted_query_is_one_statement (Queries.listing ++ [semicolon])). reflexivity.
Defined.

Ltac decide_ranges :=
  repeat (match goal with
          | |- context [(?a <=? ?b)%N] => destruct (N.leb_spec a b); try lia
          | |- context [(?a =? ?b)%N] => destruct (N.eqb_spec a b); try lia
          end);
  try reflexivity; try lia.

Lemma letter_facts (c : N) :
  PyUni.between 97 122 c = true ->
  PyUni.isspace c = false /\ PyUni.isspace (c - 32) = false
  /\ (c =? semicolon)%N = false /\ (c - 32 =? semicolon)%N = false
  /\ PyUni.upper_cp (c - 32) = PyUni.upper_cp c.
Proof.
  unfold PyUni.between. intros H. apply andb_prop in H as [H1 H2].
  apply N.leb_le in H1. apply N.leb_le in H2.
  unfold PyUni.isspace, PyUni.upper_cp, PyUni.between, semicolon.
  repeat split; decide_ranges.
Qed.

Lemma same_letter_facts (c d : N) :
  same_letter c d ->
  PyUni.isspace c = PyUni.isspace d
  /\ (c =? semicolon)%N = (d =? semicolon)%N
  /\ PyUni.upper_cp c = PyUni.upper_cp d.
Proof.
  intros [->|[[H ->]|[H ->]]]; [auto| |];
    destruct (letter_facts _ H) as (H1 & H2 & H3 & H4 & H5);
    rewrite H1, H2, H3, H4, H5; auto.
Qed.

Lemma alike_lstrip (s s' : PyUni.ustr) :
  Forall2 same_letter s s' -> Forall2 same_letter (PyUni.lstrip s) (PyUni.lstrip s').
Proof.
  induction 1 as [|c d s s' Hcd Hs IH]; [constructor|].
  cbn [PyUni.lstrip]. destruct (same_letter_facts c d Hcd) as (<- & _).
  destruct (PyUni.isspace c); [exact IH|constructor; assumption].
Qed.

Lemma alike_rev (s s' : PyUni.ustr) : Forall2 same_letter s s' -> Forall2 same_letter (rev s) (rev s').
Proof.
  induction 1 as [|c d s s' Hcd Hs IH]; [constructor|].
  cbn [rev]. apply Forall2_app; [exact IH|]. constructor; [exact Hcd|constructor].
Qed.

Lemma alike_strip (s s' : PyUni.ustr) :
  Forall2 same_letter s s' -> Forall2 same_letter (PyUni.strip s) (PyUni.strip s').
Proof.
  intros H. unfold PyUni.strip, PyUni.rstrip.
  apply alike_rev, alike_lstrip, alike_rev, alike_lstrip, H.
Qed.

Lemma alike_removelast (s s' : PyUni.ustr) :
  Forall2 same_letter s s' -> Forall2 same_letter (removelast s) (removelast s').
Proof.
  induction 1 as [|c d s s' Hcd Hs IH]; [constructor|].
  cbn [removelast]. destruct Hs as [|c' d' s s' Hcd' Hs]; [constructor|].
  constructor; [exact Hcd|exact IH].
Qed.

Lemma alike_endswith (s s' : PyUni.ustr) :
  Forall2 same_letter s s' ->
  PyUni.endswith_char s semicolon = PyUni.endswith_char s' semicolon.
Proof.
  intros H. apply alike_rev in H. unfold PyUni.endswith_char.
  destruct H as [|c d r r' Hcd _]; [reflexivity|].
  apply (same_letter_facts c d Hcd).
Qed.

Lemma alike_semicolon (s s' : PyUni.ustr) :
  Forall2 same_letter s s' ->
  PyUni.contains [semicolon] s = PyUni.contains [semicolon] s'.
Proof.
  induction 1 as [|c d s s' Hcd Hs IH]; [reflexivity|].
  cbn [PyUni.contains PyUni.startswith]. rewrite IH.
  destruct (same_letter_facts c d Hcd) as (_ & E & _).
  rewrite (N.eqb_sym semicolon c), (N.eqb_sym semicolon d), E. reflexivity.
Qed.

Lemma alike_upper (s s' : PyUni.ustr) :
  Forall2 same_letter s s' -> PyUni.upper s = PyUni.upper s'.
Proof.
  induction 1 as [|c d s s' Hcd Hs IH]; [reflexivity|].
  unfold PyUni.upper in *. cbn [flat_map]. rewrite IH.
  destruct (same_letter_facts c d Hcd) as (_ & _ & ->). reflexivity.
Qed.

Lemma alike_normalize (q q' : PyUni.ustr) :
  Forall2 same_letter q q' -> Forall2 same_letter (normalize q) (normalize q').
Proof.
  intros H. unfold normalize.
  pose proof (alike_strip q q' H) as Hs.
  rewrite (alike_endswith _ _ Hs).
  destruct (PyUni.endswith_char (PyUni.strip q') semicolon); [|exact Hs].
  apply alike_strip, alike_removelast, Hs.
Qed.

(** X24. The verdict does not depend on the case of ASCII letters: two
    queries that differ only in that, such as [drop] and [DROP] or
    [select] and [Select], are both accepted or both refused, with the same
    message. *)
Theorem validation_ignores_letter_case (q q' : PyUni.ustr) :
  Forall2 same_letter q q' -> validate_sql_query q = validate_sql_query q'.
Proof.
  intros H. apply alike_normalize in H. unfold validate_sql_query.
  rewrite (alike_upper _ _ H), (alike_semicolon _ _ H). reflexivity.
Qed.

Lemma validation_ignores_letter_case_witness :
  validate_sql_query Queries.listing = validate_sql_query Queries.shouting.
Proof.
  apply (validation_ignores_letter_case Queries.listing Queries.shouting).
  unfold Queries.listing, Queries.shouting.
  repeat (apply Forall2_cons;
          [first [left; reflexivity | right; left; split; reflexivity]|]).
  apply Forall2_nil.
Defined.

(** [occurs p s]: [p] occurs in [s] with something solid after it. *)
Lemma occurs_lstrip (p a b : PyUni.ustr) (c : N) :
  PyUni.isspace c = false ->
  exists a', PyUni.lstrip (a ++ (c :: p) ++ b) = a' ++ (c :: p) ++ b.
Proof.
  intros Hc. rewrite lstrip_app. destruct (forallb PyUni.isspace a).
  - exists []. cbn [app PyUni.lstrip]. rewrite Hc. reflexivity.
  - exists (PyUni.lstrip a). reflexivity.
Qed.

Lemma solid_not_blank (b : PyUni.ustr) :
  existsb solid b = true -> forallb PyUni.isspace b = false.
Proof.
  induction b as [|x b IH]; [discriminate|].
  cbn [existsb forallb]. unfold solid at 1.
  destruct (PyUni.isspace x); cbn [negb andb orb]; [exact IH|reflexivity].
Qed.

Lemma solid_blank (r : PyUni.ustr) :
  forallb PyUni.isspace r = true -> existsb solid r = false.
Proof.
  induction r as [|x r IH]; [reflexivity|].
  cbn [existsb forallb]. unfold solid at 1. intros H. apply andb_prop in H as [-> Hr].
  exact (IH Hr).
Qed.

Lemma occurs_rstrip (u b : PyUni.ustr) :
  existsb solid b = true ->
  exists b', PyUni.rstrip (u ++ b) = u ++ b' /\ existsb solid b' = true.
Proof.
  intros Hb. exists (PyUni.rstrip b). split.
  - unfold PyUni.rstrip. rewrite rev_app_distr, lstrip_app, forallb_rev.
    rewrite (solid_not_blank b Hb). rewrite rev_app_distr, rev_involutive. reflexivity.
  - destruct (rstrip_shape b) as (r & E & Hr).
    rewrite E, existsb_app, (solid_blank r Hr), orb_false_r in Hb. exact Hb.
Qed.

Lemma occurs_strip (p a b : PyUni.ustr) (c : N) :
  PyUni.isspace c = false -> existsb solid b = true ->
  exists a' b', PyUni.strip (a ++ (c :: p) ++ b) = a' ++ (c :: p) ++ b'
                /\ existsb solid b' = true.
Proof.
  intros Hc Hb. unfold PyUni.strip.
  destruct (occurs_lstrip p a b c Hc) as (a' & ->).
  destruct (occurs_rstrip (a' ++ c :: p) b Hb) as (b' & E & Hb').
  exists a', b'. split; [|exact Hb'].
  rewrite app_assoc, E, <- app_assoc. reflexivity.
Qed.

Lemma occurs_removelast (u b : PyUni.ustr) :
  existsb solid b = true -> PyUni.endswith_char (u ++ b) semicolon = true ->
  exists b', removelast (u ++ b) = u ++ b' /\ existsb solid b' = true.
Proof.
  intros Hb He. destruct (rev b) as [|x m] eqn:Er.
  { apply (f_equal (@rev N)) in Er. rewrite rev_involutive in Er. subst b. discriminate Hb. }
  assert (Eb : b = rev m ++ [x]).
  { rewrite <- (rev_involutive b), Er. reflexivity. }
  subst b. rewrite app_assoc in *. rewrite endswith_char_snoc in He.
  apply N.eqb_eq in He. subst x.
  exists (rev m). rewrite removelast_last. split; [reflexivity|].
  rewrite existsb_app in Hb. cbn in Hb. rewrite orb_false_r in Hb. exact Hb.
Qed.

Lemma occurs_normalize (p a b : PyUni.ustr) (c : N) :
  PyUni.isspace c = false -> existsb solid b = true ->
  PyUni.contains (c :: p) (normalize (a ++ (c :: p) ++ b)) = true.
Proof.
  intros Hc Hb. unfold normalize.
  destruct (occurs_strip p a b c Hc Hb) as (a1 & b1 & E1 & Hb1). rewrite E1.
  destruct (PyUni.endswith_char _ _) eqn:He.
  - rewrite app_assoc in He |- *.
    destruct (occurs_removelast _ b1 Hb1 He) as (b2 & E2 & Hb2). rewrite E2.
    rewrite <- app_assoc.
    destruct (occurs_strip p a1 b2 c Hc Hb2) as (a3 & b3 & E3 & _). rewrite E3.
    apply contains_iff. eauto.
  - apply contains_iff. eauto.
Qed.

Lemma first_pattern_some (patterns : list string) (u : PyUni.ustr) (p : string) :
  In p patterns -> PyUni.contains (PyUni.text p) u = true ->
  exists found, first_pattern patterns u = Some found.
Proof.
  induction patterns as [|x patterns IH]; intros Hp Hc; [destruct Hp|].
  cbn [first_pattern]. destruct (PyUni.contains (PyUni.text x) u) eqn:E; [eauto|].
  destruct Hp as [->|Hp]; [congruence|exact (IH Hp Hc)].
Qed.

Lemma dangerous_pattern_facts (p : string) :
  In p dangerous_patterns ->
  PyUni.upper (PyUni.text p) = PyUni.text p
  /\ exists c r, PyUni.text p = c :: r /\ PyUni.isspace c = false.
Proof.
  intros H. cbn [dangerous_patterns In] in H.
  repeat (destruct H as [<-|H]; [split; [reflexivity|eexists _, _; split; reflexivity]|]).
  destruct H.
Qed.

(** X25. A forbidden pattern followed by anything but blanks and semicolons
    makes the query refused, in whatever letter case it is written and
    wherever it stands: neither the trimming of the query nor the removal
    of its final semicolon can hide it. *)
Theorem forbidden_pattern_is_refused (q a b : PyUni.ustr) (pattern : string) :
  In pattern dangerous_patterns ->
  Forall2 same_letter q (a ++ PyUni.text pattern ++ b) ->
  existsb solid b = true ->
  exists message, validate_sql_query q = ToolError message.
Proof.
  intros Hp Hq Hb.
  destruct (dangerous_pattern_facts pattern Hp) as (Hup & c & r & Et & Hc).
  assert (Hn : PyUni.contains (PyUni.text pattern)
                 (PyUni.upper (normalize (a ++ PyUni.text pattern ++ b))) = true).
  { rewrite <- Hup at 1. apply contains_upper. rewrite Et.
    apply occurs_normalize; assumption. }
  apply alike_normalize in Hq.
  unfold validate_sql_query.
  rewrite (alike_upper _ _ Hq), (alike_semicolon _ _ Hq).
  destruct (PyUni.startswith _ _); cbn [negb]; [|eauto].
  destruct (PyUni.contains [semicolon] _); [eauto|].
  destruct (first_pattern_some dangerous_patterns _ pattern Hp Hn) as (found & ->).
  eauto.
Qed.

Lemma forbidden_pattern_witness :
  exists message,
    validate_sql_query (PyUni.text "Select 1 where Drop table x") = ToolError message.
Proof.
  apply (forbidden_pattern_is_refused
           (PyUni.text "Select 1 where Drop table x")
           (PyUni.text "SELECT 1 WHERE ") (PyUni.text "TABLE X") "DROP ").
  - cbn. tauto.
  - cbn [PyUni.text app].
    repeat (apply Forall2_cons;
            [first [left; reflexivity | right; left; split; reflexivity]|]).
    apply Forall2_nil.
  - reflexivity.
Defined.
